(** * Streamlit Drive: a model of [streamlit_app.py] and its storage operations

    The application browses and mutates the directory tree below
    [STORAGE_DIR = Path("file_storage")].  It is embedded here as follows.

    - Python [str] values are [string]s; a character is read as the code point
      of the same number (0..255), which is the range on which [str.strip] and
      [str.lower] are defined below.
    - [pathlib.Path] values are records of a root and a list of components, as
      [PurePosixPath] parses them.
    - The file system is a tree of nodes with the process working directory;
      a directory keeps its entries in enumeration order ([os.scandir]).
      Permissions, quotas, name-length limits and symbolic links are not
      modelled; a node that is neither a directory nor a regular file (FIFO,
      socket, device) is [Special].
    - The script is a computation in a state-and-exception monad over the
      session ([st.session_state.current_path], the file system, and the
      messages shown to the user).  [st.rerun()] raises a [BaseException],
      which [except Exception] does not catch. *)

From Stdlib Require Import List String Ascii Bool Arith NArith Lia.
From Stdlib.Strings Require Import Byte.
From Stdlib Require Import Permutation Sorted Relations.
From Stdlib Require Import QArith Lqa.
Close Scope Q_scope.
Import ListNotations.
Open Scope string_scope.
Open Scope list_scope.

(** ** Python strings *)

Module PyStr.

(** [str.isspace] on one character, for code points below 256:
    TAB..CR, FS..US, SPACE, NEL (0x85) and NBSP (0xA0). *)
Definition is_space (c : ascii) : bool :=
  let n := nat_of_ascii c in
  (((9 <=? n) && (n <=? 13)) || ((28 <=? n) && (n <=? 32))
   || (n =? 133) || (n =? 160))%nat.

Fixpoint lstrip (s : string) : string :=
  match s with
  | String c s' => if is_space c then lstrip s' else s
  | EmptyString => EmptyString
  end.

(** [rstrip] keeps a character when it is not white space or when something
    that is kept follows it. *)
Fixpoint rstrip (s : string) : string :=
  match s with
  | EmptyString => EmptyString
  | String c s' =>
      match rstrip s' with
      | EmptyString => if is_space c then EmptyString else String c EmptyString
      | r => String c r
      end
  end.

(** [s.strip()] *)
Definition strip (s : string) : string := rstrip (lstrip s).

(** [str.lower] on one character, for code points below 256: A..Z and the
    Latin-1 capitals 0xC0..0xDE (without the multiplication sign 0xD7) move
    up by 32. *)
Definition lower_char (c : ascii) : ascii :=
  let n := nat_of_ascii c in
  if (((65 <=? n) && (n <=? 90))
      || ((192 <=? n) && (n <=? 222) && negb (n =? 215)))%nat
  then ascii_of_nat (n + 32) else c.

Fixpoint lower (s : string) : string :=
  match s with
  | EmptyString => EmptyString
  | String c s' => String (lower_char c) (lower s')
  end.

(** The truth value of a string: [bool(s)] is [False] only for [""]. *)
Definition truthy (s : string) : bool :=
  match s with EmptyString => false | _ => true end.

(** [s.split("/")] *)
Fixpoint split_slash (s : string) : list string :=
  match s with
  | EmptyString => [EmptyString]
  | String c s' =>
      if Ascii.eqb c "/"%char then EmptyString :: split_slash s'
      else match split_slash s' with
           | w :: ws => String c w :: ws
           | [] => [String c EmptyString]
           end
  end.

Fixpoint contains_char (a : ascii) (s : string) : bool :=
  match s with
  | EmptyString => false
  | String c s' => Ascii.eqb c a || contains_char a s'
  end.

(** An embedded NUL makes every system call on the name raise [ValueError]. *)
Definition has_nul (s : string) : bool := contains_char zero s.

(** Python compares strings by code point, lexicographically. *)
Definition le (a b : string) : Prop := String.leb a b = true.
Definition lt (a b : string) : Prop := String.ltb a b = true.

End PyStr.

(** ** [pathlib.PurePosixPath] *)

Record Path := mkPath {
  root : string;          (* "", "/" or "//" *)
  tail : list string      (* the components after the root *)
}.

Module PurePath.

Definition eqb (p q : Path) : bool :=
  String.eqb (root p) (root q)
  && if list_eq_dec string_dec (tail p) (tail q) then true else false.

(** [posixpath.splitroot]: exactly two leading slashes are a root of their
    own, one or at least three are ["/"]. *)
Definition splitroot (s : string) : string * string :=
  match s with
  | String "/" (String "/" (String "/" r)) => ("/", String "/" r)
  | String "/" (String "/" r) => ("//", r)
  | String "/" r => ("/", r)
  | _ => ("", s)
  end.

Definition keep_component (c : string) : bool :=
  negb (String.eqb c "") && negb (String.eqb c ".").

(** Parsing drops empty components and ["."], and keeps [".."]. *)
Definition parse (s : string) : Path :=
  let (r, rest) := splitroot s in
  mkPath r (filter keep_component (PyStr.split_slash rest)).

(** [p / s]: a rooted right operand replaces the left one. *)
Definition joinpath (p : Path) (s : string) : Path :=
  let q := parse s in
  if PyStr.truthy (root q) then q
  else mkPath (root p) (tail p ++ tail q).

(** [p.joinpath( *segments )] *)
Definition joinpath_all (p : Path) (segments : list string) : Path :=
  fold_left joinpath segments p.

(** [p.parent]: a path without components is its own parent. *)
Definition parent (p : Path) : Path := mkPath (root p) (removelast (tail p)).

(** [p.name] *)
Definition name (p : Path) : string := last (tail p) "".

(** [p.parts] *)
Definition parts (p : Path) : list string :=
  if PyStr.truthy (root p) then root p :: tail p else tail p.

Fixpoint strip_prefix (pre l : list string) : option (list string) :=
  match pre, l with
  | [], _ => Some l
  | a :: pre', b :: l' => if String.eqb a b then strip_prefix pre' l' else None
  | _ :: _, [] => None
  end.

(** [p.relative_to(other)]; [None] stands for the [ValueError]. *)
Definition relative_to (p other : Path) : option Path :=
  if String.eqb (root p) (root other) then
    match strip_prefix (tail other) (tail p) with
    | Some rest => Some (mkPath "" rest)
    | None => None
    end
  else None.

End PurePath.

Notation "p // s" := (PurePath.joinpath p s) (at level 40, left associativity).

(** ** The file system *)

#[warnings="-register-all"]
Inductive node : Type :=
| File (data : list byte)
| Dir (entries : list (string * node))
| Special.

Record filesystem := mkFS {
  tree : node;            (* the directory "/" *)
  cwd : list string       (* the working directory, from "/" *)
}.

(** The exceptions the modelled calls raise.  All but [ValueError] and
    [KeyError] are subclasses of [OSError]; [ShutilError] is [shutil.Error]. *)
Inductive exn : Type :=
| FileNotFoundError
| NotADirectoryError
| IsADirectoryError
| FileExistsError
| OSError_ENOTEMPTY
| OSError_EINVAL
| ValueError
| KeyError
| ShutilError.

Definition is_OSError (e : exn) : bool :=
  match e with
  | ValueError | KeyError => false
  | _ => true
  end.

Module OS.

Definition entries_t := list (string * node).

Fixpoint lookup (n : string) (es : entries_t) : option node :=
  match es with
  | [] => None
  | (m, c) :: es' => if String.eqb m n then Some c else lookup n es'
  end.

(** The node at a canonical location (a list of entry names from "/"). *)
Fixpoint get (t : node) (cp : list string) : option node :=
  match cp with
  | [] => Some t
  | n :: cp' =>
      match t with
      | Dir es => match lookup n es with
                  | Some c => get c cp'
                  | None => None
                  end
      | _ => None
      end
  end.

Fixpoint alter_first (n : string) (f : node -> node) (es : entries_t)
  : entries_t :=
  match es with
  | [] => []
  | (m, c) :: es' =>
      if String.eqb m n then (m, f c) :: es'
      else (m, c) :: alter_first n f es'
  end.

(** Apply [f] to the node at a canonical location. *)
Fixpoint alter (cp : list string) (f : node -> node) (t : node) : node :=
  match cp with
  | [] => f t
  | n :: cp' =>
      match t with
      | Dir es => Dir (alter_first n (alter cp' f) es)
      | _ => t
      end
  end.

Definition on_entries (f : entries_t -> entries_t) (t : node) : node :=
  match t with
  | Dir es => Dir (f es)
  | _ => t
  end.

(** A new entry comes last in the enumeration of its directory. *)
Definition add_entry (n : string) (v : node) (es : entries_t) : entries_t :=
  es ++ [(n, v)].

Fixpoint remove_entry (n : string) (es : entries_t) : entries_t :=
  match es with
  | [] => []
  | (m, c) :: es' =>
      if String.eqb m n then es' else (m, c) :: remove_entry n es'
  end.

Fixpoint is_prefix (pre l : list string) : bool :=
  match pre, l with
  | [], _ => true
  | a :: pre', b :: l' => String.eqb a b && is_prefix pre' l'
  | _ :: _, [] => false
  end.

(** Follow components from the existing location [cur]; every component
    walked through must be a directory, and [".."] goes up (staying at "/"
    when there). *)
Fixpoint walk (t : node) (cur ps : list string) : exn + list string :=
  match ps with
  | [] => inr cur
  | p :: ps' =>
      match get t cur with
      | Some (Dir es) =>
          if String.eqb p ".." then walk t (removelast cur) ps'
          else match lookup p es with
               | Some _ => walk t (cur ++ [p]) ps'
               | None => inl FileNotFoundError
               end
      | Some _ => inl NotADirectoryError
      | None => inl FileNotFoundError
      end
  end.

(** What a path denotes: an existing node, or a name that is free in an
    existing directory. *)
Inductive location : Type :=
| Existing (cp : list string)
| Missing (dir : list string) (n : string).

Definition start (fs : filesystem) (p : Path) : list string :=
  if PyStr.truthy (root p) then [] else cwd fs.

Definition locate (fs : filesystem) (p : Path) : exn + location :=
  if existsb PyStr.has_nul (tail p) then inl ValueError
  else match tail p with
       | [] => inr (Existing (start fs p))
       | _ :: _ =>
           match walk (tree fs) (start fs p) (removelast (tail p)) with
           | inl e => inl e
           | inr cur =>
               match get (tree fs) cur with
               | Some (Dir es) =>
                   let n := last (tail p) "" in
                   if String.eqb n ".." then inr (Existing (removelast cur))
                   else match lookup n es with
                        | Some _ => inr (Existing (cur ++ [n]))
                        | None => inr (Missing cur n)
                        end
               | Some _ => inl NotADirectoryError
               | None => inl FileNotFoundError
               end
           end
       end.

(** [os.stat]: the node a path denotes. *)
Definition stat (fs : filesystem) (p : Path) : exn + node :=
  match locate fs p with
  | inl e => inl e
  | inr (Missing _ _) => inl FileNotFoundError
  | inr (Existing cp) =>
      match get (tree fs) cp with
      | Some v => inr v
      | None => inl FileNotFoundError
      end
  end.

(** [Path.exists], [Path.is_dir], [Path.is_file]: a failing [stat] is
    [False]. *)
Definition exists_ (fs : filesystem) (p : Path) : bool :=
  match stat fs p with inr _ => true | inl _ => false end.

Definition is_dir (fs : filesystem) (p : Path) : bool :=
  match stat fs p with inr (Dir _) => true | _ => false end.

Definition is_file (fs : filesystem) (p : Path) : bool :=
  match stat fs p with inr (File _) => true | _ => false end.

(** [Path.iterdir]: the children, in enumeration order. *)
Definition iterdir (fs : filesystem) (p : Path) : exn + list Path :=
  match stat fs p with
  | inl e => inl e
  | inr (Dir es) =>
      inr (map (fun e => mkPath (root p) (tail p ++ [fst e])) es)
  | inr _ => inl NotADirectoryError
  end.

Definition with_tree (fs : filesystem) (t : node) : filesystem :=
  mkFS t (cwd fs).

(** [Path.mkdir()] *)
Definition mkdir (fs : filesystem) (p : Path) : exn + filesystem :=
  match locate fs p with
  | inl e => inl e
  | inr (Existing _) => inl FileExistsError
  | inr (Missing d n) =>
      inr (with_tree fs
             (alter d (on_entries (add_entry n (Dir []))) (tree fs)))
  end.

(** [open(p, "wb")], [shutil.copyfileobj(stream, f)] and the close: the
    file holds exactly the bytes of the stream afterwards.  Writing to a
    special node is reported as an error. *)
Definition write_file (fs : filesystem) (p : Path) (data : list byte)
  : exn + filesystem :=
  match locate fs p with
  | inl e => inl e
  | inr (Missing d n) =>
      inr (with_tree fs
             (alter d (on_entries (add_entry n (File data))) (tree fs)))
  | inr (Existing cp) =>
      match get (tree fs) cp with
      | Some (File _) =>
          inr (with_tree fs (alter cp (fun _ => File data) (tree fs)))
      | Some (Dir _) => inl IsADirectoryError
      | Some Special => inl OSError_EINVAL
      | None => inl FileNotFoundError
      end
  end.

(** Take the entry at a canonical location out of its directory. *)
Definition detach (cp : list string) (t : node) : node :=
  alter (removelast cp) (on_entries (remove_entry (last cp ""))) t.

Definition is_empty_dir (v : node) : bool :=
  match v with Dir [] => true | _ => false end.

(** [os.rename(src, dst)] *)
Definition rename (fs : filesystem) (src dst : Path) : exn + filesystem :=
  match locate fs src with
  | inl e => inl e
  | inr (Missing _ _) => inl FileNotFoundError
  | inr (Existing cs) =>
      match get (tree fs) cs with
      | None => inl FileNotFoundError
      | Some v =>
          match locate fs dst with
          | inl e => inl e
          | inr (Missing d n) =>
              if is_prefix cs (d ++ [n]) then inl OSError_EINVAL
              else inr (with_tree fs
                     (alter d (on_entries (add_entry n v))
                        (detach cs (tree fs))))
          | inr (Existing cd) =>
              if list_eq_dec string_dec cs cd then inr fs
              else if is_prefix cs cd then inl OSError_EINVAL
              else
                match v, get (tree fs) cd with
                | Dir _, Some (Dir _ as w) =>
                    if is_empty_dir w
                    then inr (with_tree fs
                           (alter cd (fun _ => v) (detach cs (tree fs))))
                    else inl OSError_ENOTEMPTY
                | Dir _, Some _ => inl NotADirectoryError
                | _, Some (Dir _) => inl IsADirectoryError
                | _, Some _ =>
                    inr (with_tree fs
                           (alter cd (fun _ => v) (detach cs (tree fs))))
                | _, None => inl FileNotFoundError
                end
          end
      end
  end.

(** [Path.unlink()] *)
Definition unlink (fs : filesystem) (p : Path) : exn + filesystem :=
  match locate fs p with
  | inl e => inl e
  | inr (Missing _ _) => inl FileNotFoundError
  | inr (Existing cp) =>
      match get (tree fs) cp with
      | Some (Dir _) => inl IsADirectoryError
      | Some _ => inr (with_tree fs (detach cp (tree fs)))
      | None => inl FileNotFoundError
      end
  end.

(** [shutil.rmtree(p)]: the directory and everything below it. *)
Definition rmtree (fs : filesystem) (p : Path) : exn + filesystem :=
  match locate fs p with
  | inl e => inl e
  | inr (Missing _ _) => inl FileNotFoundError
  | inr (Existing cp) =>
      match get (tree fs) cp with
      | Some (Dir _) =>
          match cp with
          | [] => inl OSError_EINVAL
          | _ => inr (with_tree fs (detach cp (tree fs)))
          end
      | Some _ => inl NotADirectoryError
      | None => inl FileNotFoundError
      end
  end.

(** [os.path.samefile(src, dst)] where both exist. *)
Definition samefile (fs : filesystem) (src dst : Path) : bool :=
  match locate fs src, locate fs dst with
  | inr (Existing a), inr (Existing b) =>
      if list_eq_dec string_dec a b then true else false
  | _, _ => false
  end.

(** The names of all entries below a directory, as [rglob] of the pattern
    star walks them: the children of a directory, then the same for each of
    its sub-directories in turn.  Locations are relative to the directory. *)
Fixpoint descendants (t : node) : list (list string) :=
  match t with
  | Dir es =>
      map (fun e => [fst e]) es
      ++ flat_map (fun e => map (cons (fst e)) (descendants (snd e))) es
  | _ => []
  end.

(** [p.rglob(star)]; nothing when [p] is not a directory. *)
Definition rglob_all (fs : filesystem) (p : Path) : list Path :=
  match stat fs p with
  | inr (Dir es) =>
      map (fun rel => mkPath (root p) (tail p ++ rel)) (descendants (Dir es))
  | _ => []
  end.

(** [shutil.move(src, dst)].  The application moves entries of its file
    listing; for those the fallback after a failing [os.rename] (copy, then
    unlink) fails the way the rename did.  A directory source whose rename
    fails is reported with the rename's error: the tree copy of the fallback
    is not modelled. *)
Definition move (fs : filesystem) (src dst : Path) : exn + filesystem :=
  if is_dir fs dst && samefile fs src dst then rename fs src dst
  else
    let real_dst :=
      if is_dir fs dst then dst // PurePath.name src else dst in
    if is_dir fs dst && exists_ fs real_dst then inl ShutilError
    else
      match rename fs src real_dst with
      | inr fs' => inr fs'
      | inl e =>
          if negb (is_OSError e) || is_dir fs src then inl e
          else
            match stat fs src with
            | inr (File data) =>
                match write_file fs real_dst data with
                | inr fs1 => unlink fs1 src
                | inl e' => inl e'
                end
            | inr _ => inl e
            | inl e' => inl e'
            end
      end.

End OS.

(** ** The session and the script monad *)

(** What [st.warning], [st.error], [st.success] and [st.info] show. *)
Inductive message : Type :=
| warning_name_empty
| error_already_exists (new_name : string)
| success_renamed (new_name : string)
| error_renaming (e : exn)
| success_uploaded (count : nat)
| success_folder_created (folder_name : string)
| error_folder_exists (folder_name : string)
| info_folder_empty
| success_deleted_folder (name : string)
| success_moved (name : string) (dest_folder_rel : Path)
| success_deleted (name : string)
| error_occurred (e : exn).

Record session := mkSession {
  current_path : Path;        (* st.session_state.current_path *)
  fs : filesystem;
  shown : list message
}.

(** How a computation ends early: an exception, or the [BaseException] of
    [st.rerun()]. *)
Inductive signal : Type :=
| Raise (e : exn)
| Rerun.

Definition M (A : Type) : Type := session -> (signal + A) * session.

Definition ret {A} (a : A) : M A := fun s => (inr a, s).

Definition bind {A B} (c : M A) (k : A -> M B) : M B :=
  fun s => match c s with
           | (inr a, s') => k a s'
           | (inl sg, s') => (inl sg, s')
           end.

Notation "x <- c ;; k" := (bind c (fun x => k))
  (at level 61, c at next level, right associativity).
Notation "c ;; k" := (bind c (fun _ => k))
  (at level 61, right associativity).

Definition raise {A} (e : exn) : M A := fun s => (inl (Raise e), s).

(** [st.rerun()] *)
Definition st_rerun {A} : M A := fun s => (inl Rerun, s).

(** [try: c except Exception as e: h e] *)
Definition try_except {A} (c : M A) (h : exn -> M A) : M A :=
  fun s => match c s with
           | (inl (Raise e), s') => h e s'
           | r => r
           end.

Definition show (m : message) : M unit :=
  fun s => (inr tt, mkSession (current_path s) (fs s) (shown s ++ [m])).

Definition read {A} (f : filesystem -> A) : M A :=
  fun s => (inr (f (fs s)), s).

Definition get_current_path : M Path := fun s => (inr (current_path s), s).

Definition set_current_path (p : Path) : M unit :=
  fun s => (inr tt, mkSession p (fs s) (shown s)).

(** A call that reads the file system and may raise. *)
Definition query {A} (f : filesystem -> exn + A) : M A :=
  fun s => match f (fs s) with
           | inr a => (inr a, s)
           | inl e => (inl (Raise e), s)
           end.

(** A call that changes the file system, or raises and changes nothing. *)
Definition syscall (f : filesystem -> exn + filesystem) : M unit :=
  fun s => match f (fs s) with
           | inr fs' => (inr tt, mkSession (current_path s) fs' (shown s))
           | inl e => (inl (Raise e), s)
           end.

Definition of_option {A} (e : exn) (o : option A) : M A :=
  match o with Some a => ret a | None => raise e end.

(** [for x in l: body x] *)
Fixpoint for_each {A} (l : list A) (body : A -> M unit) : M unit :=
  match l with
  | [] => ret tt
  | x :: l' => body x ;; for_each l' body
  end.

(** ** Python's [sorted] and [dict] *)

Module Py.

Section Sorted.
Context {A : Type}.
Variable key : A -> string.

(** [sorted(l, key=key)] is the stable ascending sort: an element goes
    before the first element whose key is strictly greater. *)
Fixpoint insert (x : A) (l : list A) : list A :=
  match l with
  | [] => [x]
  | y :: l' =>
      if String.ltb (key x) (key y) then x :: y :: l'
      else y :: insert x l'
  end.

Definition sorted (l : list A) : list A :=
  fold_left (fun acc x => insert x acc) l [].

(** Ascending by key, and the elements of one key. *)
Definition key_le (a b : A) : Prop := String.leb (key a) (key b) = true.
Definition has_key (k : string) (a : A) : bool := String.eqb (key a) k.
End Sorted.

(** A dictionary keeps its keys in insertion order; assigning to a key that
    is present replaces the value in place. *)
Definition dict := list (Path * Path).

Fixpoint dict_set (k v : Path) (d : dict) : dict :=
  match d with
  | [] => [(k, v)]
  | (k', v') :: d' =>
      if PurePath.eqb k' k then (k', v) :: d' else (k', v') :: dict_set k v d'
  end.

Fixpoint dict_get (k : Path) (d : dict) : option Path :=
  match d with
  | [] => None
  | (k', v) :: d' => if PurePath.eqb k' k then Some v else dict_get k d'
  end.

Definition keys (d : dict) : list Path := map fst d.

End Py.

(** ** The script *)

(** [STORAGE_DIR = Path("file_storage")] *)
Definition STORAGE_DIR : Path := PurePath.parse "file_storage".

(** What the user did to trigger this run of the script. *)
Inductive event : Type :=
| NoEvent
| Upload (uploaded_files : list (string * list byte))
| CreateFolder (folder_name : string)
| Home
| Breadcrumb (i : nat)
| OpenFolder (folder : Path)
| RenameFolder (folder : Path) (new_name : string)
| DeleteFolder (folder : Path)
| MoveFile (file : Path) (dest_folder_rel : Path)
| RenameFile (file : Path) (new_name : string)
| DeleteFile (file : Path).

(** [STORAGE_DIR.mkdir(exist_ok=True)] *)
Definition mkdir_exist_ok (p : Path) : M unit :=
  try_except (syscall (fun fs => OS.mkdir fs p))
    (fun e =>
       match e with
       | FileNotFoundError => raise e
       | _ =>
           if is_OSError e then
             d <- read (fun fs => OS.is_dir fs p) ;;
             if d then ret tt else raise e
           else raise e
       end).

(** [get_all_folders(root_dir)] *)
Definition get_all_folders (root_dir : Path) : M (list Path) :=
  all <- read (fun fs => OS.rglob_all fs root_dir) ;;
  folders <- read (fun fs => filter (OS.is_dir fs) all) ;;
  ret ([STORAGE_DIR] ++ folders).

(** [handle_rename(old_path, new_name)] *)
Definition handle_rename (old_path : Path) (new_name : string) : M unit :=
  if negb (PyStr.truthy (PyStr.strip new_name)) then
    show warning_name_empty
  else
    let new_path := PurePath.parent old_path // PyStr.strip new_name in
    taken <- read (fun fs => OS.exists_ fs new_path) ;;
    if taken then show (error_already_exists new_name)
    else
      try_except
        (syscall (fun fs => OS.rename fs old_path new_path) ;;
         show (success_renamed new_name) ;;
         st_rerun)
        (fun e => show (error_renaming e)).

(** One uploaded file of the loop: [open(save_path, "wb")] and
    [shutil.copyfileobj(up_file, f)]. *)
Definition save_upload (up_file : string * list byte) : M unit :=
  cur <- get_current_path ;;
  let save_path := cur // fst up_file in
  syscall (fun fs => OS.write_file fs save_path (snd up_file)).

(** The upload expander; the button is disabled without files. *)
Definition upload (uploaded_files : list (string * list byte)) : M unit :=
  match uploaded_files with
  | [] => ret tt
  | _ :: _ =>
      for_each uploaded_files save_upload ;;
      show (success_uploaded (List.length uploaded_files)) ;;
      st_rerun
  end.

(** The form of the "Create New Folder" expander. *)
Definition new_folder_form (submitted : bool) (folder_name : string)
  : M unit :=
  if submitted && PyStr.truthy folder_name then
    cur <- get_current_path ;;
    let new_folder_path := cur // folder_name in
    taken <- read (fun fs => OS.exists_ fs new_folder_path) ;;
    if negb taken then
      syscall (fun fs => OS.mkdir fs new_folder_path) ;;
      show (success_folder_created folder_name) ;;
      st_rerun
    else show (error_folder_exists folder_name)
  else ret tt.

Definition sidebar (ev : event) : M unit :=
  match ev with
  | Upload uploaded_files => upload uploaded_files
  | CreateFolder folder_name => new_folder_form true folder_name
  | _ => ret tt
  end.

(** The Home button. *)
Definition home_button (clicked : bool) : M unit :=
  if clicked then set_current_path STORAGE_DIR ;; st_rerun else ret tt.

(** The breadcrumb row: every part but the last is a button. *)
Definition breadcrumbs (clicked : option nat) : M unit :=
  cur <- get_current_path ;;
  rel <- of_option ValueError (PurePath.relative_to cur STORAGE_DIR) ;;
  let path_parts := PurePath.parts rel in
  for_each (seq 0 (List.length path_parts))
    (fun i =>
       if (i <? List.length path_parts - 1)%nat then
         match clicked with
         | Some j =>
             if (i =? j)%nat then
               set_current_path
                 (PurePath.joinpath_all STORAGE_DIR
                    (firstn (i + 1) path_parts)) ;;
               st_rerun
             else ret tt
         | None => ret tt
         end
       else ret tt).

Definition header (ev : event) : M unit :=
  home_button (match ev with Home => true | _ => false end) ;;
  breadcrumbs (match ev with Breadcrumb i => Some i | _ => None end).

(** The first three statements of the listing: the entries of a folder,
    split and sorted. *)
Definition list_dir (folder : Path) : M (list Path * list Path) :=
  items <- query (fun fs => OS.iterdir fs folder) ;;
  folders <- read (fun fs =>
    Py.sorted (fun i => PyStr.lower (PurePath.name i))
      (filter (OS.is_dir fs) items)) ;;
  files <- read (fun fs =>
    Py.sorted (fun i => PyStr.lower (PurePath.name i))
      (filter (OS.is_file fs) items)) ;;
  ret (folders, files).

(** One row of the folder loop: the button that opens the folder, the
    rename form and the delete button. *)
Definition folder_row (ev : event) (folder : Path) : M unit :=
  match ev with
  | OpenFolder f =>
      if PurePath.eqb f folder then set_current_path folder ;; st_rerun
      else ret tt
  | RenameFolder f new_name =>
      if PurePath.eqb f folder then handle_rename folder new_name
      else ret tt
  | DeleteFolder f =>
      if PurePath.eqb f folder then
        syscall (fun fs => OS.rmtree fs folder) ;;
        show (success_deleted_folder (PurePath.name folder)) ;;
        st_rerun
      else ret tt
  | _ => ret tt
  end.

(** The choices of the move form:
    [{f.relative_to(STORAGE_DIR): f for f in all_folders if f != file.parent}] *)
Definition destinations (file : Path) (all_folders : list Path) : list Path :=
  filter (fun f => negb (PurePath.eqb f (PurePath.parent file))) all_folders.

Fixpoint options_of (fs : list Path) (d : Py.dict) : M Py.dict :=
  match fs with
  | [] => ret d
  | f :: fs' =>
      k <- of_option ValueError (PurePath.relative_to f STORAGE_DIR) ;;
      options_of fs' (Py.dict_set k f d)
  end.

Definition folder_options (file : Path) : M Py.dict :=
  all_folders <- get_all_folders STORAGE_DIR ;;
  options_of (destinations file all_folders) [].

(** The move form of a file; [submitted] carries the chosen key. *)
Definition move_form (file : Path) (submitted : option Path) : M unit :=
  options <- folder_options file ;;
  match submitted with
  | Some dest_folder_rel =>
      destination_path <-
        of_option KeyError (Py.dict_get dest_folder_rel options) ;;
      syscall (fun fs => OS.move fs file destination_path) ;;
      show (success_moved (PurePath.name file) dest_folder_rel) ;;
      st_rerun
  | None => ret tt
  end.

(** One row of the file loop: [file.stat()], the move form, the rename
    form and the delete button.  The download button reads the file that
    [stat] has just found. *)
Definition file_row (ev : event) (file : Path) : M unit :=
  _ <- query (fun fs => OS.stat fs file) ;;
  move_form file
    (match ev with
     | MoveFile f dest_folder_rel =>
         if PurePath.eqb f file then Some dest_folder_rel else None
     | _ => None
     end) ;;
  match ev with
  | RenameFile f new_name =>
      if PurePath.eqb f file then handle_rename file new_name else ret tt
  | DeleteFile f =>
      if PurePath.eqb f file then
        syscall (fun fs => OS.unlink fs file) ;;
        show (success_deleted (PurePath.name file)) ;;
        st_rerun
      else ret tt
  | _ => ret tt
  end.

(** The listing, inside its [try] with [except Exception]. *)
Definition listing (ev : event) : M unit :=
  try_except
    (cur <- get_current_path ;;
     l <- list_dir cur ;;
     let (folders, files) := l in
     (match folders, files with
      | [], [] => show info_folder_empty
      | _, _ => ret tt
      end) ;;
     for_each folders (folder_row ev) ;;
     for_each files (file_row ev))
    (fun e => show (error_occurred e)).

(** One run of the script, top to bottom. *)
Definition script (ev : event) : M unit :=
  mkdir_exist_ok STORAGE_DIR ;;
  sidebar ev ;;
  header ev ;;
  listing ev.

(** A session starts at the storage root. *)
Definition initial_session (fs0 : filesystem) : session :=
  mkSession STORAGE_DIR fs0 [].

(** ** Notions used to state the properties *)

(** A name an entry of a directory can have: not empty, not ["."] or
    [".."], without a slash and without NUL. *)
Definition valid_name (n : string) : bool :=
  PyStr.truthy n
  && negb (String.eqb n ".")
  && negb (String.eqb n "..")
  && negb (PyStr.contains_char "/" n)
  && negb (PyStr.has_nul n).

(** The sort key of the listing. *)
Definition name_key (i : Path) : string := PyStr.lower (PurePath.name i).

(** Where [STORAGE_DIR] lies in the tree. *)
Definition storage_root (fs : filesystem) : list string :=
  cwd fs ++ tail STORAGE_DIR.

(** A location is within the storage root when the root's location is a
    prefix of it. *)
Definition within_root (fs : filesystem) (cp : list string) : Prop :=
  OS.is_prefix (storage_root fs) cp = true.

Definition location_path (l : OS.location) : list string :=
  match l with
  | OS.Existing cp => cp
  | OS.Missing d n => d ++ [n]
  end.

(** A folder below [STORAGE_DIR], named by its location relative to it. *)
Definition below_storage (rel : list string) : Path :=
  mkPath (root STORAGE_DIR) (tail STORAGE_DIR ++ rel).

(** One step of the dictionary comprehension of the move form, for the
    folder at [rel] below the storage root: the key is the relative path. *)
Definition option_step (d : Py.dict) (rel : list string) : Py.dict :=
  Py.dict_set (mkPath "" rel) (below_storage rel) d.

(** The session in which the next run of the script starts: the messages
    of the finished run are gone. *)
Definition after (ev : event) (s : session) : session :=
  let s' := snd (script ev s) in
  mkSession (current_path s') (fs s') [].

(** ** Example file systems *)

Definition bytes (s : string) : list byte := list_byte_of_string s.

(** The process runs in [/srv]; the store holds [a.txt] and a folder
    [Docs] with an [a.txt] of its own. *)
Definition fs_docs : filesystem :=
  mkFS (Dir [("srv", Dir [("file_storage",
          Dir [("a.txt", File (bytes "new"));
               ("Docs", Dir [("a.txt", File (bytes "old"))])])])])
       ["srv"].

(** Two folders whose names differ in case only, [b] enumerated first. *)
Definition fs_case : filesystem :=
  mkFS (Dir [("srv", Dir [("file_storage",
          Dir [("b", Dir []); ("B", Dir [])])])])
       ["srv"].

(** A file [x] beside a folder whose name starts with a space. *)
Definition fs_space : filesystem :=
  mkFS (Dir [("srv", Dir [("file_storage",
          Dir [("x", File (bytes "1")); (" a", Dir [])])])])
       ["srv"].

(** A store with a FIFO beside a folder and a file. *)
Definition fs_fifo : filesystem :=
  mkFS (Dir [("srv", Dir [("file_storage",
          Dir [("pipe", Special); ("Docs", Dir []);
               ("a.txt", File (bytes "hi"))])])])
       ["srv"].

(** An empty store. *)
Definition fs_empty : filesystem :=
  mkFS (Dir [("srv", Dir [("file_storage", Dir [])])]) ["srv"].

(** ** Notions used for the rows of the listing and for navigation *)

(** The folder, or the file, whose row the event belongs to. *)
Definition folder_target (ev : event) : option Path :=
  match ev with
  | OpenFolder f | RenameFolder f _ | DeleteFolder f => Some f
  | _ => None
  end.

Definition file_target (ev : event) : option Path :=
  match ev with
  | MoveFile f _ | RenameFile f _ | DeleteFile f => Some f
  | _ => None
  end.

(** The events that only look or navigate. *)
Definition is_navigation (ev : event) : bool :=
  match ev with
  | NoEvent | Home | Breadcrumb _ | OpenFolder _ => true
  | _ => false
  end.

(** A computation that leaves one component of the session (the file
    system, or the current directory) as it is, however it ends. *)
Definition keeps {A X} (proj : session -> X) (c : M A) : Prop :=
  forall s, proj (snd (c s)) = proj s.

(** Every entry of every directory has a valid name, as in a real file
    system. *)
Definition names_valid (t : node) : Prop :=
  forall cb es n c,
    OS.get t cb = Some (Dir es) -> In (n, c) es -> valid_name n = true.

(** The same, as a check that computes. *)
Fixpoint names_ok (t : node) : bool :=
  match t with
  | Dir es => forallb (fun e => valid_name (fst e) && names_ok (snd e)) es
  | _ => true
  end.

(** The current directory is a folder below the storage root, named by
    valid components. *)
Definition below_root (p : Path) : Prop :=
  exists rel,
    p = below_storage rel /\ Forall (fun n => valid_name n = true) rel.

(** What the listing shows before its rows. *)
Definition empty_notice (folders files : list Path) : list message :=
  match folders, files with
  | [], [] => [info_folder_empty]
  | _, _ => []
  end.

(** A session with more messages shown. *)
Definition showing (s : session) (ms : list message) : session :=
  mkSession (current_path s) (fs s) (shown s ++ ms).

(** How the listing ends when one of its rows ends early: a rerun goes
    through, an exception is caught and shown. *)
Definition listing_outcome (sg : signal) (s' : session)
  : (signal + unit) * session :=
  match sg with
  | Rerun => (inl Rerun, s')
  | Raise e => (inr tt, showing s' [error_occurred e])
  end.

(** A string of white space only (the empty string included). *)
Fixpoint all_space (s : string) : bool :=
  match s with
  | EmptyString => true
  | String c s' => PyStr.is_space c && all_space s'
  end.

(** Two nodes of the same kind; files with the same content. *)
Definition same_kind (v w : node) : Prop :=
  match v, w with
  | File d, File d' => d = d'
  | Dir _, Dir _ => True
  | Special, Special => True
  | _, _ => False
  end.



(** A store with folders three levels deep. *)
Definition fs_nested : filesystem :=
  mkFS (Dir [("srv", Dir [("file_storage",
          Dir [("A", Dir [("B", Dir [("C", Dir []);
                                     ("n.txt", File (bytes "n"))])]);
               ("r.txt", File (bytes "r"))])])])
       ["srv"].

(** ** The helpers of the file rows *)

(** [s.rfind(".")]; [None] stands for the result -1. *)
Fixpoint rfind_dot (s : string) : option nat :=
  match s with
  | EmptyString => None
  | String c s' =>
      match rfind_dot s' with
      | Some i => Some (S i)
      | None => if Ascii.eqb c "."%char then Some 0 else None
      end
  end.

(** [p.suffix] (as in CPython up to 3.12): the name from its last dot on,
    unless that dot is the first or the last character of the name. *)
Definition suffix (p : Path) : string :=
  let name := PurePath.name p in
  match rfind_dot name with
  | Some i =>
      if ((0 <? i) && (i <? String.length name - 1))%nat
      then substring i (String.length name - i) name
      else EmptyString
  | None => EmptyString
  end.

(** The emoji of [icon_map], and the one returned for everything else. *)
Inductive icon : Type :=
| page_facing_up | memo | spiral_notepad | bar_chart | chart_increasing
| framed_picture | package | snake | musical_note | headphone
| clapper_board | white_question_mark.

Definition icon_map : list (string * icon) :=
  [(".pdf", page_facing_up); (".docx", memo); (".txt", spiral_notepad);
   (".xlsx", bar_chart); (".csv", chart_increasing);
   (".png", framed_picture); (".jpg", framed_picture);
   (".jpeg", framed_picture); (".gif", framed_picture);
   (".zip", package); (".py", snake); (".mp3", musical_note);
   (".wav", headphone); (".mp4", clapper_board)].

(** [d.get(k)] on a dictionary with string keys. *)
Fixpoint dict_lookup {V} (k : string) (d : list (string * V)) : option V :=
  match d with
  | [] => None
  | (k', v) :: d' => if String.eqb k' k then Some v else dict_lookup k d'
  end.

(** [get_file_icon(file_path)] *)
Definition get_file_icon (file_path : Path) : icon :=
  let extension := PyStr.lower (suffix file_path) in
  match dict_lookup extension icon_map with
  | Some i => i
  | None => white_question_mark
  end.

(** [power_labels] of [format_bytes]; the keys are the numbers 0 to 4. *)
Definition power_labels : list (nat * string) :=
  [(0, "B"); (1, "KB"); (2, "MB"); (3, "GB"); (4, "TB")]%nat.

(** [power_labels[n]]; [None] stands for the [KeyError]. *)
Fixpoint label_of (n : nat) (d : list (nat * string)) : option string :=
  match d with
  | [] => None
  | (k, l) :: d' => if (k =? n)%nat then Some l else label_of n d'
  end.

(** What [format_bytes] returns: the text "N/A", or a number, which the
    f-string prints with two decimals, followed by a label. *)
Inductive formatted : Type :=
| not_available
| amount (size : Q) (label : string).

(** The loop of [format_bytes]: divide by [power = 1024] while
    [size >= power and n < len(power_labels) - 1].  The second condition
    bounds the number of rounds by [len(power_labels) - 1], which is the
    fuel.  [size] is a float from the first division on; dividing by 1024
    is exact in binary floating point, and so is the first division for
    every size below 2^53, so the model computes with the exact quotient. *)
Fixpoint format_bytes_loop (fuel : nat) (size : Q) (n : nat) : Q * nat :=
  match fuel with
  | O => (size, n)
  | S fuel' =>
      if Qle_bool 1024 size && (n <? List.length power_labels - 1)%nat
      then format_bytes_loop fuel' (size / 1024)%Q (S n)
      else (size, n)
  end.

(** [format_bytes(size)] *)
Definition format_bytes (size : option Z) : exn + formatted :=
  match size with
  | None => inr not_available
  | Some z =>
      let (v, n) :=
        format_bytes_loop (List.length power_labels - 1) (inject_Z z) 0 in
      match label_of n power_labels with
      | Some l => inr (amount v l)
      | None => inl KeyError
      end
  end.
(** * Properties *)

Example parse_keeps_dotdot :
  PurePath.parse "a/./b//../c" = mkPath "" ["a"; "b"; ".."; "c"].
Proof. reflexivity. Qed.

Example strip_example : PyStr.strip "  a b	 " = "a b".
Proof. reflexivity. Qed.

Example lower_example : PyStr.lower "ReadMe.TXT" = "readme.txt".
Proof. reflexivity. Qed.

Example sorted_is_stable :
  Py.sorted PyStr.lower ["b"; "A"; "B"; "a"] = ["A"; "a"; "b"; "B"].
Proof. reflexivity. Qed.

(** The scenario of the specification: create "Docs", upload "a.txt" into
    it, rename the folder, go home and open the renamed folder. *)
Example scenario_docs :
  let s1 := after (CreateFolder "Docs") (initial_session fs_empty) in
  let s2 := after (OpenFolder (STORAGE_DIR // "Docs")) s1 in
  let s3 := after (Upload [("a.txt", bytes "hi")]) s2 in
  let s4 := after Home s3 in
  let s5 := after (RenameFolder (STORAGE_DIR // "Docs") "Docs2") s4 in
  let s6 := after (OpenFolder (STORAGE_DIR // "Docs2")) s5 in
  fst (list_dir (STORAGE_DIR // "Docs") s3)
  = inr ([], [STORAGE_DIR // "Docs" // "a.txt"])
  /\ current_path s6 = STORAGE_DIR // "Docs2"
  /\ fst (list_dir (current_path s6) s6)
     = inr ([], [STORAGE_DIR // "Docs2" // "a.txt"])
  /\ OS.stat (fs s6) (STORAGE_DIR // "Docs2" // "a.txt")
     = inr (File (bytes "hi"))
  /\ OS.exists_ (fs s6) (STORAGE_DIR // "Docs") = false.
Proof. vm_compute. repeat split. Qed.

(** Deleting a folder removes its subtree; deleting a file removes it. *)
Example scenario_delete :
  let s1 := after (DeleteFolder (STORAGE_DIR // "Docs"))
              (initial_session fs_docs) in
  let s2 := after (DeleteFile (STORAGE_DIR // "a.txt")) s1 in
  OS.exists_ (fs s1) (STORAGE_DIR // "Docs" // "a.txt") = false
  /\ tree (fs s2) = tree fs_empty.
Proof. vm_compute. repeat split. Qed.

(** ** The order on strings *)

Module StrOrder.

Lemma ascii_compare_refl (a : ascii) : Ascii.compare a a = Eq.
Proof. unfold Ascii.compare. apply N.compare_refl. Qed.

Lemma ascii_compare_lt_trans (a b c : ascii) :
  Ascii.compare a b = Lt -> Ascii.compare b c = Lt -> Ascii.compare a c = Lt.
Proof.
  unfold Ascii.compare. rewrite !N.compare_lt_iff. apply N.lt_trans.
Qed.

Lemma compare_refl (s : string) : String.compare s s = Eq.
Proof.
  induction s as [|a s IH]; simpl; [reflexivity|].
  now rewrite ascii_compare_refl.
Qed.

Lemma compare_lt_trans (a b c : string) :
  String.compare a b = Lt -> String.compare b c = Lt ->
  String.compare a c = Lt.
Proof.
  revert b c. induction a as [|x a IH]; intros [|y b] [|z c]; simpl;
    try discriminate; auto.
  destruct (Ascii.compare x y) eqn:Hxy; try discriminate;
    destruct (Ascii.compare y z) eqn:Hyz; try discriminate; intros H1 H2.
  - apply Ascii.compare_eq_iff in Hxy, Hyz. subst.
    rewrite ascii_compare_refl. eauto.
  - apply Ascii.compare_eq_iff in Hxy. subst. now rewrite Hyz.
  - apply Ascii.compare_eq_iff in Hyz. subst. now rewrite Hxy.
  - now rewrite (ascii_compare_lt_trans _ _ _ Hxy Hyz).
Qed.

Lemma ltb_irrefl (a : string) : String.ltb a a = false.
Proof. unfold String.ltb. now rewrite compare_refl. Qed.

Lemma leb_refl (a : string) : String.leb a a = true.
Proof. unfold String.leb. now rewrite compare_refl. Qed.

Lemma leb_cases (a b : string) :
  String.leb a b = true -> String.ltb a b = true \/ a = b.
Proof.
  unfold String.leb, String.ltb.
  destruct (String.compare a b) eqn:H; try discriminate; intros _.
  - right. now apply String.compare_eq_iff.
  - now left.
Qed.

Lemma ltb_leb (a b : string) : String.ltb a b = true -> String.leb a b = true.
Proof.
  unfold String.leb, String.ltb.
  destruct (String.compare a b); intros; congruence.
Qed.

Lemma ltb_trans (a b c : string) :
  String.ltb a b = true -> String.ltb b c = true -> String.ltb a c = true.
Proof.
  unfold String.ltb. intros H1 H2.
  destruct (String.compare a b) eqn:Hab; try discriminate.
  destruct (String.compare b c) eqn:Hbc; try discriminate.
  now rewrite (compare_lt_trans _ _ _ Hab Hbc).
Qed.

Lemma ltb_leb_trans (a b c : string) :
  String.ltb a b = true -> String.leb b c = true -> String.ltb a c = true.
Proof.
  intros H1 H2. destruct (leb_cases _ _ H2) as [H|H].
  - eapply ltb_trans; eauto.
  - now subst.
Qed.

Lemma leb_trans (a b c : string) :
  String.leb a b = true -> String.leb b c = true -> String.leb a c = true.
Proof.
  intros H1 H2. destruct (leb_cases _ _ H1) as [H|H].
  - apply ltb_leb. eapply ltb_leb_trans; eauto.
  - now subst.
Qed.

(** The negation of [<] is [>=]. *)
Lemma nlt_ge (a b : string) : String.ltb a b = false -> String.leb b a = true.
Proof.
  unfold String.ltb, String.leb. rewrite (String.compare_antisym b a).
  destruct (String.compare a b); simpl; congruence.
Qed.

End StrOrder.

(** ** [sorted]: a stable sort by key *)

Section SortedFacts.
Context {A : Type}.
Variable key : A -> string.

Abbreviation key_le := (Py.key_le key).
Abbreviation has_key := (Py.has_key key).

Lemma insert_perm x l : Permutation (Py.insert key x l) (x :: l).
Proof.
  induction l as [|y l IH]; simpl; [reflexivity|].
  destruct (String.ltb (key x) (key y)); [reflexivity|].
  rewrite IH. apply perm_swap.
Qed.

Lemma sorted_snoc l x :
  Py.sorted key (l ++ [x]) = Py.insert key x (Py.sorted key l).
Proof. unfold Py.sorted. now rewrite fold_left_app. Qed.

Lemma sorted_perm l : Permutation (Py.sorted key l) l.
Proof.
  induction l as [|x l IH] using rev_ind; [reflexivity|].
  rewrite sorted_snoc, insert_perm, IH.
  apply Permutation_cons_append.
Qed.

Lemma sorted_In l a : In a (Py.sorted key l) <-> In a l.
Proof.
  split; apply Permutation_in;
    [apply sorted_perm | apply Permutation_sym, sorted_perm].
Qed.

Lemma insert_sorted x l :
  StronglySorted key_le l -> StronglySorted key_le (Py.insert key x l).
Proof.
  induction 1 as [|y l Hl IH Hy]; simpl.
  - repeat constructor.
  - destruct (String.ltb (key x) (key y)) eqn:Hxy.
    + constructor; [now constructor|].
      constructor; [now apply StrOrder.ltb_leb|].
      eapply Forall_impl; [|exact Hy].
      intros z Hz. unfold key_le in *.
      eapply StrOrder.leb_trans; [apply StrOrder.ltb_leb|]; eassumption.
    + constructor; [exact IH|].
      eapply Permutation_Forall;
        [apply Permutation_sym, insert_perm|].
      constructor; [now apply StrOrder.nlt_ge | exact Hy].
Qed.

Lemma sorted_sorted l : StronglySorted key_le (Py.sorted key l).
Proof.
  induction l as [|x l IH] using rev_ind; [constructor|].
  rewrite sorted_snoc. now apply insert_sorted.
Qed.

Lemma filter_above k l :
  Forall (fun z => String.ltb k (key z) = true) l ->
  filter (has_key k) l = [].
Proof.
  induction 1 as [|z l Hz _ IH]; simpl; [reflexivity|].
  unfold has_key at 1. destruct (String.eqb_spec (key z) k) as [E|_];
    [|exact IH].
  rewrite E, StrOrder.ltb_irrefl in Hz. discriminate.
Qed.

(** Inserting into a sorted list puts the element behind every element
    of the same key. *)
Lemma insert_stable k x l :
  StronglySorted key_le l ->
  filter (has_key k) (Py.insert key x l) = filter (has_key k) (l ++ [x]).
Proof.
  induction 1 as [|y l Hl IH Hy]; [reflexivity|].
  cbn [Py.insert]. destruct (String.ltb (key x) (key y)) eqn:Hxy.
  - rewrite filter_app.
    change (filter (has_key k) (x :: y :: l))
      with (if has_key k x then x :: filter (has_key k) (y :: l)
            else filter (has_key k) (y :: l)).
    change (filter (has_key k) [x])
      with (if has_key k x then [x] else []).
    destruct (has_key k x) eqn:E.
    + rewrite filter_above; [reflexivity|].
      apply String.eqb_eq in E. subst k. constructor; [exact Hxy|].
      eapply Forall_impl; [|exact Hy]. intros z Hz.
      eapply StrOrder.ltb_leb_trans; eassumption.
    + now rewrite app_nil_r.
  - change (filter (has_key k) (y :: Py.insert key x l))
      with (if has_key k y then y :: filter (has_key k) (Py.insert key x l)
            else filter (has_key k) (Py.insert key x l)).
    rewrite IH. reflexivity.
Qed.

(** Elements of equal key keep the order they had in the input. *)
Lemma sorted_stable k l :
  filter (has_key k) (Py.sorted key l) = filter (has_key k) l.
Proof.
  induction l as [|x l IH] using rev_ind; [reflexivity|].
  rewrite sorted_snoc, insert_stable by apply sorted_sorted.
  now rewrite !filter_app, IH.
Qed.
End SortedFacts.

(** ** Names and paths *)

Lemma split_slash_without_slash (n : string) :
  PyStr.contains_char "/" n = false -> PyStr.split_slash n = [n].
Proof.
  induction n as [|c n IH]; simpl; [reflexivity|].
  destruct (Ascii.eqb c "/"); simpl; [discriminate|].
  intros H. now rewrite (IH H).
Qed.

Lemma splitroot_without_slash (n : string) :
  PyStr.contains_char "/" n = false -> PurePath.splitroot n = ("", n).
Proof.
  destruct n as [|c n]; [reflexivity|]. simpl.
  destruct (Ascii.eqb_spec c "/") as [->|Hc]; simpl; [discriminate|].
  intros _. unfold PurePath.splitroot.
  destruct c as [[] [] [] [] [] [] [] []]; try reflexivity.
  now elim Hc.
Qed.

Lemma valid_name_inv (n : string) :
  valid_name n = true ->
  n <> "" /\ n <> "." /\ n <> ".."
  /\ PyStr.contains_char "/" n = false /\ PyStr.has_nul n = false.
Proof.
  unfold valid_name. rewrite !andb_true_iff, !negb_true_iff.
  intros [[[[H1 H2] H3] H4] H5].
  apply String.eqb_neq in H2, H3.
  repeat split; auto. intros ->. discriminate.
Qed.

Lemma parse_valid_name (n : string) :
  valid_name n = true -> PurePath.parse n = mkPath "" [n].
Proof.
  intros H. destruct (valid_name_inv _ H) as (H1 & H2 & _ & H4 & _).
  unfold PurePath.parse.
  rewrite (splitroot_without_slash _ H4), (split_slash_without_slash _ H4).
  simpl. unfold PurePath.keep_component.
  apply String.eqb_neq in H1, H2. now rewrite H1, H2.
Qed.

(** Joining a valid name appends one component. *)
Lemma joinpath_valid_name (p : Path) (n : string) :
  valid_name n = true -> p // n = mkPath (root p) (tail p ++ [n]).
Proof.
  intros H. unfold PurePath.joinpath. now rewrite (parse_valid_name _ H).
Qed.

Lemma path_eqb_eq (p q : Path) : PurePath.eqb p q = true <-> p = q.
Proof.
  unfold PurePath.eqb. destruct p as [r t], q as [r' t']; simpl.
  rewrite andb_true_iff, String.eqb_eq.
  destruct (list_eq_dec string_dec t t'); split.
  - intros [-> _]. now subst.
  - intros [= -> _]. auto.
  - intros [_ H]. discriminate.
  - intros [= _ H]. contradiction.
Qed.

Lemma path_eqb_refl (p : Path) : PurePath.eqb p p = true.
Proof. now apply path_eqb_eq. Qed.

Lemma path_eqb_neq (p q : Path) : PurePath.eqb p q = false <-> p <> q.
Proof.
  rewrite <- path_eqb_eq. destruct (PurePath.eqb p q); split; congruence.
Qed.

(** ** Locations in the tree *)

Lemma lookup_In (n : string) (es : OS.entries_t) (c : node) :
  OS.lookup n es = Some c -> In (n, c) es.
Proof.
  induction es as [|[m d] es IH]; simpl; [discriminate|].
  destruct (String.eqb_spec m n) as [->|_].
  - intros [= ->]. now left.
  - intros H. right. auto.
Qed.

Lemma get_app (t : node) (a b : list string) :
  OS.get t (a ++ b) =
  match OS.get t a with Some x => OS.get x b | None => None end.
Proof.
  revert t. induction a as [|n a IH]; intros t; simpl; [reflexivity|].
  destruct t as [| es |]; try reflexivity.
  destruct (OS.lookup n es); [apply IH | reflexivity].
Qed.

Lemma get_snoc (t : node) (a : list string) (n : string) es :
  OS.get t a = Some (Dir es) -> OS.get t (a ++ [n]) = OS.lookup n es.
Proof.
  intros H. rewrite get_app, H. simpl. now destruct (OS.lookup n es).
Qed.

Lemma walk_app (t : node) (cur ps qs : list string) :
  OS.walk t cur (ps ++ qs) =
  match OS.walk t cur ps with
  | inr c => OS.walk t c qs
  | inl e => inl e
  end.
Proof.
  revert cur. induction ps as [|p ps IH]; intros cur; simpl; [reflexivity|].
  destruct (OS.get t cur) as [[| es |]|]; try reflexivity.
  destruct (String.eqb p ".."); [apply IH|].
  destruct (OS.lookup p es); [apply IH | reflexivity].
Qed.

(** Along valid names a walk is a descent in the tree. *)
Lemma walk_valid (t : node) (ps cur : list string) (v : node) :
  Forall (fun n => valid_name n = true) ps ->
  OS.get t (cur ++ ps) = Some v ->
  OS.walk t cur ps = inr (cur ++ ps).
Proof.
  intros Hps. revert cur.
  induction Hps as [|p ps Hp _ IH]; intros cur Hget; simpl.
  - now rewrite app_nil_r.
  - destruct (valid_name_inv _ Hp) as (_ & _ & Hdd & _).
    rewrite get_app in Hget.
    destruct (OS.get t cur) as [[| es |]|] eqn:Hcur; try discriminate.
    apply String.eqb_neq in Hdd. rewrite Hdd.
    simpl in Hget. destruct (OS.lookup p es) as [c|] eqn:Hp'; [|discriminate].
    change (p :: ps) with ([p] ++ ps). rewrite app_assoc.
    apply IH. rewrite <- app_assoc, get_app, Hcur. simpl. now rewrite Hp'.
Qed.

Lemma has_nul_valid (ps : list string) :
  Forall (fun n => valid_name n = true) ps ->
  existsb PyStr.has_nul ps = false.
Proof.
  induction 1 as [|p ps Hp _ IH]; simpl; [reflexivity|].
  destruct (valid_name_inv _ Hp) as (_ & _ & _ & _ & H). now rewrite H.
Qed.

(** The node a path of valid names denotes. *)
Lemma stat_valid (fs : filesystem) (p : Path) (v : node) :
  Forall (fun n => valid_name n = true) (tail p) ->
  OS.get (tree fs) (OS.start fs p ++ tail p) = Some v ->
  OS.stat fs p = inr v.
Proof.
  intros Hv Hget. unfold OS.stat, OS.locate.
  rewrite (has_nul_valid _ Hv).
  destruct (tail p) as [|a l].
  - rewrite app_nil_r in Hget. now rewrite Hget.
  - assert (Hne : a :: l <> []) by discriminate.
    destruct (exists_last Hne) as (ini & n & E). rewrite E in *.
    rewrite removelast_last, last_last.
    apply Forall_app in Hv. destruct Hv as [Hini Hn].
    inversion Hn as [|? ? Hn' _]; subst.
    rewrite app_assoc in Hget.
    pose proof Hget as Hget'. rewrite get_app in Hget'.
    destruct (OS.get (tree fs) (OS.start fs p ++ ini)) as [x|] eqn:Hx;
      [|discriminate].
    rewrite (walk_valid _ _ _ _ Hini Hx), Hx.
    destruct x as [| es |]; simpl in Hget'; try discriminate.
    destruct (valid_name_inv _ Hn') as (_ & _ & Hdd & _).
    apply String.eqb_neq in Hdd. rewrite Hdd.
    destruct (OS.lookup n es); [|discriminate].
    now rewrite Hget.
Qed.

Lemma locate_no_nul (fs : filesystem) (p : Path) (l : OS.location) :
  OS.locate fs p = inr l -> existsb PyStr.has_nul (tail p) = false.
Proof.
  unfold OS.locate. destruct (existsb PyStr.has_nul (tail p));
    [discriminate | reflexivity].
Qed.

(** A path that denotes an existing node can be walked to it. *)
Lemma locate_existing_walk (fs : filesystem) (p : Path) (cb : list string) :
  OS.locate fs p = inr (OS.Existing cb) ->
  OS.walk (tree fs) (OS.start fs p) (tail p) = inr cb.
Proof.
  unfold OS.locate. destruct (existsb PyStr.has_nul (tail p)); [discriminate|].
  destruct (tail p) as [|a l]; [now intros [= ->]|].
  assert (Hne : a :: l <> []) by discriminate.
  destruct (exists_last Hne) as (ini & m & E). rewrite E.
  rewrite removelast_last, last_last, walk_app.
  destruct (OS.walk (tree fs) (OS.start fs p) ini) as [e|cur];
    [discriminate|].
  simpl. destruct (OS.get (tree fs) cur) as [[| es |]|]; try discriminate.
  destruct (String.eqb m ".."); [now intros [= ->]|].
  destruct (OS.lookup m es); [now intros [= ->] | discriminate].
Qed.

(** What a valid name denotes below an existing directory. *)
Lemma locate_child (fs : filesystem) (p : Path) (cb : list string)
      (es : OS.entries_t) (n : string) :
  OS.locate fs p = inr (OS.Existing cb) ->
  OS.get (tree fs) cb = Some (Dir es) ->
  valid_name n = true ->
  OS.locate fs (mkPath (root p) (tail p ++ [n])) =
  inr (match OS.lookup n es with
       | Some _ => OS.Existing (cb ++ [n])
       | None => OS.Missing cb n
       end).
Proof.
  intros Hloc Hget Hn.
  destruct (valid_name_inv _ Hn) as (_ & _ & Hdd & _ & Hnul).
  pose proof (locate_existing_walk _ _ _ Hloc) as Hwalk.
  unfold OS.locate. cbn [tail root].
  rewrite existsb_app, (locate_no_nul _ _ _ Hloc). cbn [existsb].
  rewrite Hnul. cbn [orb].
  destruct (tail p ++ [n]) as [|a l] eqn:E;
    [apply app_eq_nil in E; destruct E; discriminate|].
  rewrite <- E, removelast_last, last_last.
  change (OS.start fs {| root := root p; tail := tail p ++ [n] |})
    with (OS.start fs p).
  rewrite Hwalk, Hget.
  apply String.eqb_neq in Hdd. rewrite Hdd.
  now destruct (OS.lookup n es).
Qed.

Lemma stat_existing (fs : filesystem) (p : Path) cp v :
  OS.locate fs p = inr (OS.Existing cp) ->
  OS.get (tree fs) cp = Some v ->
  OS.stat fs p = inr v.
Proof. intros H1 H2. unfold OS.stat. now rewrite H1, H2. Qed.

Lemma snoc_cases {A} (l : list A) :
  l = [] \/ exists ini m, l = ini ++ [m].
Proof.
  destruct l as [|a l]; [now left|right].
  assert (H : a :: l <> []) by discriminate.
  destruct (exists_last H) as (ini & m & E). eauto.
Qed.

(** A located entry is in the tree. *)
Lemma walk_exists (t : node) (ps cur c : list string) (v : node) :
  OS.get t cur = Some v ->
  OS.walk t cur ps = inr c ->
  exists w, OS.get t c = Some w.
Proof.
  revert cur v. induction ps as [|p ps IH]; intros cur v Hcur; simpl.
  - intros [= <-]. eauto.
  - rewrite Hcur. destruct v as [| es |]; try discriminate.
    destruct (String.eqb p "..").
    + destruct (snoc_cases cur) as [->|(ini & m & ->)].
      * simpl. eapply IH. exact Hcur.
      * rewrite removelast_last. rewrite get_app in Hcur.
        destruct (OS.get t ini) as [x|] eqn:Hx; [|discriminate].
        eapply IH. exact Hx.
    + destruct (OS.lookup p es) as [c0|] eqn:Hp; [|discriminate].
      eapply IH. erewrite get_snoc; eauto.
Qed.

(** ** Updates of the tree *)

Lemma lookup_app (n : string) (es es' : OS.entries_t) :
  OS.lookup n (es ++ es') =
  match OS.lookup n es with Some c => Some c | None => OS.lookup n es' end.
Proof.
  induction es as [|[m c] es IH]; simpl; [reflexivity|].
  now destruct (String.eqb m n).
Qed.

Lemma lookup_alter_first (n : string) f (es : OS.entries_t) :
  OS.lookup n (OS.alter_first n f es) = option_map f (OS.lookup n es).
Proof.
  induction es as [|[m c] es IH]; simpl; [reflexivity|].
  destruct (String.eqb m n) eqn:E; simpl; now rewrite E.
Qed.

Lemma alter_first_ext (n : string) f g (es : OS.entries_t) :
  (forall c, f c = g c) -> OS.alter_first n f es = OS.alter_first n g es.
Proof.
  intros H. induction es as [|[m c] es IH]; simpl; [reflexivity|].
  destruct (String.eqb m n); [now rewrite H | now rewrite IH].
Qed.

Lemma alter_first_alter_first (n : string) f g (es : OS.entries_t) :
  OS.alter_first n f (OS.alter_first n g es) =
  OS.alter_first n (fun c => f (g c)) es.
Proof.
  induction es as [|[m c] es IH]; simpl; [reflexivity|].
  destruct (String.eqb m n) eqn:E; simpl; rewrite E; [reflexivity|].
  now rewrite IH.
Qed.

Lemma alter_first_id (n : string) f (es : OS.entries_t) :
  (forall c, f c = c) -> OS.alter_first n f es = es.
Proof.
  intros H. induction es as [|[m c] es IH]; simpl; [reflexivity|].
  destruct (String.eqb m n); [now rewrite H | now rewrite IH].
Qed.

Lemma alter_ext (cp : list string) f g (t : node) :
  (forall c, f c = g c) -> OS.alter cp f t = OS.alter cp g t.
Proof.
  intros H. revert t. induction cp as [|n cp IH]; intros t; simpl; [apply H|].
  destruct t as [| es |]; try reflexivity.
  f_equal. now apply alter_first_ext.
Qed.

Lemma alter_app (a b : list string) f (t : node) :
  OS.alter (a ++ b) f t = OS.alter a (OS.alter b f) t.
Proof.
  revert t. induction a as [|n a IH]; intros t; simpl; [reflexivity|].
  destruct t as [| es |]; try reflexivity.
  f_equal. now apply alter_first_ext.
Qed.

Lemma alter_alter (cp : list string) f g (t : node) :
  OS.alter cp f (OS.alter cp g t) = OS.alter cp (fun x => f (g x)) t.
Proof.
  revert t. induction cp as [|n cp IH]; intros t; simpl; [reflexivity|].
  destruct t as [| es |]; try reflexivity. simpl.
  f_equal. rewrite alter_first_alter_first. now apply alter_first_ext.
Qed.

Lemma alter_id (cp : list string) f (t : node) :
  (forall c, f c = c) -> OS.alter cp f t = t.
Proof.
  intros H. revert t. induction cp as [|n cp IH]; intros t; simpl; [apply H|].
  destruct t as [| es |]; try reflexivity.
  f_equal. now apply alter_first_id.
Qed.

(** The node at the place of an update. *)
Lemma get_alter (cp : list string) f (t : node) :
  OS.get (OS.alter cp f t) cp = option_map f (OS.get t cp).
Proof.
  revert t. induction cp as [|n cp IH]; intros t; simpl; [reflexivity|].
  destruct t as [| es |]; try reflexivity.
  rewrite lookup_alter_first.
  destruct (OS.lookup n es); simpl; [apply IH | reflexivity].
Qed.

Lemma is_prefix_app (a b : list string) : OS.is_prefix a (a ++ b) = true.
Proof.
  induction a as [|x a IH]; simpl; [reflexivity|].
  now rewrite String.eqb_refl.
Qed.

Lemma is_prefix_inv (a l : list string) :
  OS.is_prefix a l = true -> exists b, l = a ++ b.
Proof.
  revert l. induction a as [|x a IH]; intros l; simpl; [eauto|].
  destruct l as [|y l]; [discriminate|].
  rewrite andb_true_iff, String.eqb_eq. intros [-> H].
  destruct (IH _ H) as [b ->]. eauto.
Qed.

(** An update within the storage root is an update of the root's node. *)
Lemma alter_within_root (fs : filesystem) (cp : list string) f (t : node) :
  within_root fs cp ->
  exists g, OS.alter cp f t = OS.alter (storage_root fs) g t.
Proof.
  intros H. destruct (is_prefix_inv _ _ H) as [b ->].
  exists (OS.alter b f). apply alter_app.
Qed.

Lemma within_root_snoc (fs : filesystem) (cp : list string) (n : string) :
  within_root fs cp -> within_root fs (cp ++ [n]).
Proof.
  unfold within_root. intros H. destruct (is_prefix_inv _ _ H) as [b ->].
  rewrite <- app_assoc. apply is_prefix_app.
Qed.

(** ** Creating a folder *)

Lemma exists_child (fs : filesystem) (p : Path) cb es n :
  OS.locate fs p = inr (OS.Existing cb) ->
  OS.get (tree fs) cb = Some (Dir es) ->
  valid_name n = true ->
  OS.exists_ fs (p // n) = match OS.lookup n es with Some _ => true | None => false end.
Proof.
  intros Hloc Hget Hn. unfold OS.exists_, OS.stat.
  rewrite (joinpath_valid_name _ _ Hn), (locate_child _ _ _ _ _ Hloc Hget Hn).
  destruct (OS.lookup n es) as [c|] eqn:E; [|reflexivity].
  now rewrite (get_snoc _ _ _ _ Hget), E.
Qed.




(** ** Renaming *)

Lemma locate_child_gen (fs : filesystem) (p : Path) (cb : list string)
      (n : string) :
  OS.locate fs p = inr (OS.Existing cb) ->
  valid_name n = true ->
  OS.locate fs (mkPath (root p) (tail p ++ [n])) =
  match OS.get (tree fs) cb with
  | Some (Dir es) =>
      inr (match OS.lookup n es with
           | Some _ => OS.Existing (cb ++ [n])
           | None => OS.Missing cb n
           end)
  | Some _ => inl NotADirectoryError
  | None => inl FileNotFoundError
  end.
Proof.
  intros Hloc Hn.
  destruct (OS.get (tree fs) cb) as [[| es |]|] eqn:Hget;
    try (now apply locate_child).
  all: destruct (valid_name_inv _ Hn) as (_ & _ & Hdd & _ & Hnul);
    pose proof (locate_existing_walk _ _ _ Hloc) as Hwalk;
    unfold OS.locate; cbn [tail root];
    rewrite existsb_app, (locate_no_nul _ _ _ Hloc); cbn [existsb];
    rewrite Hnul; cbn [orb];
    (destruct (tail p ++ [n]) as [|a l] eqn:E;
      [apply app_eq_nil in E; destruct E; discriminate|]);
    rewrite <- E, removelast_last;
    change (OS.start fs {| root := root p; tail := tail p ++ [n] |})
      with (OS.start fs p);
    now rewrite Hwalk, Hget.
Qed.

Lemma valid_name_tail (p : Path) :
  valid_name (PurePath.name p) = true ->
  tail p = removelast (tail p) ++ [PurePath.name p].
Proof.
  intros H. apply app_removelast_last. intros E.
  unfold PurePath.name in H. rewrite E in H. discriminate.
Qed.

(** A path with a valid last name is the child of its parent. *)
Lemma path_as_child (p : Path) :
  valid_name (PurePath.name p) = true ->
  p = mkPath (root (PurePath.parent p))
        (tail (PurePath.parent p) ++ [PurePath.name p]).
Proof.
  intros H. destruct p as [r t]. unfold PurePath.parent. cbn [root tail].
  f_equal. apply (valid_name_tail (mkPath r t) H).
Qed.

Lemma detach_child (cb : list string) (m : string) (t : node) :
  OS.detach (cb ++ [m]) t =
  OS.alter cb (OS.on_entries (OS.remove_entry m)) t.
Proof. unfold OS.detach. now rewrite removelast_last, last_last. Qed.

(** What [os.rename] does between two valid names of one directory. *)
Lemma rename_in_directory (fs fs' : filesystem) (old_path : Path)
      (cb : list string) (n : string) :
  valid_name (PurePath.name old_path) = true ->
  valid_name n = true ->
  OS.locate fs (PurePath.parent old_path) = inr (OS.Existing cb) ->
  OS.exists_ fs (PurePath.parent old_path // n) = false ->
  OS.rename fs old_path (PurePath.parent old_path // n) = inr fs' ->
  exists es v,
    OS.get (tree fs) cb = Some (Dir es)
    /\ OS.lookup (PurePath.name old_path) es = Some v
    /\ OS.lookup n es = None
    /\ fs' = mkFS
         (OS.alter cb
            (fun d => OS.on_entries (OS.add_entry n v)
                        (OS.on_entries
                           (OS.remove_entry (PurePath.name old_path)) d))
            (tree fs))
         (cwd fs).
Proof.
  intros Hm Hn Hloc Hfree.
  set (m := PurePath.name old_path) in *.
  rewrite (joinpath_valid_name _ _ Hn) in *.
  unfold OS.rename.
  rewrite (path_as_child _ Hm) at 1. fold m.
  rewrite (locate_child_gen _ _ _ _ Hloc Hm), (locate_child_gen _ _ _ _ Hloc Hn).
  unfold OS.exists_, OS.stat in Hfree.
  rewrite (locate_child_gen _ _ _ _ Hloc Hn) in Hfree.
  destruct (OS.get (tree fs) cb) as [[| es |]|] eqn:Hget; try discriminate.
  destruct (OS.lookup n es) as [c|] eqn:Hfree'.
  { rewrite (get_snoc _ _ _ _ Hget), Hfree' in Hfree. discriminate. }
  destruct (OS.lookup m es) as [v|] eqn:Hv; [|discriminate].
  rewrite (get_snoc _ _ _ _ Hget), Hv.
  destruct (OS.is_prefix (cb ++ [m]) (cb ++ [n])); [discriminate|].
  intros [= <-]. exists es, v. repeat split; auto.
  unfold OS.with_tree. now rewrite detach_child, alter_alter.
Qed.

(** The runs of [handle_rename] on a name that is not blank. *)
Lemma handle_rename_run (s : session) (old_path : Path) (new_name : string) :
  PyStr.truthy (PyStr.strip new_name) = true ->
  let new_path := PurePath.parent old_path // PyStr.strip new_name in
  handle_rename old_path new_name s =
  if OS.exists_ (fs s) new_path then
    (inr tt, mkSession (current_path s) (fs s)
               (shown s ++ [error_already_exists new_name]))
  else
    match OS.rename (fs s) old_path new_path with
    | inr fs' =>
        (inl Rerun, mkSession (current_path s) fs'
                      (shown s ++ [success_renamed new_name]))
    | inl e =>
        (inr tt, mkSession (current_path s) (fs s)
                   (shown s ++ [error_renaming e]))
    end.
Proof.
  intros Ht new_path. unfold handle_rename. rewrite Ht. cbn [negb].
  fold new_path. unfold bind, read, show, try_except, syscall, st_rerun.
  destruct (OS.exists_ (fs s) new_path); [reflexivity|].
  now destruct (OS.rename (fs s) old_path new_path).
Qed.

Lemma valid_name_truthy (n : string) :
  valid_name n = true -> PyStr.truthy n = true.
Proof.
  intros H. destruct (valid_name_inv _ H) as (Hne & _).
  destruct n; [congruence | reflexivity].
Qed.

(** C4, as the code has it.  The collision check of [handle_rename] is made
    on the new name with its surrounding white space stripped: whenever the
    directory of the node has an entry of that stripped name, the rename is
    refused with the "already exists" error, and the session (the file
    system with the node and its content, the current directory) is left as
    it was apart from the error shown; no node is created. *)
Theorem handle_rename_sibling_exists (s : session) (old_path : Path)
        (new_name : string) (cb : list string) (es : OS.entries_t)
        (c : node) :
  valid_name (PyStr.strip new_name) = true ->
  OS.locate (fs s) (PurePath.parent old_path) = inr (OS.Existing cb) ->
  OS.get (tree (fs s)) cb = Some (Dir es) ->
  OS.lookup (PyStr.strip new_name) es = Some c ->
  handle_rename old_path new_name s =
  (inr tt, mkSession (current_path s) (fs s)
             (shown s ++ [error_already_exists new_name])).
Proof.
  intros Hn Hloc Hget Hc.
  rewrite (handle_rename_run _ _ _ (valid_name_truthy _ Hn)).
  now rewrite (exists_child _ _ _ _ _ Hloc Hget Hn), Hc.
Qed.

Lemma handle_rename_sibling_exists_witness :
  handle_rename (STORAGE_DIR // "a.txt") " Docs " (initial_session fs_docs)
  = (inr tt, mkSession STORAGE_DIR fs_docs [error_already_exists " Docs "]).
Proof.
  apply (handle_rename_sibling_exists (initial_session fs_docs)
           (STORAGE_DIR // "a.txt") " Docs " ["srv"; "file_storage"]
           [("a.txt", File (bytes "new"));
            ("Docs", Dir [("a.txt", File (bytes "old"))])]
           (Dir [("a.txt", File (bytes "old"))]));
    reflexivity.
Defined.

(** C4, as stated, fails: beside a folder whose name is a space followed by
    "a", renaming the file "x" to that very name succeeds, because the name
    is stripped before the check; the file ends up named "a". *)
Lemma handle_rename_padded_sibling_counterexample :
  OS.is_dir fs_space (STORAGE_DIR // " a") = true
  /\ exists s',
       handle_rename (STORAGE_DIR // "x") " a" (initial_session fs_space)
       = (inl Rerun, s')
       /\ shown s' = [success_renamed " a"]
       /\ OS.exists_ (fs s') (STORAGE_DIR // "x") = false
       /\ OS.is_file (fs s') (STORAGE_DIR // "a") = true.
Proof.
  split; [reflexivity|].
  exists (snd (handle_rename (STORAGE_DIR // "x") " a"
                 (initial_session fs_space))).
  vm_compute. repeat split.
Qed.



(** ** Staying within the storage root *)

Lemma new_folder_form_run (s : session) (folder_name : string) :
  PyStr.truthy folder_name = true ->
  let new_folder_path := current_path s // folder_name in
  new_folder_form true folder_name s =
  if OS.exists_ (fs s) new_folder_path then
    (inr tt, mkSession (current_path s) (fs s)
               (shown s ++ [error_folder_exists folder_name]))
  else
    match OS.mkdir (fs s) new_folder_path with
    | inr fs' =>
        (inl Rerun, mkSession (current_path s) fs'
                      (shown s ++ [success_folder_created folder_name]))
    | inl e => (inl (Raise e), s)
    end.
Proof.
  intros Ht new_folder_path. unfold new_folder_form. rewrite Ht.
  cbn [andb]. unfold bind, get_current_path, read, show, syscall, st_rerun.
  fold new_folder_path.
  destruct (OS.exists_ (fs s) new_folder_path); [reflexivity|]. cbn [negb].
  now destruct (OS.mkdir (fs s) new_folder_path).
Qed.

Lemma unchanged_within_root (fs : filesystem) :
  exists g, tree fs = OS.alter (storage_root fs) g (tree fs).
Proof. exists (fun x => x). symmetry. now apply alter_id. Qed.

(** C1, as the code has it.  Names are not validated: a name is joined to
    the base path as it is.  For a valid name (one component, not "." or
    "..", no slash, no NUL) and a base directory within the storage root,
    the joined path denotes the entry of that name in the base directory,
    which lies within the storage root; creating a folder of that name in
    the current directory, or renaming one of its entries to it, changes
    the tree at most below the storage root. *)
Theorem valid_name_stays_within_root (s : session) (base : Path)
        (cb : list string) (es : OS.entries_t) (n : string) :
  valid_name n = true ->
  OS.locate (fs s) base = inr (OS.Existing cb) ->
  OS.get (tree (fs s)) cb = Some (Dir es) ->
  within_root (fs s) cb ->
  (exists l, OS.locate (fs s) (base // n) = inr l
             /\ location_path l = cb ++ [n]
             /\ within_root (fs s) (location_path l))
  /\ (forall r s',
        current_path s = base ->
        new_folder_form true n s = (r, s') ->
        cwd (fs s') = cwd (fs s)
        /\ exists g,
             tree (fs s') = OS.alter (storage_root (fs s)) g (tree (fs s)))
  /\ (forall old_path new_name r s',
        PurePath.parent old_path = base ->
        valid_name (PurePath.name old_path) = true ->
        PyStr.strip new_name = n ->
        handle_rename old_path new_name s = (r, s') ->
        cwd (fs s') = cwd (fs s)
        /\ exists g,
             tree (fs s') = OS.alter (storage_root (fs s)) g (tree (fs s))).
Proof.
  intros Hn Hloc Hget Hin. split; [|split].
  - rewrite (joinpath_valid_name _ _ Hn),
      (locate_child _ _ _ _ _ Hloc Hget Hn).
    eexists. split; [reflexivity|].
    assert (E : location_path
                  match OS.lookup n es with
                  | Some _ => OS.Existing (cb ++ [n])
                  | None => OS.Missing cb n
                  end = cb ++ [n]) by now destruct (OS.lookup n es).
    rewrite E. split; [reflexivity | now apply within_root_snoc].
  - intros r s' <-.
    rewrite (new_folder_form_run _ _ (valid_name_truthy _ Hn)). cbv zeta.
    destruct (OS.exists_ (fs s) (current_path s // n)).
    { intros [= _ <-]. split; [reflexivity | apply unchanged_within_root]. }
    unfold OS.mkdir.
    rewrite (joinpath_valid_name _ _ Hn),
      (locate_child _ _ _ _ _ Hloc Hget Hn).
    destruct (OS.lookup n es).
    { intros [= _ <-]. split; [reflexivity | apply unchanged_within_root]. }
    intros [= _ <-]. split; [reflexivity|].
    cbn [fs tree OS.with_tree]. now apply alter_within_root.
  - intros old_path new_name r s' <- Hm <-.
    rewrite (handle_rename_run _ _ _ (valid_name_truthy _ Hn)). cbv zeta.
    destruct (OS.exists_ (fs s)
                (PurePath.parent old_path // PyStr.strip new_name)) eqn:Hfree.
    { intros [= _ <-]. split; [reflexivity | apply unchanged_within_root]. }
    destruct (OS.rename (fs s) old_path
                (PurePath.parent old_path // PyStr.strip new_name))
      as [e|fs'] eqn:Hren.
    { intros [= _ <-]. split; [reflexivity | apply unchanged_within_root]. }
    intros [= _ <-].
    destruct (rename_in_directory _ _ _ _ _ Hm Hn Hloc Hfree Hren)
      as (es' & v & _ & _ & _ & ->).
    split; [reflexivity|]. cbn [fs tree]. now apply alter_within_root.
Qed.

Lemma valid_name_stays_within_root_witness :
  (exists l, OS.locate fs_docs (STORAGE_DIR // "Pics") = inr l
             /\ location_path l = ["srv"; "file_storage"; "Pics"]
             /\ within_root fs_docs (location_path l))
  /\ exists g,
       tree (fs (snd (new_folder_form true "Pics" (initial_session fs_docs))))
       = OS.alter ["srv"; "file_storage"] g (tree fs_docs).
Proof.
  pose proof (valid_name_stays_within_root (initial_session fs_docs)
                STORAGE_DIR ["srv"; "file_storage"] _ "Pics"
                eq_refl eq_refl eq_refl eq_refl) as (H1 & H2 & _).
  split; [exact H1|].
  exact (proj2 (H2 _ _ eq_refl (surjective_pairing _))).
Defined.

(** C1, as stated, fails: a name with a parent-directory segment is
    accepted.  From the storage root, creating the folder "../evil" makes a
    directory beside the storage root, and renaming "a.txt" to "../b.txt"
    moves the file out of the storage root; both report success. *)
Lemma traversal_counterexample :
  let created := new_folder_form true "../evil" (initial_session fs_docs) in
  let renamed := handle_rename (STORAGE_DIR // "a.txt") "../b.txt"
                   (initial_session fs_docs) in
  storage_root fs_docs = ["srv"; "file_storage"]
  /\ fst created = inl Rerun
  /\ shown (snd created) = [success_folder_created "../evil"]
  /\ OS.get (tree fs_docs) ["srv"; "evil"] = None
  /\ OS.get (tree (fs (snd created))) ["srv"; "evil"] = Some (Dir [])
  /\ fst renamed = inl Rerun
  /\ shown (snd renamed) = [success_renamed "../b.txt"]
  /\ OS.get (tree fs_docs) ["srv"; "b.txt"] = None
  /\ OS.get (tree (fs (snd renamed))) ["srv"; "b.txt"]
     = Some (File (bytes "new"))
  /\ OS.get (tree (fs (snd renamed))) ["srv"; "file_storage"; "a.txt"] = None.
Proof. vm_compute. repeat split. Qed.

(** ** The listing of a folder *)

Lemma list_dir_run (s : session) (folder : Path) (items : list Path) :
  OS.iterdir (fs s) folder = inr items ->
  list_dir folder s =
  (inr (Py.sorted name_key (filter (OS.is_dir (fs s)) items),
        Py.sorted name_key (filter (OS.is_file (fs s)) items)), s).
Proof.
  intros H. unfold list_dir, bind, query, read, ret. now rewrite H.
Qed.

Lemma list_dir_fails (s : session) (folder : Path) (e : exn) :
  OS.iterdir (fs s) folder = inl e ->
  list_dir folder s = (inl (Raise e), s).
Proof.
  intros H. unfold list_dir, bind, query. now rewrite H.
Qed.

Lemma is_dir_not_is_file (fs : filesystem) (p : Path) :
  OS.is_dir fs p = true -> OS.is_file fs p = false.
Proof.
  unfold OS.is_dir, OS.is_file.
  now destruct (OS.stat fs p) as [e|[]].
Qed.

(** C6, as the code has it.  Whenever the folder can be enumerated, the
    listing returns the folders and the files, each sorted ascending by the
    lower-cased name; entries whose lower-cased names are equal stay in the
    order in which the directory enumerated them (the sort is stable), and
    are not ordered by their case-sensitive names. *)
Theorem list_dir_sorted_stable (s : session) (folder : Path)
        (items : list Path) :
  OS.iterdir (fs s) folder = inr items ->
  exists folders files,
    list_dir folder s = (inr (folders, files), s)
    /\ StronglySorted (Py.key_le name_key) folders
    /\ StronglySorted (Py.key_le name_key) files
    /\ (forall k, filter (Py.has_key name_key k) folders
                  = filter (Py.has_key name_key k)
                      (filter (OS.is_dir (fs s)) items))
    /\ (forall k, filter (Py.has_key name_key k) files
                  = filter (Py.has_key name_key k)
                      (filter (OS.is_file (fs s)) items)).
Proof.
  intros H. do 2 eexists. split; [apply (list_dir_run _ _ _ H)|].
  repeat split; intros; auto using sorted_sorted, sorted_stable.
Qed.

Lemma list_dir_sorted_stable_witness :
  exists folders files,
    list_dir STORAGE_DIR (initial_session fs_docs)
    = (inr (folders, files), initial_session fs_docs)
    /\ StronglySorted (Py.key_le name_key) folders
    /\ StronglySorted (Py.key_le name_key) files.
Proof.
  destruct (list_dir_sorted_stable (initial_session fs_docs) STORAGE_DIR _
              eq_refl) as (folders & files & H1 & H2 & H3 & _).
  exists folders, files. auto.
Defined.

(** C6, as stated, fails: the folders "b" and "B" have the same lower-cased
    name and are listed in the order of the directory, "b" first, although
    "B" is the smaller name in the case-sensitive order. *)
Lemma list_dir_ties_counterexample :
  list_dir STORAGE_DIR (initial_session fs_case)
  = (inr ([STORAGE_DIR // "b"; STORAGE_DIR // "B"], []),
     initial_session fs_case)
  /\ name_key (STORAGE_DIR // "b") = name_key (STORAGE_DIR // "B")
  /\ String.ltb (PurePath.name (STORAGE_DIR // "B"))
       (PurePath.name (STORAGE_DIR // "b")) = true.
Proof. vm_compute. repeat split. Qed.

(** C10.  Whenever the folder can be enumerated, an entry is in the folder
    sequence exactly when it is an enumerated directory, and in the file
    sequence exactly when it is an enumerated regular file; no entry is in
    both, and an entry that is neither a directory nor a regular file is in
    neither. *)
Theorem list_dir_partition (s : session) (folder : Path)
        (items : list Path) :
  OS.iterdir (fs s) folder = inr items ->
  exists folders files,
    list_dir folder s = (inr (folders, files), s)
    /\ (forall i, In i folders <-> In i items /\ OS.is_dir (fs s) i = true)
    /\ (forall i, In i files <-> In i items /\ OS.is_file (fs s) i = true)
    /\ (forall i, ~ (In i folders /\ In i files))
    /\ (forall i, OS.is_dir (fs s) i = false ->
                  OS.is_file (fs s) i = false ->
                  ~ In i folders /\ ~ In i files).
Proof.
  intros H. do 2 eexists. split; [apply (list_dir_run _ _ _ H)|].
  assert (Hd : forall i,
             In i (Py.sorted name_key (filter (OS.is_dir (fs s)) items))
             <-> In i items /\ OS.is_dir (fs s) i = true)
    by (intros i; now rewrite sorted_In, filter_In).
  assert (Hf : forall i,
             In i (Py.sorted name_key (filter (OS.is_file (fs s)) items))
             <-> In i items /\ OS.is_file (fs s) i = true)
    by (intros i; now rewrite sorted_In, filter_In).
  split; [exact Hd|]. split; [exact Hf|]. split.
  - intros i [Hi Hi']. apply Hd in Hi. apply Hf in Hi'.
    destruct Hi as [_ Hi], Hi' as [_ Hi'].
    rewrite (is_dir_not_is_file _ _ Hi) in Hi'. discriminate.
  - intros i Hnd Hnf. split; intros Hi.
    + apply Hd in Hi. destruct Hi; congruence.
    + apply Hf in Hi. destruct Hi; congruence.
Qed.

Lemma list_dir_partition_witness :
  list_dir STORAGE_DIR (initial_session fs_fifo)
  = (inr ([STORAGE_DIR // "Docs"], [STORAGE_DIR // "a.txt"]),
     initial_session fs_fifo)
  /\ In (STORAGE_DIR // "pipe")
       [STORAGE_DIR // "pipe"; STORAGE_DIR // "Docs"; STORAGE_DIR // "a.txt"]
  /\ exists folders files,
       list_dir STORAGE_DIR (initial_session fs_fifo)
       = (inr (folders, files), initial_session fs_fifo)
       /\ ~ In (STORAGE_DIR // "pipe") folders
       /\ ~ In (STORAGE_DIR // "pipe") files.
Proof.
  split; [reflexivity|]. split; [now left|].
  destruct (list_dir_partition (initial_session fs_fifo) STORAGE_DIR _
              eq_refl) as (folders & files & H1 & _ & _ & _ & H5).
  exists folders, files. split; [exact H1|].
  apply H5; reflexivity.
Defined.

(** ** Uploading a batch *)

Lemma for_each_app {A} (l l' : list A) (body : A -> M unit) (s : session) :
  for_each (l ++ l') body s =
  match for_each l body s with
  | (inr _, s1) => for_each l' body s1
  | (inl sg, s1) => (inl sg, s1)
  end.
Proof.
  revert s. induction l as [|x l IH]; intros s; cbn [for_each app].
  - unfold ret. reflexivity.
  - unfold bind. destruct (body x s) as [[sg|[]] s1]; [reflexivity|].
    apply IH.
Qed.

Lemma save_upload_run (up_file : string * list byte) (s : session) :
  save_upload up_file s =
  match OS.write_file (fs s) (current_path s // fst up_file) (snd up_file) with
  | inr fs' => (inr tt, mkSession (current_path s) fs' (shown s))
  | inl e => (inl (Raise e), s)
  end.
Proof. reflexivity. Qed.

(** C8, as the code has it.  The upload loop has no handler of its own:
    when saving a pair fails after the pairs before it were saved, the
    exception leaves the loop.  The session is then exactly the one reached
    after the earlier pairs (their files stay written, nothing is rolled
    back), and none of the later pairs is attempted: the outcome does not
    depend on them, no success is reported and no rerun is requested. *)
Theorem upload_stops_at_failure (s s1 : session)
        (pre post : list (string * list byte)) (bad : string * list byte)
        (e : exn) :
  for_each pre save_upload s = (inr tt, s1) ->
  OS.write_file (fs s1) (current_path s1 // fst bad) (snd bad) = inl e ->
  upload (pre ++ bad :: post) s = (inl (Raise e), s1).
Proof.
  intros Hpre Hbad. unfold upload.
  destruct (pre ++ bad :: post) as [|x l] eqn:E;
    [now destruct pre; discriminate|].
  rewrite <- E. unfold bind at 1. rewrite for_each_app, Hpre.
  cbn [for_each]. unfold bind at 1. now rewrite save_upload_run, Hbad.
Qed.

Lemma upload_stops_at_failure_witness :
  exists s1,
    OS.is_file (fs s1) (STORAGE_DIR // "x.txt") = true
    /\ upload [("x.txt", bytes "1"); ("Docs", bytes "2"); ("y.txt", bytes "3")]
         (initial_session fs_docs)
       = (inl (Raise IsADirectoryError), s1).
Proof.
  exists (snd (for_each [("x.txt", bytes "1")] save_upload
                 (initial_session fs_docs))).
  split; [reflexivity|].
  apply (upload_stops_at_failure (initial_session fs_docs) _
           [("x.txt", bytes "1")] [("y.txt", bytes "3")]
           ("Docs", bytes "2") IsADirectoryError);
    reflexivity.
Defined.

(** C8, as stated, fails: of three uploads into a directory that has a
    folder "Docs", the first is saved, the second (named "Docs") fails, and
    the third is never attempted although saving it would have worked. *)
Lemma upload_batch_counterexample :
  let r := upload [("x.txt", bytes "1"); ("Docs", bytes "2");
                   ("y.txt", bytes "3")] (initial_session fs_docs) in
  fst r = inl (Raise IsADirectoryError)
  /\ OS.is_file (fs (snd r)) (STORAGE_DIR // "x.txt") = true
  /\ OS.exists_ (fs (snd r)) (STORAGE_DIR // "y.txt") = false
  /\ fst (save_upload ("y.txt", bytes "3") (snd r)) = inr tt.
Proof. vm_compute. repeat split. Qed.

(** ** The folders offered as destinations *)

Lemma get_all_folders_run (root_dir : Path) (s : session) :
  get_all_folders root_dir s =
  (inr (STORAGE_DIR
        :: filter (OS.is_dir (fs s)) (OS.rglob_all (fs s) root_dir)), s).
Proof. reflexivity. Qed.

(** Every node below a directory is among its descendants. *)
Lemma descendants_complete (rel : list string) (t v : node) :
  rel <> [] -> OS.get t rel = Some v -> In rel (OS.descendants t).
Proof.
  revert t. induction rel as [|n rel IH]; intros t Hne Hget; [congruence|].
  simpl in Hget. destruct t as [| es |]; try discriminate.
  destruct (OS.lookup n es) as [c|] eqn:Hn; [|discriminate].
  apply lookup_In in Hn. cbn [OS.descendants]. apply in_or_app.
  destruct rel as [|m rel].
  - left. apply (in_map (fun e => [fst e]) _ _ Hn).
  - right. apply in_flat_map. exists (n, c). split; [exact Hn|].
    cbn [fst snd]. apply in_map. apply IH; [discriminate | exact Hget].
Qed.

Lemma storage_dir_below : STORAGE_DIR = below_storage [].
Proof. reflexivity. Qed.

Lemma stat_below_storage (fs : filesystem) (rel : list string) (v : node) :
  Forall (fun n => valid_name n = true) rel ->
  OS.get (tree fs) (storage_root fs ++ rel) = Some v ->
  OS.stat fs (below_storage rel) = inr v.
Proof.
  intros Hrel Hget. apply stat_valid.
  - cbn [below_storage tail]. apply Forall_app. split; [|exact Hrel].
    repeat constructor.
  - unfold storage_root in Hget. now rewrite <- app_assoc in Hget.
Qed.

(** Every directory below the storage root is enumerated. *)
Lemma rglob_all_complete (fs : filesystem) (rel : list string)
      (es : OS.entries_t) :
  rel <> [] ->
  Forall (fun n => valid_name n = true) rel ->
  OS.get (tree fs) (storage_root fs ++ rel) = Some (Dir es) ->
  In (below_storage rel)
    (filter (OS.is_dir fs) (OS.rglob_all fs STORAGE_DIR)).
Proof.
  intros Hne Hrel Hget. apply filter_In. split.
  - pose proof Hget as Hget'. rewrite get_app in Hget'.
    destruct (OS.get (tree fs) (storage_root fs)) as [r|] eqn:Hr;
      [|discriminate].
    unfold OS.rglob_all. rewrite storage_dir_below.
    rewrite (stat_below_storage fs [] r (Forall_nil _))
      by now rewrite app_nil_r.
    destruct r as [| es0 |]; try (destruct rel; discriminate).
    apply (in_map (fun rel => mkPath _ (_ ++ rel))).
    eapply descendants_complete; eauto.
  - unfold OS.is_dir. now rewrite (stat_below_storage _ _ _ Hrel Hget).
Qed.

Lemma rglob_all_below (fs : filesystem) (f : Path) :
  In f (OS.rglob_all fs STORAGE_DIR) -> exists rel, f = below_storage rel.
Proof.
  unfold OS.rglob_all.
  destruct (OS.stat fs STORAGE_DIR) as [e|[| es |]]; try contradiction.
  intros H. apply in_map_iff in H. destruct H as (rel & <- & _).
  now exists rel.
Qed.

Lemma dict_get_set (k v k' : Path) (d : Py.dict) :
  Py.dict_get k' (Py.dict_set k v d) =
  if PurePath.eqb k k' then Some v else Py.dict_get k' d.
Proof.
  induction d as [|[k0 v0] d IH]; simpl; [reflexivity|].
  destruct (PurePath.eqb k0 k) eqn:E; simpl.
  - apply path_eqb_eq in E. subst k0.
    now destruct (PurePath.eqb k k').
  - rewrite IH. destruct (PurePath.eqb k0 k') eqn:E'; [|reflexivity].
    apply path_eqb_eq in E'. subst k'.
    destruct (PurePath.eqb k k0) eqn:E''; [|reflexivity].
    apply path_eqb_eq in E''. subst k0.
    rewrite path_eqb_refl in E. discriminate.
Qed.

Lemma options_of_below (rels : list (list string)) (d : Py.dict)
      (s : session) :
  options_of (map below_storage rels) d s =
  (inr (fold_left option_step rels d), s).
Proof.
  revert d. induction rels as [|r rels IH]; intros d; [reflexivity|].
  cbn [map options_of fold_left]. unfold bind.
  change (PurePath.relative_to (below_storage r) STORAGE_DIR)
    with (Some (mkPath "" r)).
  cbn [of_option]. unfold ret. apply IH.
Qed.

Lemma below_storage_inj (r r' : list string) :
  below_storage r = below_storage r' -> r = r'.
Proof. unfold below_storage. intros [= H]. exact H. Qed.

(** The entries of the dictionary built from a list of folders. *)
Lemma options_fold_get (rels : list (list string)) (d : Py.dict)
      (k v : Path) :
  Py.dict_get k (fold_left option_step rels d) = Some v <->
  (exists r, In r rels /\ k = mkPath "" r /\ v = below_storage r)
  \/ ((forall r, In r rels -> k <> mkPath "" r) /\ Py.dict_get k d = Some v).
Proof.
  revert d. induction rels as [|r0 rels IH]; intros d; cbn [fold_left].
  - split; [intros H; right; split; [intros r []|exact H]|].
    intros [(r & [] & _)|[_ H]]. exact H.
  - rewrite IH. unfold option_step. rewrite dict_get_set. split.
    + intros [(r & Hr & -> & ->)|[Hn H]].
      * left. exists r. repeat split. now right.
      * destruct (PurePath.eqb (mkPath "" r0) k) eqn:E.
        -- apply path_eqb_eq in E. subst k. injection H as <-.
           left. exists r0. repeat split. now left.
        -- right. split; [|exact H]. intros r [<-|Hr]; [|now apply Hn].
           apply path_eqb_neq in E. congruence.
    + intros [(r & [<-|Hr] & -> & ->)|[Hn H]].
      * destruct (in_dec (list_eq_dec string_dec) r0 rels) as [Hin|Hin].
        -- left. exists r0. repeat split. exact Hin.
        -- right. rewrite path_eqb_refl. split; [|reflexivity].
           intros r Hr [= <-]. contradiction.
      * left. exists r. repeat split. exact Hr.
      * right. split; [intros r Hr; apply Hn; now right|].
        destruct (PurePath.eqb (mkPath "" r0) k) eqn:E; [|exact H].
        apply path_eqb_eq in E. elim (Hn r0); [now left | now symmetry].
Qed.

Lemma filter_map_comm {A B} (f : A -> B) (P : B -> bool) (l : list A) :
  filter P (map f l) = map f (filter (fun x => P (f x)) l).
Proof.
  induction l as [|x l IH]; simpl; [reflexivity|].
  destruct (P (f x)); simpl; now rewrite IH.
Qed.

Lemma all_below_map (l : list Path) :
  (forall f, In f l -> exists rel, f = below_storage rel) ->
  exists rels, l = map below_storage rels.
Proof.
  induction l as [|f l IH]; intros H; [now exists []|].
  destruct (H f (or_introl eq_refl)) as [r ->].
  destruct IH as [rels ->]; [intros g Hg; apply H; now right|].
  now exists (r :: rels).
Qed.

(** The options of the move form are the enumerated folders other than
    the parent of the file. *)
Lemma folder_options_run (file : Path) (s : session) :
  exists options,
    folder_options file s = (inr options, s)
    /\ forall f,
         (exists k, Py.dict_get k options = Some f) <->
         In f (destinations file
                 (STORAGE_DIR :: filter (OS.is_dir (fs s))
                                   (OS.rglob_all (fs s) STORAGE_DIR))).
Proof.
  destruct (all_below_map
              (filter (OS.is_dir (fs s)) (OS.rglob_all (fs s) STORAGE_DIR)))
    as [rels Hrels].
  { intros f Hf. apply filter_In in Hf. now apply (rglob_all_below (fs s)). }
  unfold folder_options, bind. rewrite get_all_folders_run, Hrels.
  change (STORAGE_DIR :: map below_storage rels)
    with (map below_storage ([] :: rels)).
  unfold destinations. rewrite filter_map_comm, options_of_below.
  eexists. split; [reflexivity|]. intros f. split.
  - intros [k Hk]. apply options_fold_get in Hk.
    destruct Hk as [(r & Hr & _ & ->)|[_ Hk]]; [|discriminate].
    now apply in_map.
  - intros Hf. apply in_map_iff in Hf. destruct Hf as (r & <- & Hr).
    exists (mkPath "" r). apply options_fold_get. left. now exists r.
Qed.

Lemma dict_set_fresh (k v : Path) (d : Py.dict) :
  Py.dict_get k d = None -> Py.dict_set k v d = d ++ [(k, v)].
Proof.
  induction d as [|[k0 v0] d IH]; simpl; [reflexivity|].
  destruct (PurePath.eqb k0 k); [discriminate|].
  intros H. now rewrite IH.
Qed.

Lemma dict_get_app (k : Path) (d d' : Py.dict) :
  Py.dict_get k (d ++ d') =
  match Py.dict_get k d with Some v => Some v | None => Py.dict_get k d' end.
Proof.
  induction d as [|[k0 v0] d IH]; simpl; [reflexivity|].
  now destruct (PurePath.eqb k0 k).
Qed.

(** Without repeated folders the dictionary lists them in order. *)
Lemma options_fold_nodup (rels : list (list string)) (d : Py.dict) :
  NoDup rels ->
  (forall r, In r rels -> Py.dict_get (mkPath "" r) d = None) ->
  fold_left option_step rels d =
  d ++ map (fun r => (mkPath "" r, below_storage r)) rels.
Proof.
  intros Hnd. revert d.
  induction Hnd as [|r0 rels Hr0 _ IH]; intros d Hd; cbn [fold_left map].
  - now rewrite app_nil_r.
  - unfold option_step at 2.
    rewrite (dict_set_fresh _ _ _ (Hd r0 (or_introl eq_refl))), IH.
    + now rewrite <- app_assoc.
    + intros r Hr. rewrite dict_get_app, (Hd r (or_intror Hr)). simpl.
      destruct (PurePath.eqb (mkPath "" r0) (mkPath "" r)) eqn:E;
        [|reflexivity].
      apply path_eqb_eq in E. injection E as ->. contradiction.
Qed.

Lemma NoDup_map_below (rels : list (list string)) :
  NoDup (map below_storage rels) -> NoDup rels.
Proof.
  induction rels as [|r rels IH]; cbn [map]; intros H; [constructor|].
  inversion H as [|? ? Hn Hnd]; subst. constructor; [|now apply IH].
  intros Hr. apply Hn. now apply in_map.
Qed.

Lemma folder_options_nodup (file : Path) (s : session) (options : Py.dict) :
  folder_options file s = (inr options, s) ->
  NoDup (STORAGE_DIR :: filter (OS.is_dir (fs s))
                          (OS.rglob_all (fs s) STORAGE_DIR)) ->
  map snd options =
  destinations file
    (STORAGE_DIR :: filter (OS.is_dir (fs s))
                      (OS.rglob_all (fs s) STORAGE_DIR)).
Proof.
  destruct (all_below_map
              (filter (OS.is_dir (fs s)) (OS.rglob_all (fs s) STORAGE_DIR)))
    as [rels Hrels].
  { intros f Hf. apply filter_In in Hf. now apply (rglob_all_below (fs s)). }
  unfold folder_options, bind. rewrite get_all_folders_run, Hrels.
  change (STORAGE_DIR :: map below_storage rels)
    with (map below_storage ([] :: rels)).
  generalize ([] :: rels). clear Hrels rels. intros rels.
  unfold destinations. rewrite filter_map_comm, options_of_below.
  intros [= <-] Hnd. apply NoDup_map_below in Hnd.
  rewrite options_fold_nodup;
    [| apply NoDup_filter; exact Hnd | intros; reflexivity].
  cbn [app]. rewrite map_map. reflexivity.
Qed.

(** C7.  [get_all_folders] yields the storage root first, followed by
    folders that are directories below it, among them every directory
    below the storage root; the move form offers, as the values of its
    options, exactly these folders without the parent of the file, and in
    the same order when no folder is listed twice. *)
Theorem move_destinations (s : session) (file : Path) :
  exists folders options,
    get_all_folders STORAGE_DIR s = (inr (STORAGE_DIR :: folders), s)
    /\ (forall f, In f folders ->
          OS.is_dir (fs s) f = true /\ exists rel, f = below_storage rel)
    /\ (forall rel es,
          rel <> [] ->
          Forall (fun n => valid_name n = true) rel ->
          OS.get (tree (fs s)) (storage_root (fs s) ++ rel) = Some (Dir es) ->
          In (below_storage rel) folders)
    /\ folder_options file s = (inr options, s)
    /\ (forall f,
          (exists k, Py.dict_get k options = Some f) <->
          In f (STORAGE_DIR :: folders) /\ f <> PurePath.parent file)
    /\ (NoDup (STORAGE_DIR :: folders) ->
        map snd options = destinations file (STORAGE_DIR :: folders)).
Proof.
  destruct (folder_options_run file s) as (options & Hrun & Hopt).
  exists (filter (OS.is_dir (fs s)) (OS.rglob_all (fs s) STORAGE_DIR)), options.
  split; [apply get_all_folders_run|].
  split. { intros f Hf. split; [now apply filter_In in Hf|].
           apply filter_In in Hf. now apply (rglob_all_below (fs s)). }
  split. { intros rel es. apply rglob_all_complete. }
  split; [exact Hrun|].
  split; [|now apply folder_options_nodup].
  intros f. rewrite Hopt. unfold destinations.
  rewrite filter_In, negb_true_iff, path_eqb_neq. reflexivity.
Qed.

Lemma move_destinations_witness :
  exists folders options,
    get_all_folders STORAGE_DIR (initial_session fs_docs)
    = (inr (STORAGE_DIR :: folders), initial_session fs_docs)
    /\ In (below_storage ["Docs"]) folders
    /\ folder_options (STORAGE_DIR // "a.txt") (initial_session fs_docs)
       = (inr options, initial_session fs_docs)
    /\ ((exists k, Py.dict_get k options = Some (below_storage ["Docs"])) <->
        In (below_storage ["Docs"]) (STORAGE_DIR :: folders)
        /\ below_storage ["Docs"] <> PurePath.parent (STORAGE_DIR // "a.txt")).
Proof.
  destruct (move_destinations (initial_session fs_docs)
              (STORAGE_DIR // "a.txt"))
    as (folders & options & H1 & _ & H3 & H4 & H5 & _).
  exists folders, options. split; [exact H1|].
  split; [|split; [exact H4 | apply H5]].
  apply (H3 ["Docs"] [("a.txt", File (bytes "old"))]).
  - discriminate.
  - repeat constructor.
  - reflexivity.
Defined.

(** ** Moving a file *)

Lemma samefile_stat (fs : filesystem) (src dst : Path) :
  OS.samefile fs src dst = true -> OS.stat fs src = OS.stat fs dst.
Proof.
  unfold OS.samefile, OS.stat.
  destruct (OS.locate fs src) as [e|[a|d n]]; try discriminate.
  destruct (OS.locate fs dst) as [e|[b|d n]]; try discriminate.
  destruct (list_eq_dec string_dec a b) as [->|_];
    [reflexivity | discriminate].
Qed.

(** [shutil.move] into a directory that has an entry of the file's name. *)
Lemma move_onto_existing (fs : filesystem) (src dst : Path) :
  OS.is_file fs src = true ->
  OS.is_dir fs dst = true ->
  OS.exists_ fs (dst // PurePath.name src) = true ->
  OS.move fs src dst = inl ShutilError.
Proof.
  intros Hsrc Hdst Hex. unfold OS.move. rewrite Hdst. cbn [andb].
  destruct (OS.samefile fs src dst) eqn:Hsame.
  - apply samefile_stat in Hsame. unfold OS.is_file, OS.is_dir in *.
    rewrite Hsame in Hsrc. now destruct (OS.stat fs dst) as [e|[]].
  - now rewrite Hex.
Qed.

(** C2, as the code has it.  When the chosen destination folder already
    has an entry with the name of the file, [shutil.move] raises its error
    before anything is renamed: the move form ends with that exception and
    the session is unchanged, so the destination keeps its content and the
    file stays where it was. *)
Theorem move_form_refuses_existing (s : session)
        (file dest_folder_rel destination_path : Path)
        (options : Py.dict) :
  fst (folder_options file s) = inr options ->
  Py.dict_get dest_folder_rel options = Some destination_path ->
  OS.is_file (fs s) file = true ->
  OS.is_dir (fs s) destination_path = true ->
  OS.exists_ (fs s) (destination_path // PurePath.name file) = true ->
  move_form file (Some dest_folder_rel) s = (inl (Raise ShutilError), s).
Proof.
  intros Hopt Hget Hfile Hdir Hex.
  destruct (folder_options_run file s) as (options' & Hrun & _).
  rewrite Hrun in Hopt. injection Hopt as ->.
  unfold move_form, bind. rewrite Hrun, Hget. cbn [of_option]. unfold ret.
  unfold syscall. now rewrite (move_onto_existing _ _ _ Hfile Hdir Hex).
Qed.

Lemma move_form_refuses_existing_witness :
  move_form (STORAGE_DIR // "a.txt") (Some (mkPath "" ["Docs"]))
    (initial_session fs_docs)
  = (inl (Raise ShutilError), initial_session fs_docs).
Proof.
  apply (move_form_refuses_existing (initial_session fs_docs)
           (STORAGE_DIR // "a.txt") (mkPath "" ["Docs"])
           (below_storage ["Docs"])
           [(mkPath "" ["Docs"], below_storage ["Docs"])]);
    reflexivity.
Defined.

(** C2, as stated, fails: moving "a.txt" into "Docs", which has an "a.txt"
    of its own, is reported as an error by the listing; afterwards "Docs"
    still holds its old file and the source is still in place. *)
Lemma move_overwrite_counterexample :
  let r := script (MoveFile (STORAGE_DIR // "a.txt") (mkPath "" ["Docs"]))
             (initial_session fs_docs) in
  OS.stat fs_docs (STORAGE_DIR // "Docs" // "a.txt") = inr (File (bytes "old"))
  /\ fst r = inr tt
  /\ shown (snd r) = [error_occurred ShutilError]
  /\ OS.stat (fs (snd r)) (STORAGE_DIR // "Docs" // "a.txt")
     = inr (File (bytes "old"))
  /\ OS.stat (fs (snd r)) (STORAGE_DIR // "a.txt")
     = inr (File (bytes "new")).
Proof. vm_compute. repeat split. Qed.

(** ** A current directory that is gone *)

Lemma mkdir_exist_ok_existing (p : Path) (s : session) :
  OS.is_dir (fs s) p = true -> mkdir_exist_ok p s = (inr tt, s).
Proof.
  intros Hd. unfold mkdir_exist_ok, try_except, syscall, OS.mkdir.
  unfold OS.is_dir, OS.stat in Hd.
  destruct (OS.locate (fs s) p) as [e|[cp|d n]] eqn:Hloc; try discriminate.
  cbn [is_OSError]. unfold bind, read, OS.is_dir, OS.stat. rewrite Hloc.
  destruct (OS.get (tree (fs s)) cp) as [[| es |]|]; try discriminate.
  reflexivity.
Qed.

Lemma for_each_skip {A} (l : list A) (body : A -> M unit) (s : session) :
  (forall x, In x l -> body x s = (inr tt, s)) ->
  for_each l body s = (inr tt, s).
Proof.
  induction l as [|x l IH]; intros H; [reflexivity|].
  cbn [for_each]. unfold bind. rewrite (H x (or_introl eq_refl)).
  apply IH. intros y Hy. apply H. now right.
Qed.

Lemma breadcrumbs_idle (s : session) (rel : Path) :
  PurePath.relative_to (current_path s) STORAGE_DIR = Some rel ->
  breadcrumbs None s = (inr tt, s).
Proof.
  intros H. unfold breadcrumbs, bind, get_current_path. rewrite H.
  cbn [of_option]. unfold ret. apply for_each_skip.
  intros i _. now destruct (i <? _)%nat.
Qed.

Lemma iterdir_missing (fs : filesystem) (p : Path) :
  OS.exists_ fs p = false -> exists e, OS.iterdir fs p = inl e.
Proof.
  unfold OS.exists_, OS.iterdir.
  destruct (OS.stat fs p) as [e|v]; [eauto | discriminate].
Qed.

(** C3, as the code has it.  Nothing checks that the current directory
    still exists.  When the storage root exists and the current directory
    is a path below it that no longer exists, a redraw computes the
    breadcrumbs from the path alone, the listing fails, the error is shown,
    and the current directory and the file system are left as they were:
    the next redraw meets the same missing folder. *)
Theorem stale_current_path_stays (s : session) (rel : Path) :
  OS.is_dir (fs s) STORAGE_DIR = true ->
  PurePath.relative_to (current_path s) STORAGE_DIR = Some rel ->
  OS.exists_ (fs s) (current_path s) = false ->
  exists e,
    script NoEvent s =
    (inr tt, mkSession (current_path s) (fs s)
               (shown s ++ [error_occurred e])).
Proof.
  intros Hroot Hrel Hgone.
  destruct (iterdir_missing _ _ Hgone) as [e He]. exists e.
  unfold script, bind at 1. rewrite (mkdir_exist_ok_existing _ _ Hroot).
  unfold bind at 1. cbn [sidebar]. unfold ret at 1.
  unfold header, bind at 1. cbn [home_button]. unfold bind at 1, ret at 1.
  rewrite (breadcrumbs_idle _ _ Hrel).
  unfold listing, try_except, bind at 1, get_current_path.
  unfold bind at 1. now rewrite (list_dir_fails _ _ _ He).
Qed.

Lemma stale_current_path_stays_witness :
  exists e,
    script NoEvent (mkSession (STORAGE_DIR // "gone") fs_docs [])
    = (inr tt, mkSession (STORAGE_DIR // "gone") fs_docs [error_occurred e]).
Proof.
  apply (stale_current_path_stays
           (mkSession (STORAGE_DIR // "gone") fs_docs []) (mkPath "" ["gone"]));
    reflexivity.
Defined.

(** C3, as stated, fails: with the current directory at a folder that is
    gone, a redraw shows the raw error and keeps the current directory, and
    so does the redraw after it. *)
Lemma stale_current_path_counterexample :
  let s := mkSession (STORAGE_DIR // "gone") fs_docs [] in
  let r1 := script NoEvent s in
  let r2 := script NoEvent (mkSession (current_path (snd r1)) (fs (snd r1)) [])
  in
  OS.exists_ fs_docs (STORAGE_DIR // "gone") = false
  /\ shown (snd r1) = [error_occurred FileNotFoundError]
  /\ current_path (snd r1) = STORAGE_DIR // "gone"
  /\ current_path (snd r1) <> STORAGE_DIR
  /\ shown (snd r2) = [error_occurred FileNotFoundError]
  /\ current_path (snd r2) = STORAGE_DIR // "gone".
Proof. vm_compute. repeat split. discriminate. Qed.

(** * Further properties of the script *)

(** ** Runs that only look *)

Lemma for_each_hit_signal {A} (l : list A) (f : A) (body : A -> M unit)
      (s s' : session) (sg : signal) :
  In f l ->
  (forall x, In x l -> x <> f -> body x s = (inr tt, s)) ->
  (forall x y : A, {x = y} + {x <> y}) ->
  body f s = (inl sg, s') ->
  for_each l body s = (inl sg, s').
Proof.
  intros Hin Hskip dec Hf. induction l as [|x l IH]; [contradiction|].
  cbn [for_each]. unfold bind. destruct (dec x f) as [->|Hne].
  - now rewrite Hf.
  - rewrite (Hskip x (or_introl eq_refl) Hne). apply IH.
    + destruct Hin as [->|Hin]; [congruence | exact Hin].
    + intros y Hy. apply Hskip. now right.
Qed.

Lemma path_eq_dec (p q : Path) : {p = q} + {p <> q}.
Proof.
  destruct (PurePath.eqb p q) eqn:E.
  - left. now apply path_eqb_eq.
  - right. now apply path_eqb_neq.
Qed.

Lemma folder_row_other (ev : event) (folder : Path) (s : session) :
  folder_target ev <> Some folder ->
  folder_row ev folder s = (inr tt, s).
Proof.
  intros H. destruct ev; try reflexivity; cbn [folder_target] in H;
    cbn [folder_row];
    (destruct (PurePath.eqb folder0 folder) eqn:E; [|reflexivity]);
    apply path_eqb_eq in E; congruence.
Qed.

Lemma move_form_idle (file : Path) (s : session) :
  move_form file None s = (inr tt, s).
Proof.
  destruct (folder_options_run file s) as (options & Hrun & _).
  unfold move_form, bind. now rewrite Hrun.
Qed.

Lemma is_file_stat (fs : filesystem) (p : Path) :
  OS.is_file fs p = true -> exists d, OS.stat fs p = inr (File d).
Proof.
  unfold OS.is_file. destruct (OS.stat fs p) as [e|[d| |]]; try discriminate.
  eauto.
Qed.

Lemma is_dir_stat (fs : filesystem) (p : Path) :
  OS.is_dir fs p = true -> exists es, OS.stat fs p = inr (Dir es).
Proof.
  unfold OS.is_dir. destruct (OS.stat fs p) as [e|[| es |]]; try discriminate.
  eauto.
Qed.

Lemma file_row_other (ev : event) (file : Path) (s : session) :
  file_target ev <> Some file ->
  OS.is_file (fs s) file = true ->
  file_row ev file s = (inr tt, s).
Proof.
  intros H Hf. destruct (is_file_stat _ _ Hf) as [d Hd].
  unfold file_row, bind at 1, query. rewrite Hd. unfold bind at 1.
  assert (E : (match ev with
               | MoveFile f dest_folder_rel =>
                   if PurePath.eqb f file then Some dest_folder_rel else None
               | _ => None
               end) = None).
  { destruct ev; try reflexivity. cbn [file_target] in H.
    destruct (PurePath.eqb file0 file) eqn:E; [|reflexivity].
    apply path_eqb_eq in E. congruence. }
  rewrite E, move_form_idle.
  destruct ev; try reflexivity; cbn [file_target] in H;
    (destruct (PurePath.eqb file0 file) eqn:E'; [|reflexivity]);
    apply path_eqb_eq in E'; congruence.
Qed.

Lemma for_each_files_idle (ev : event) (files : list Path) (s : session) :
  (forall f, In f files -> file_target ev <> Some f) ->
  (forall f, In f files -> OS.is_file (fs s) f = true) ->
  for_each files (file_row ev) s = (inr tt, s).
Proof.
  intros H1 H2. apply for_each_skip. intros f Hf.
  apply file_row_other; auto.
Qed.

Lemma for_each_folders_idle (ev : event) (folders : list Path) (s : session) :
  (forall f, In f folders -> folder_target ev <> Some f) ->
  for_each folders (folder_row ev) s = (inr tt, s).
Proof.
  intros H. apply for_each_skip. intros f Hf. apply folder_row_other; auto.
Qed.

Lemma sorted_files_are_files (s : session) (items : list Path) (f : Path) :
  In f (Py.sorted name_key (filter (OS.is_file (fs s)) items)) ->
  OS.is_file (fs s) f = true.
Proof. rewrite sorted_In, filter_In. tauto. Qed.

(** The listing when no row is addressed by the event. *)
Lemma listing_idle (ev : event) (s : session) (items : list Path) :
  OS.iterdir (fs s) (current_path s) = inr items ->
  (forall f, In f items -> OS.is_dir (fs s) f = true ->
             folder_target ev <> Some f) ->
  (forall f, In f items -> OS.is_file (fs s) f = true ->
             file_target ev <> Some f) ->
  listing ev s =
  (inr tt,
   showing s
     (empty_notice
        (Py.sorted name_key (filter (OS.is_dir (fs s)) items))
        (Py.sorted name_key (filter (OS.is_file (fs s)) items)))).
Proof.
  intros Hit Hfo Hfi. unfold listing, try_except, bind at 1, get_current_path.
  unfold bind at 1. rewrite (list_dir_run _ _ _ Hit).
  set (folders := Py.sorted name_key (filter (OS.is_dir (fs s)) items)).
  set (files := Py.sorted name_key (filter (OS.is_file (fs s)) items)).
  assert (Hfolders : forall s', for_each folders (folder_row ev) s' = (inr tt, s')).
  { intros s'. apply for_each_folders_idle. intros f Hf.
    unfold folders in Hf. rewrite sorted_In, filter_In in Hf.
    now apply Hfo. }
  assert (Hfiles : forall s', fs s' = fs s ->
                     for_each files (file_row ev) s' = (inr tt, s')).
  { intros s' E. apply for_each_files_idle.
    - intros f Hf. unfold files in Hf.
      rewrite sorted_In, filter_In in Hf. now apply Hfi.
    - intros f Hf. rewrite E. now apply (sorted_files_are_files s items). }
  unfold bind. unfold empty_notice, showing.
  destruct folders as [|x l], files as [|y l']; unfold show, ret;
    rewrite Hfolders, Hfiles by reflexivity;
    rewrite ?app_nil_r; now destruct s.
Qed.

Lemma script_after_bootstrap (ev : event) (s : session) :
  OS.is_dir (fs s) STORAGE_DIR = true ->
  script ev s = (sidebar ev ;; header ev ;; listing ev) s.
Proof.
  intros H. unfold script. unfold bind at 1.
  now rewrite (mkdir_exist_ok_existing _ _ H).
Qed.

(** A run whose event belongs to the listing goes straight to it. *)
Lemma script_listing (ev : event) (s : session) (rel : Path) :
  OS.is_dir (fs s) STORAGE_DIR = true ->
  PurePath.relative_to (current_path s) STORAGE_DIR = Some rel ->
  match ev with
  | Upload _ | CreateFolder _ | Home | Breadcrumb _ => False
  | _ => True
  end ->
  script ev s = listing ev s.
Proof.
  intros Hroot Hrel Hev. rewrite (script_after_bootstrap _ _ Hroot).
  pose proof (breadcrumbs_idle _ _ Hrel) as Hb.
  destruct ev; try contradiction;
    unfold bind, sidebar, header, home_button, ret; unfold bind;
    now rewrite Hb.
Qed.

(** ** What a computation leaves alone *)

Section Keeps.
Context {X : Type}.
Variable proj : session -> X.

Lemma keeps_ret {A} (a : A) : keeps proj (ret a).
Proof. intros s. reflexivity. Qed.

Lemma keeps_raise {A} (e : exn) : keeps proj (@raise A e).
Proof. intros s. reflexivity. Qed.

Lemma keeps_rerun {A} : keeps proj (@st_rerun A).
Proof. intros s. reflexivity. Qed.

Lemma keeps_read {A} (f : filesystem -> A) : keeps proj (read f).
Proof. intros s. reflexivity. Qed.

Lemma keeps_get_current_path : keeps proj get_current_path.
Proof. intros s. reflexivity. Qed.

Lemma keeps_query {A} (f : filesystem -> exn + A) : keeps proj (query f).
Proof. intros s. unfold query. now destruct (f (fs s)). Qed.

Lemma keeps_of_option {A} (e : exn) (o : option A) :
  keeps proj (of_option e o).
Proof. intros s. now destruct o. Qed.

Lemma keeps_bind {A B} (c : M A) (k : A -> M B) :
  keeps proj c -> (forall a, keeps proj (k a)) -> keeps proj (bind c k).
Proof.
  intros Hc Hk s. unfold bind. specialize (Hc s).
  destruct (c s) as [[sg|a] s1]; cbn [snd] in *; [exact Hc|].
  now rewrite Hk.
Qed.

Lemma keeps_try_except {A} (c : M A) (h : exn -> M A) :
  keeps proj c -> (forall e, keeps proj (h e)) -> keeps proj (try_except c h).
Proof.
  intros Hc Hh s. unfold try_except. specialize (Hc s).
  destruct (c s) as [[[e|]|a] s1]; cbn [snd] in *; try exact Hc.
  now rewrite Hh.
Qed.

Lemma keeps_for_each {A} (l : list A) (body : A -> M unit) :
  (forall x, keeps proj (body x)) -> keeps proj (for_each l body).
Proof.
  intros H. induction l as [|x l IH]; cbn [for_each].
  - apply keeps_ret.
  - apply keeps_bind; auto.
Qed.
End Keeps.

Lemma keeps_fs_show (m : message) : keeps fs (show m).
Proof. intros s. reflexivity. Qed.

Lemma keeps_fs_set_current_path (p : Path) : keeps fs (set_current_path p).
Proof. intros s. reflexivity. Qed.

Lemma keeps_cur_show (m : message) : keeps current_path (show m).
Proof. intros s. reflexivity. Qed.

Lemma keeps_cur_syscall (f : filesystem -> exn + filesystem) :
  keeps current_path (syscall f).
Proof. intros s. unfold syscall. now destruct (f (fs s)). Qed.

Ltac keeps_step :=
  first
    [ apply keeps_bind; [|intros ?]
    | apply keeps_try_except; [|intros ?]
    | apply keeps_for_each; intros ?
    | apply keeps_ret | apply keeps_raise | apply keeps_rerun
    | apply keeps_read | apply keeps_get_current_path | apply keeps_query
    | apply keeps_of_option | apply keeps_fs_show
    | apply keeps_fs_set_current_path | apply keeps_cur_show
    | apply keeps_cur_syscall ].

Ltac keeps_auto := repeat keeps_step.

Lemma keeps_options_of {X} (proj : session -> X) (l : list Path)
      (d : Py.dict) :
  keeps proj (options_of l d).
Proof.
  revert d. induction l as [|f l IH]; intros d; cbn [options_of].
  - apply keeps_ret.
  - apply keeps_bind; [apply keeps_of_option | intros k; apply IH].
Qed.

Lemma keeps_folder_options {X} (proj : session -> X) (file : Path) :
  keeps proj (folder_options file).
Proof.
  unfold folder_options, get_all_folders.
  apply keeps_bind; [|intros ?; apply keeps_options_of].
  apply keeps_bind; [apply keeps_read | intros ?].
  apply keeps_bind; [apply keeps_read | intros ?; apply keeps_ret].
Qed.

Lemma keeps_list_dir {X} (proj : session -> X) (folder : Path) :
  keeps proj (list_dir folder).
Proof.
  unfold list_dir.
  apply keeps_bind; [apply keeps_query | intros ?].
  apply keeps_bind; [apply keeps_read | intros ?].
  apply keeps_bind; [apply keeps_read | intros ?; apply keeps_ret].
Qed.

Lemma keeps_fs_breadcrumbs (clicked : option nat) :
  keeps fs (breadcrumbs clicked).
Proof.
  unfold breadcrumbs.
  apply keeps_bind; [apply keeps_get_current_path | intros cur].
  apply keeps_bind; [apply keeps_of_option | intros rel].
  apply keeps_for_each. intros i.
  destruct (i <? _)%nat; [|apply keeps_ret].
  destruct clicked as [j|]; [|apply keeps_ret].
  destruct (i =? j)%nat; keeps_auto.
Qed.

Lemma keeps_fs_listing (ev : event) :
  is_navigation ev = true -> keeps fs (listing ev).
Proof.
  intros Hev. unfold listing.
  apply keeps_try_except; [|intros e; apply keeps_fs_show].
  apply keeps_bind; [apply keeps_get_current_path | intros cur].
  apply keeps_bind; [apply keeps_list_dir | intros [folders files]].
  apply keeps_bind.
  { destruct folders, files; keeps_auto. }
  intros _. apply keeps_bind.
  - apply keeps_for_each. intros folder.
    destruct ev; try discriminate; cbn [folder_row]; try apply keeps_ret.
    destruct (PurePath.eqb folder0 folder); keeps_auto.
  - intros _. apply keeps_for_each. intros file. unfold file_row.
    apply keeps_bind; [apply keeps_query | intros _].
    apply keeps_bind.
    + unfold move_form.
      apply keeps_bind; [apply keeps_folder_options | intros options].
      destruct ev; try discriminate; apply keeps_ret.
    + intros _. destruct ev; try discriminate; apply keeps_ret.
Qed.

(** X1.  A run for an event that only looks or navigates (no event, Home,
    a breadcrumb, opening a folder) never changes the file system, whatever
    the current directory is, once the storage root exists. *)
Theorem navigation_keeps_fs (ev : event) (s : session) :
  is_navigation ev = true ->
  OS.is_dir (fs s) STORAGE_DIR = true ->
  fs (snd (script ev s)) = fs s.
Proof.
  intros Hev Hroot. rewrite (script_after_bootstrap _ _ Hroot).
  assert (K : keeps fs (sidebar ev ;; header ev ;; listing ev));
    [|exact (K s)].
  apply keeps_bind.
  { destruct ev; try discriminate; apply keeps_ret. }
  intros _. apply keeps_bind; [|intros _; now apply keeps_fs_listing].
  unfold header. apply keeps_bind; [|intros _; apply keeps_fs_breadcrumbs].
  unfold home_button. destruct ev; try discriminate; keeps_auto.
Qed.

Lemma navigation_keeps_fs_witness :
  fs (snd (script (OpenFolder (STORAGE_DIR // "Docs"))
             (initial_session fs_docs))) = fs_docs.
Proof.
  apply (navigation_keeps_fs (OpenFolder (STORAGE_DIR // "Docs"))
           (initial_session fs_docs)); reflexivity.
Defined.

(** ** Redraw, Home and the breadcrumbs *)

(** X2.  When the storage root exists and the current directory is an
    existing folder below it, a run without event ends normally, changes
    neither the file system nor the current directory, and shows no error:
    the only message it can add is the notice of an empty folder, shown
    exactly when the folder has neither sub-folders nor files. *)
Theorem redraw_shows_no_error (s : session) (rel : Path)
        (items : list Path) :
  OS.is_dir (fs s) STORAGE_DIR = true ->
  PurePath.relative_to (current_path s) STORAGE_DIR = Some rel ->
  OS.iterdir (fs s) (current_path s) = inr items ->
  script NoEvent s =
  (inr tt,
   showing s
     (empty_notice
        (Py.sorted name_key (filter (OS.is_dir (fs s)) items))
        (Py.sorted name_key (filter (OS.is_file (fs s)) items)))).
Proof.
  intros Hroot Hrel Hit. rewrite (script_listing NoEvent _ _ Hroot Hrel I).
  apply listing_idle; [exact Hit | discriminate | discriminate].
Qed.

Lemma redraw_shows_no_error_witness :
  script NoEvent (initial_session fs_docs)
  = (inr tt, initial_session fs_docs)
  /\ script NoEvent (initial_session fs_empty)
     = (inr tt, mkSession STORAGE_DIR fs_empty [info_folder_empty]).
Proof.
  split.
  - apply (redraw_shows_no_error (initial_session fs_docs)
             (mkPath EmptyString [])
             [STORAGE_DIR // "a.txt"; STORAGE_DIR // "Docs"]);
      reflexivity.
  - apply (redraw_shows_no_error (initial_session fs_empty)
             (mkPath EmptyString []) []); reflexivity.
Defined.

Lemma iterdir_of_dir (fs : filesystem) (p : Path) :
  OS.is_dir fs p = true -> exists items, OS.iterdir fs p = inr items.
Proof.
  intros H. destruct (is_dir_stat _ _ H) as [es Hes].
  unfold OS.iterdir. rewrite Hes. eauto.
Qed.

Lemma redraw_lists_root (s : session) (items : list Path) :
  OS.is_dir (fs s) STORAGE_DIR = true ->
  OS.iterdir (fs s) STORAGE_DIR = inr items ->
  current_path s = STORAGE_DIR ->
  shown s = [] ->
  script NoEvent s =
  (inr tt,
   mkSession STORAGE_DIR (fs s)
     (empty_notice
        (Py.sorted name_key (filter (OS.is_dir (fs s)) items))
        (Py.sorted name_key (filter (OS.is_file (fs s)) items)))).
Proof.
  intros Hroot Hit Hcur Hshown.
  assert (Hrel : PurePath.relative_to (current_path s) STORAGE_DIR
                 = Some (mkPath EmptyString [])) by now rewrite Hcur.
  rewrite (script_listing NoEvent _ _ Hroot Hrel I).
  rewrite (listing_idle NoEvent s items); [| now rewrite Hcur | discriminate
                                           | discriminate].
  unfold showing. now rewrite Hcur, Hshown.
Qed.

Lemma script_home (s : session) :
  OS.is_dir (fs s) STORAGE_DIR = true ->
  script Home s = (inl Rerun, mkSession STORAGE_DIR (fs s) (shown s)).
Proof.
  intros Hroot. now rewrite (script_after_bootstrap _ _ Hroot).
Qed.

(** X3.  Once the storage root exists, the Home button leads there from
    every session, also from one whose current directory is gone or lies
    elsewhere, and the run that follows lists the root without error. *)
Theorem home_recovers (s : session) :
  OS.is_dir (fs s) STORAGE_DIR = true ->
  script Home s = (inl Rerun, mkSession STORAGE_DIR (fs s) (shown s))
  /\ exists folders files,
       script NoEvent (after Home s) =
       (inr tt, mkSession STORAGE_DIR (fs s) (empty_notice folders files)).
Proof.
  intros Hroot. split; [now apply script_home|].
  unfold after. rewrite (script_home _ Hroot). cbn [snd current_path fs].
  destruct (iterdir_of_dir _ _ Hroot) as [items Hit].
  do 2 eexists.
  apply (redraw_lists_root (mkSession STORAGE_DIR (fs s) []) items Hroot Hit);
    reflexivity.
Qed.

Lemma home_recovers_witness :
  let stale := mkSession (STORAGE_DIR // "gone") fs_docs [] in
  script Home stale = (inl Rerun, mkSession STORAGE_DIR fs_docs [])
  /\ exists folders files,
       script NoEvent (after Home stale) =
       (inr tt, mkSession STORAGE_DIR fs_docs (empty_notice folders files)).
Proof.
  apply (home_recovers (mkSession (STORAGE_DIR // "gone") fs_docs [])).
  reflexivity.
Defined.

Lemma Forall_firstn_valid (k : nat) (l : list string) :
  Forall (fun n => valid_name n = true) l ->
  Forall (fun n => valid_name n = true) (firstn k l).
Proof.
  intros H. revert k. induction H as [|n l Hn _ IH]; intros [|k];
    cbn [firstn]; constructor; auto.
Qed.

Lemma joinpath_all_valid (l : list string) (p : Path) :
  Forall (fun n => valid_name n = true) l ->
  PurePath.joinpath_all p l = mkPath (root p) (tail p ++ l).
Proof.
  intros H. revert p. unfold PurePath.joinpath_all.
  induction H as [|n l Hn _ IH]; intros p; cbn [fold_left].
  - rewrite app_nil_r. now destruct p.
  - rewrite IH, (joinpath_valid_name _ _ Hn). cbn [root tail].
    now rewrite <- app_assoc.
Qed.

Lemma relative_to_below (rel : list string) :
  PurePath.relative_to (below_storage rel) STORAGE_DIR
  = Some (mkPath EmptyString rel).
Proof. reflexivity. Qed.

Lemma breadcrumbs_run (clicked : option nat) (s : session)
      (rel : list string) :
  current_path s = below_storage rel ->
  breadcrumbs clicked s =
  for_each (seq 0 (List.length rel))
    (fun i =>
       if (i <? List.length rel - 1)%nat then
         match clicked with
         | Some j =>
             if (i =? j)%nat then
               set_current_path
                 (PurePath.joinpath_all STORAGE_DIR (firstn (i + 1) rel)) ;;
               st_rerun
             else ret tt
         | None => ret tt
         end
       else ret tt) s.
Proof.
  intros Hcur. unfold breadcrumbs, bind at 1, get_current_path.
  rewrite Hcur, relative_to_below. reflexivity.
Qed.

(** The breadcrumb row when crumb [i] is clicked and is a button. *)
Lemma breadcrumbs_click (s : session) (rel : list string) (i : nat) :
  current_path s = below_storage rel ->
  i + 1 < List.length rel ->
  breadcrumbs (Some i) s =
  (inl Rerun,
   mkSession (PurePath.joinpath_all STORAGE_DIR (firstn (i + 1) rel))
     (fs s) (shown s)).
Proof.
  intros Hcur Hi. rewrite (breadcrumbs_run _ _ _ Hcur).
  apply (for_each_hit_signal _ i).
  - apply in_seq. lia.
  - intros j _ Hj. destruct (j <? _)%nat; [|reflexivity].
    destruct (Nat.eqb_spec j i); [contradiction | reflexivity].
  - apply Nat.eq_dec.
  - assert (E : (i <? List.length rel - 1)%nat = true)
      by (apply Nat.ltb_lt; lia).
    rewrite E, Nat.eqb_refl. reflexivity.
Qed.

(** The breadcrumb row when the click is on no button. *)
Lemma breadcrumbs_inert (s : session) (rel : list string) (i : nat) :
  current_path s = below_storage rel ->
  List.length rel <= i + 1 ->
  breadcrumbs (Some i) s = breadcrumbs None s.
Proof.
  intros Hcur Hi. rewrite !(breadcrumbs_run _ _ _ Hcur).
  transitivity (@inr signal unit tt, s);
    [|symmetry]; apply for_each_skip; intros j _.
  - destruct (Nat.ltb_spec j (List.length rel - 1)); [|reflexivity].
    destruct (Nat.eqb_spec j i); [lia | reflexivity].
  - now destruct (j <? _)%nat.
Qed.

(** A run whose event is a click on a breadcrumb. *)
Lemma script_breadcrumb (s : session) (i : nat) :
  OS.is_dir (fs s) STORAGE_DIR = true ->
  script (Breadcrumb i) s =
  match breadcrumbs (Some i) s with
  | (inr _, s1) => listing (Breadcrumb i) s1
  | (inl sg, s1) => (inl sg, s1)
  end.
Proof.
  intros Hroot. rewrite (script_after_bootstrap _ _ Hroot).
  unfold bind at 1. cbn [sidebar]. unfold ret at 1.
  unfold header, bind at 1. cbn [home_button]. unfold bind at 1, ret at 1.
  reflexivity.
Qed.

(** X4.  Clicking the breadcrumb of an ancestor folder (any crumb but the
    last) of a current directory made of valid names moves the current
    directory to that ancestor, the folder named by the first [i + 1]
    components, asks for a rerun and changes nothing else. *)
Theorem breadcrumb_navigates (s : session) (rel : list string) (i : nat) :
  OS.is_dir (fs s) STORAGE_DIR = true ->
  current_path s = below_storage rel ->
  Forall (fun n => valid_name n = true) rel ->
  i + 1 < List.length rel ->
  script (Breadcrumb i) s =
  (inl Rerun,
   mkSession (below_storage (firstn (i + 1) rel)) (fs s) (shown s)).
Proof.
  intros Hroot Hcur Hrel Hi.
  rewrite (script_breadcrumb _ _ Hroot), (breadcrumbs_click _ _ _ Hcur Hi).
  rewrite joinpath_all_valid by now apply Forall_firstn_valid.
  reflexivity.
Qed.

Lemma breadcrumb_navigates_witness :
  script (Breadcrumb 0)
    (mkSession (below_storage ["A"; "B"; "C"]) fs_nested [])
  = (inl Rerun, mkSession (below_storage ["A"]) fs_nested []).
Proof.
  apply (breadcrumb_navigates
           (mkSession (below_storage ["A"; "B"; "C"]) fs_nested [])
           ["A"; "B"; "C"] 0);
    [reflexivity | reflexivity | repeat constructor | simpl; lia].
Defined.

Lemma keeps_cur_mkdir_exist_ok (p : Path) :
  keeps current_path (mkdir_exist_ok p).
Proof.
  unfold mkdir_exist_ok.
  apply keeps_try_except; [apply keeps_cur_syscall | intros e].
  destruct e; try apply keeps_raise; cbn [is_OSError];
    (apply keeps_bind; [apply keeps_read | intros d]);
    destruct d; keeps_auto.
Qed.

(** X5.  The last breadcrumb is not a button: an event for it, or for an
    index beyond the crumbs, navigates nowhere, and the run is the run
    without event. *)
Theorem breadcrumb_last_is_inert (s : session) (rel : list string)
        (i : nat) :
  current_path s = below_storage rel ->
  List.length rel <= i + 1 ->
  script (Breadcrumb i) s = script NoEvent s.
Proof.
  intros Hcur Hi. unfold script.
  change (listing (Breadcrumb i)) with (listing NoEvent).
  unfold header, home_button. cbn [sidebar]. unfold bind, ret.
  pose proof (keeps_cur_mkdir_exist_ok STORAGE_DIR s) as Hk.
  destruct (mkdir_exist_ok STORAGE_DIR s) as [[sg|[]] s1]; [reflexivity|].
  cbn [snd] in Hk. rewrite <- Hk in Hcur.
  now rewrite (breadcrumbs_inert _ _ _ Hcur Hi).
Qed.

Lemma breadcrumb_last_is_inert_witness :
  script (Breadcrumb 2)
    (mkSession (below_storage ["A"; "B"; "C"]) fs_nested [])
  = script NoEvent (mkSession (below_storage ["A"; "B"; "C"]) fs_nested []).
Proof.
  apply (breadcrumb_last_is_inert
           (mkSession (below_storage ["A"; "B"; "C"]) fs_nested [])
           ["A"; "B"; "C"] 2); [reflexivity | simpl; lia].
Defined.

(** ** The rows of the listing *)

Lemma file_target_not_folder (ev : event) (f : Path) :
  file_target ev = Some f -> folder_target ev = None.
Proof. destruct ev; try discriminate; reflexivity. Qed.

(** The listing when the row of a listed folder ends the run. *)
Lemma listing_folder_hit (ev : event) (s s' : session) (items : list Path)
      (f : Path) (sg : signal) :
  OS.iterdir (fs s) (current_path s) = inr items ->
  In f items ->
  OS.is_dir (fs s) f = true ->
  folder_target ev = Some f ->
  folder_row ev f s = (inl sg, s') ->
  listing ev s = listing_outcome sg s'.
Proof.
  intros Hit Hin Hdir Hev Hrow.
  unfold listing, try_except, bind at 1, get_current_path.
  unfold bind at 1. rewrite (list_dir_run _ _ _ Hit).
  set (folders := Py.sorted name_key (filter (OS.is_dir (fs s)) items)).
  set (files := Py.sorted name_key (filter (OS.is_file (fs s)) items)).
  assert (Hf : In f folders)
    by (unfold folders; rewrite sorted_In, filter_In; tauto).
  assert (Hloop : for_each folders (folder_row ev) s = (inl sg, s')).
  { apply (for_each_hit_signal _ f); auto using path_eq_dec.
    intros x _ Hx. apply folder_row_other. congruence. }
  unfold bind at 1.
  assert (E : (match folders, files with
               | [], [] => show info_folder_empty
               | _, _ => ret tt
               end) s = (inr tt, s)) by now destruct folders.
  rewrite E. unfold bind at 1. rewrite Hloop. now destruct sg.
Qed.

(** The listing when the row of a listed file ends the run. *)
Lemma listing_file_hit (ev : event) (s s' : session) (items : list Path)
      (f : Path) (sg : signal) :
  OS.iterdir (fs s) (current_path s) = inr items ->
  In f items ->
  OS.is_file (fs s) f = true ->
  file_target ev = Some f ->
  file_row ev f s = (inl sg, s') ->
  listing ev s = listing_outcome sg s'.
Proof.
  intros Hit Hin Hfile Hev Hrow.
  unfold listing, try_except, bind at 1, get_current_path.
  unfold bind at 1. rewrite (list_dir_run _ _ _ Hit).
  set (folders := Py.sorted name_key (filter (OS.is_dir (fs s)) items)).
  set (files := Py.sorted name_key (filter (OS.is_file (fs s)) items)).
  assert (Hf : In f files)
    by (unfold files; rewrite sorted_In, filter_In; tauto).
  assert (Hfolders : for_each folders (folder_row ev) s = (inr tt, s)).
  { apply for_each_folders_idle. intros x _.
    rewrite (file_target_not_folder _ _ Hev). discriminate. }
  assert (Hloop : for_each files (file_row ev) s = (inl sg, s')).
  { apply (for_each_hit_signal _ f); auto using path_eq_dec.
    intros x Hx Hne. apply file_row_other; [congruence|].
    now apply (sorted_files_are_files s items). }
  unfold bind at 1.
  assert (E : (match folders, files with
               | [], [] => show info_folder_empty
               | _, _ => ret tt
               end) s = (inr tt, s)) by now destruct folders, files.
  rewrite E. unfold bind at 1. rewrite Hfolders. cbv beta iota.
  rewrite Hloop. now destruct sg.
Qed.

(** The listing of a folder that cannot be enumerated. *)
Lemma listing_fails (ev : event) (s : session) (e : exn) :
  OS.iterdir (fs s) (current_path s) = inl e ->
  listing ev s = (inr tt, showing s [error_occurred e]).
Proof.
  intros Hit. unfold listing, try_except, bind at 1, get_current_path.
  unfold bind at 1. now rewrite (list_dir_fails _ _ _ Hit).
Qed.

Lemma listing_open_folder (s : session) (items : list Path)
      (folder : Path) :
  OS.iterdir (fs s) (current_path s) = inr items ->
  In folder items ->
  OS.is_dir (fs s) folder = true ->
  listing (OpenFolder folder) s =
  (inl Rerun, mkSession folder (fs s) (shown s)).
Proof.
  intros Hit Hin Hdir.
  rewrite (listing_folder_hit (OpenFolder folder) s
             (mkSession folder (fs s) (shown s)) items folder Rerun
             Hit Hin Hdir eq_refl); [reflexivity|].
  cbn [folder_row]. now rewrite path_eqb_refl.
Qed.

(** X6.  Opening a folder that the listing shows (an entry of the current
    directory that is a directory) makes it the current directory and asks
    for a rerun; nothing else changes. *)
Theorem open_folder_enters (s : session) (rel : Path) (items : list Path)
        (folder : Path) :
  OS.is_dir (fs s) STORAGE_DIR = true ->
  PurePath.relative_to (current_path s) STORAGE_DIR = Some rel ->
  OS.iterdir (fs s) (current_path s) = inr items ->
  In folder items ->
  OS.is_dir (fs s) folder = true ->
  script (OpenFolder folder) s =
  (inl Rerun, mkSession folder (fs s) (shown s)).
Proof.
  intros Hroot Hrel Hit Hin Hdir.
  rewrite (script_listing (OpenFolder folder) _ _ Hroot Hrel I).
  now apply (listing_open_folder s items).
Qed.

Lemma open_folder_enters_witness :
  script (OpenFolder (STORAGE_DIR // "Docs")) (initial_session fs_docs)
  = (inl Rerun, mkSession (STORAGE_DIR // "Docs") fs_docs []).
Proof.
  apply (open_folder_enters (initial_session fs_docs)
           (mkPath EmptyString [])
           [STORAGE_DIR // "a.txt"; STORAGE_DIR // "Docs"]
           (STORAGE_DIR // "Docs"));
    try reflexivity.
  right. now left.
Defined.

Lemma listing_open_ignored (s : session) (folder : Path) :
  (forall items,
     OS.iterdir (fs s) (current_path s) = inr items ->
     In folder items -> OS.is_dir (fs s) folder = true -> False) ->
  listing (OpenFolder folder) s = listing NoEvent s.
Proof.
  intros Hno.
  destruct (OS.iterdir (fs s) (current_path s)) as [e|items] eqn:Hit.
  - now rewrite !(listing_fails _ _ _ Hit).
  - rewrite (listing_idle (OpenFolder folder) s items Hit),
      (listing_idle NoEvent s items Hit); try discriminate; [reflexivity|].
    intros f Hf Hd [= ->]. exact (Hno items eq_refl Hf Hd).
Qed.

(** X7.  An event that opens a path the listing does not show as a folder
    (not an entry of the current directory, or not a directory) is ignored:
    the run is the run without event. *)
Theorem open_unlisted_is_ignored (s : session) (rel : Path)
        (folder : Path) :
  OS.is_dir (fs s) STORAGE_DIR = true ->
  PurePath.relative_to (current_path s) STORAGE_DIR = Some rel ->
  (forall items,
     OS.iterdir (fs s) (current_path s) = inr items ->
     In folder items -> OS.is_dir (fs s) folder = true -> False) ->
  script (OpenFolder folder) s = script NoEvent s.
Proof.
  intros Hroot Hrel Hno.
  rewrite (script_listing (OpenFolder folder) _ _ Hroot Hrel I),
    (script_listing NoEvent _ _ Hroot Hrel I).
  now apply listing_open_ignored.
Qed.

Lemma open_unlisted_is_ignored_witness :
  script (OpenFolder (STORAGE_DIR // "a.txt")) (initial_session fs_docs)
  = script NoEvent (initial_session fs_docs).
Proof.
  apply (open_unlisted_is_ignored (initial_session fs_docs)
           (mkPath EmptyString []) (STORAGE_DIR // "a.txt"));
    try reflexivity.
  intros items _ _ H. discriminate H.
Defined.

(** ** The current directory stays below the storage root *)

Lemma keeps_cur_handle_rename (old_path : Path) (new_name : string) :
  keeps current_path (handle_rename old_path new_name).
Proof.
  unfold handle_rename.
  destruct (negb (PyStr.truthy (PyStr.strip new_name)));
    [apply keeps_cur_show|].
  apply keeps_bind; [apply keeps_read | intros taken].
  destruct taken; keeps_auto.
Qed.

Lemma keeps_cur_breadcrumbs_idle : keeps current_path (breadcrumbs None).
Proof.
  unfold breadcrumbs.
  apply keeps_bind; [apply keeps_get_current_path | intros cur].
  apply keeps_bind; [apply keeps_of_option | intros rel].
  apply keeps_for_each. intros i. destruct (i <? _)%nat; apply keeps_ret.
Qed.

Lemma keeps_cur_listing (ev : event) :
  match ev with OpenFolder _ => False | _ => True end ->
  keeps current_path (listing ev).
Proof.
  intros Hev. unfold listing.
  apply keeps_try_except; [|intros e; apply keeps_cur_show].
  apply keeps_bind; [apply keeps_get_current_path | intros cur].
  apply keeps_bind; [apply keeps_list_dir | intros [folders files]].
  apply keeps_bind.
  { destruct folders, files; keeps_auto. }
  intros _. apply keeps_bind.
  - apply keeps_for_each. intros folder.
    destruct ev; try contradiction; cbn [folder_row]; try apply keeps_ret;
      (destruct (PurePath.eqb folder0 folder); [|apply keeps_ret]).
    + apply keeps_cur_handle_rename.
    + keeps_auto.
  - intros _. apply keeps_for_each. intros file. unfold file_row.
    apply keeps_bind; [apply keeps_query | intros _].
    apply keeps_bind.
    + unfold move_form.
      apply keeps_bind; [apply keeps_folder_options | intros options].
      destruct ev; try apply keeps_ret.
      destruct (PurePath.eqb file0 file); keeps_auto.
    + intros _. destruct ev; try apply keeps_ret;
        (destruct (PurePath.eqb file0 file); [|apply keeps_ret]).
      * apply keeps_cur_handle_rename.
      * keeps_auto.
Qed.

(** Only Home, a breadcrumb and opening a folder move the current
    directory. *)
Lemma keeps_cur_script (ev : event) :
  match ev with
  | Home | Breadcrumb _ | OpenFolder _ => False
  | _ => True
  end ->
  keeps current_path (script ev).
Proof.
  intros Hev. unfold script.
  apply keeps_bind; [apply keeps_cur_mkdir_exist_ok | intros _].
  apply keeps_bind.
  { destruct ev; try apply keeps_ret; cbn [sidebar].
    - unfold upload. destruct uploaded_files; [apply keeps_ret|].
      apply keeps_bind; [|intros _; keeps_auto].
      apply keeps_for_each. intros up. unfold save_upload. keeps_auto.
    - unfold new_folder_form.
      destruct (true && PyStr.truthy folder_name); [|apply keeps_ret].
      apply keeps_bind; [apply keeps_get_current_path | intros cur].
      apply keeps_bind; [apply keeps_read | intros taken].
      destruct taken; keeps_auto. }
  intros _. apply keeps_bind.
  - unfold header, home_button.
    destruct ev; try contradiction;
      (apply keeps_bind; [apply keeps_ret | intros _]);
      apply keeps_cur_breadcrumbs_idle.
  - intros _. apply keeps_cur_listing. now destruct ev.
Qed.

Lemma iterdir_entry (fs : filesystem) (p f : Path) (items : list Path) :
  OS.iterdir fs p = inr items ->
  In f items ->
  exists cb es n c,
    OS.get (tree fs) cb = Some (Dir es) /\ In (n, c) es
    /\ f = mkPath (root p) (tail p ++ [n]).
Proof.
  unfold OS.iterdir, OS.stat.
  destruct (OS.locate fs p) as [e|[cb|d n]]; try discriminate.
  destruct (OS.get (tree fs) cb) as [[| es |]|] eqn:Hget; try discriminate.
  intros [= <-] Hin. apply in_map_iff in Hin.
  destruct Hin as ([n c] & <- & Hin). now exists cb, es, n, c.
Qed.

(** X8.  In a file system whose entries have valid names and whose storage
    root exists, a current directory that is a folder below the storage
    root (named by valid components) stays one through every run of the
    script, whatever the event. *)
Theorem current_path_stays_below_root (ev : event) (s : session) :
  OS.is_dir (fs s) STORAGE_DIR = true ->
  names_valid (tree (fs s)) ->
  below_root (current_path s) ->
  below_root (current_path (snd (script ev s))).
Proof.
  intros Hroot Hnames (rel & Hcur & Hrel).
  assert (Hidle : below_root (current_path (snd (script NoEvent s)))).
  { rewrite (keeps_cur_script NoEvent I s). now exists rel. }
  assert (Hr : PurePath.relative_to (current_path s) STORAGE_DIR
               = Some (mkPath EmptyString rel))
    by now rewrite Hcur.
  destruct ev;
    try (match goal with
         | |- context [script ?e s] =>
             rewrite (keeps_cur_script e I s); now exists rel
         end).
  - rewrite (script_home _ Hroot). exists []. split; [reflexivity|constructor].
  - rewrite (script_breadcrumb _ _ Hroot).
    destruct (Nat.lt_ge_cases (i + 1) (List.length rel)) as [Hi|Hi].
    + rewrite (breadcrumbs_click _ _ _ Hcur Hi). cbn [snd current_path].
      rewrite joinpath_all_valid by now apply Forall_firstn_valid.
      exists (firstn (i + 1) rel). split; [reflexivity|].
      now apply Forall_firstn_valid.
    + rewrite (breadcrumbs_inert _ _ _ Hcur Hi), (breadcrumbs_idle _ _ Hr).
      change (listing (Breadcrumb i)) with (listing NoEvent).
      now rewrite <- (script_listing NoEvent _ _ Hroot Hr I).
  - rewrite (script_listing (OpenFolder folder) _ _ Hroot Hr I).
    rewrite (script_listing NoEvent _ _ Hroot Hr I) in Hidle.
    destruct (OS.iterdir (fs s) (current_path s)) as [e|items] eqn:Hit.
    { rewrite listing_open_ignored; [exact Hidle|].
      intros items Hit'. congruence. }
    destruct (in_dec path_eq_dec folder items) as [Hin|Hin].
    + destruct (OS.is_dir (fs s) folder) eqn:Hdir.
      * rewrite (listing_open_folder _ _ _ Hit Hin Hdir).
        destruct (iterdir_entry _ _ _ _ Hit Hin)
          as (cb & es & n & c & Hget & Hn & ->).
        exists (rel ++ [n]). cbn [snd current_path]. rewrite Hcur. split.
        -- unfold below_storage. cbn [root tail]. now rewrite <- app_assoc.
        -- apply Forall_app. split; [exact Hrel|].
           constructor; [|constructor]. exact (Hnames _ _ _ _ Hget Hn).
      * rewrite listing_open_ignored; [exact Hidle|].
        intros items' _ _ H. congruence.
    + rewrite listing_open_ignored; [exact Hidle|].
      intros items' Hit' H _. congruence.
Qed.

Lemma names_ok_valid (t : node) : names_ok t = true -> names_valid t.
Proof.
  intros Hok cb. revert t Hok.
  induction cb as [|a cb IH]; intros t Hok es n c Hget Hin.
  - injection Hget as ->. cbn [names_ok] in Hok.
    rewrite forallb_forall in Hok. specialize (Hok _ Hin).
    now apply andb_true_iff in Hok.
  - cbn [OS.get] in Hget. destruct t as [| es0 |]; try discriminate.
    destruct (OS.lookup a es0) as [c0|] eqn:Ha; [|discriminate].
    apply lookup_In in Ha. cbn [names_ok] in Hok.
    rewrite forallb_forall in Hok. specialize (Hok _ Ha).
    apply andb_true_iff in Hok. destruct Hok as [_ Hok].
    exact (IH c0 Hok es n c Hget Hin).
Qed.

Lemma current_path_stays_below_root_witness :
  below_root
    (current_path
       (snd (script (OpenFolder (STORAGE_DIR // "Docs"))
               (initial_session fs_docs)))).
Proof.
  apply (current_path_stays_below_root (OpenFolder (STORAGE_DIR // "Docs"))
           (initial_session fs_docs)).
  - reflexivity.
  - apply names_ok_valid. reflexivity.
  - exists []. split; [reflexivity | constructor].
Defined.

(** ** Renaming: outcomes *)

Lemma handle_rename_blank_run (old_path : Path) (new_name : string)
      (s : session) :
  PyStr.truthy (PyStr.strip new_name) = false ->
  handle_rename old_path new_name s = (inr tt, showing s [warning_name_empty]).
Proof. intros H. unfold handle_rename. now rewrite H. Qed.


Lemma rstrip_empty_all_space (s : string) :
  PyStr.rstrip s = EmptyString <-> all_space s = true.
Proof.
  induction s as [|c s IH]; cbn [PyStr.rstrip all_space]; [tauto|].
  destruct (PyStr.rstrip s) eqn:E.
  - destruct (PyStr.is_space c); cbn [andb].
    + split; intros _; [now apply IH | reflexivity].
    + split; discriminate.
  - split; [discriminate|]. rewrite andb_true_iff. intros [_ H].
    apply IH in H. discriminate.
Qed.

Lemma lstrip_all_space (s : string) :
  all_space (PyStr.lstrip s) = all_space s.
Proof.
  induction s as [|c s IH]; cbn [PyStr.lstrip all_space]; [reflexivity|].
  destruct (PyStr.is_space c) eqn:E; cbn [andb all_space]; [exact IH|].
  now rewrite E.
Qed.

(** A string strips to nothing exactly when it is white space only. *)
Lemma strip_empty_all_space (s : string) :
  PyStr.strip s = EmptyString <-> all_space s = true.
Proof.
  unfold PyStr.strip. now rewrite rstrip_empty_all_space, lstrip_all_space.
Qed.

Lemma truthy_strip (s : string) :
  PyStr.truthy (PyStr.strip s) = negb (all_space s).
Proof.
  pose proof (strip_empty_all_space s) as H.
  destruct (PyStr.strip s) eqn:E, (all_space s) eqn:E'; try reflexivity.
  - discriminate (proj1 H eq_refl).
  - discriminate (proj2 H eq_refl).
Qed.

(** X10.  A new name is refused with the "cannot be empty" warning exactly
    when it consists of white space only (spaces, tabs, line breaks, or
    nothing at all); then nothing else happens.  Any other name gets past
    the warning. *)
Theorem handle_rename_blank_name (old_path : Path) (new_name : string)
        (s : session) :
  (all_space new_name = true ->
   handle_rename old_path new_name s
   = (inr tt, showing s [warning_name_empty]))
  /\ (all_space new_name = false ->
      ~ In warning_name_empty
          (skipn (List.length (shown s))
             (shown (snd (handle_rename old_path new_name s))))).
Proof.
  split; intros H.
  - apply handle_rename_blank_run. now rewrite truthy_strip, H.
  - assert (Ht : PyStr.truthy (PyStr.strip new_name) = true)
      by now rewrite truthy_strip, H.
    rewrite (handle_rename_run _ _ _ Ht). cbv zeta.
    destruct (OS.exists_ _ _); [|destruct (OS.rename _ _ _)];
      cbn [snd shown];
      rewrite skipn_app, Nat.sub_diag, skipn_all; cbn [skipn app];
      intros [E|[]]; discriminate.
Qed.

Lemma handle_rename_blank_name_witness :
  handle_rename (STORAGE_DIR // "a.txt") "  	 " (initial_session fs_docs)
  = (inr tt, mkSession STORAGE_DIR fs_docs [warning_name_empty])
  /\ ~ In warning_name_empty
         (shown (snd (handle_rename (STORAGE_DIR // "a.txt") " b "
                        (initial_session fs_docs)))).
Proof.
  split.
  - apply (proj1 (handle_rename_blank_name (STORAGE_DIR // "a.txt") "  	 "
                    (initial_session fs_docs))). reflexivity.
  - apply (proj2 (handle_rename_blank_name (STORAGE_DIR // "a.txt") " b "
                    (initial_session fs_docs))). reflexivity.
Defined.



(** ** Renaming: what moves and what stays *)

Lemma lookup_remove_other (k m : string) (es : OS.entries_t) :
  k <> m -> OS.lookup k (OS.remove_entry m es) = OS.lookup k es.
Proof.
  intros Hne. induction es as [|[a c] es IH]; [reflexivity|].
  cbn [OS.remove_entry OS.lookup].
  destruct (String.eqb_spec a m) as [->|Ham].
  - destruct (String.eqb_spec m k) as [->|_]; [congruence | reflexivity].
  - cbn [OS.lookup]. now rewrite IH.
Qed.

Lemma lookup_none_not_in (k : string) (es : OS.entries_t) :
  ~ In k (map fst es) -> OS.lookup k es = None.
Proof.
  induction es as [|[a c] es IH]; [reflexivity|]. cbn [map fst OS.lookup].
  intros H. destruct (String.eqb_spec a k) as [->|_].
  - elim H. now left.
  - apply IH. intros Hin. apply H. now right.
Qed.

Lemma lookup_remove_same (m : string) (es : OS.entries_t) :
  NoDup (map fst es) -> OS.lookup m (OS.remove_entry m es) = None.
Proof.
  induction es as [|[a c] es IH]; [reflexivity|].
  cbn [map fst OS.remove_entry]. intros Hnd.
  inversion Hnd as [|? ? Ha Hnd']; subst.
  destruct (String.eqb_spec a m) as [->|Ham].
  - now apply lookup_none_not_in.
  - cbn [OS.lookup]. apply String.eqb_neq in Ham. rewrite Ham. now apply IH.
Qed.

Lemma lookup_remove_none (k m : string) (es : OS.entries_t) :
  OS.lookup k es = None -> OS.lookup k (OS.remove_entry m es) = None.
Proof.
  induction es as [|[a c] es IH]; [reflexivity|].
  cbn [OS.remove_entry OS.lookup].
  destruct (String.eqb_spec a k) as [->|Hak]; [discriminate|].
  intros H. destruct (String.eqb a m); [exact H|].
  cbn [OS.lookup]. apply String.eqb_neq in Hak. rewrite Hak. now apply IH.
Qed.

Lemma get_child (t : node) (cb q : list string) (k : string)
      (es : OS.entries_t) :
  OS.get t cb = Some (Dir es) ->
  OS.get t (cb ++ k :: q) =
  match OS.lookup k es with Some c => OS.get c q | None => None end.
Proof. intros H. rewrite get_app, H. reflexivity. Qed.

(** X12.  A successful rename within a directory moves the node as a
    unit: whatever was found below the old name (the node itself, and for
    a folder every descendant) is found below the new, stripped name; the
    other entries of the directory and everything below them are as
    before; and when the names of the directory are distinct, nothing is
    left at the old name. *)
Theorem rename_moves_subtree (s s' : session) (old_path : Path)
        (new_name : string) (cb : list string) (es : OS.entries_t) :
  handle_rename old_path new_name s = (inl Rerun, s') ->
  valid_name (PyStr.strip new_name) = true ->
  valid_name (PurePath.name old_path) = true ->
  OS.locate (fs s) (PurePath.parent old_path) = inr (OS.Existing cb) ->
  OS.get (tree (fs s)) cb = Some (Dir es) ->
  (forall q,
     OS.get (tree (fs s')) (cb ++ PyStr.strip new_name :: q)
     = OS.get (tree (fs s)) (cb ++ PurePath.name old_path :: q))
  /\ (forall k q,
        k <> PurePath.name old_path -> k <> PyStr.strip new_name ->
        OS.get (tree (fs s')) (cb ++ k :: q)
        = OS.get (tree (fs s)) (cb ++ k :: q))
  /\ (NoDup (map fst es) ->
      forall q,
        OS.get (tree (fs s')) (cb ++ PurePath.name old_path :: q) = None).
Proof.
  intros Hrun Hn Hm Hloc Hget.
  rewrite (handle_rename_run _ _ _ (valid_name_truthy _ Hn)) in Hrun.
  cbv zeta in Hrun.
  destruct (OS.exists_ (fs s)
              (PurePath.parent old_path // PyStr.strip new_name)) eqn:Hfree;
    [discriminate|].
  destruct (OS.rename (fs s) old_path
              (PurePath.parent old_path // PyStr.strip new_name))
    as [e|fs'] eqn:Hren; [discriminate|].
  injection Hrun as <-.
  destruct (rename_in_directory _ _ _ _ _ Hm Hn Hloc Hfree Hren)
    as (es0 & v & Hget0 & Hv & Hnone & ->).
  rewrite Hget in Hget0. injection Hget0 as <-.
  set (m := PurePath.name old_path) in *.
  set (n := PyStr.strip new_name) in *.
  assert (Hget' : OS.get (tree (fs (mkSession (current_path s)
                     (mkFS (OS.alter cb
                        (fun d => OS.on_entries (OS.add_entry n v)
                                    (OS.on_entries (OS.remove_entry m) d))
                        (tree (fs s))) (cwd (fs s)))
                     (shown s ++ [success_renamed new_name])))) cb
                  = Some (Dir (OS.remove_entry m es ++ [(n, v)]))).
  { cbn [fs tree]. now rewrite get_alter, Hget. }
  assert (Hmn : m <> n) by (intros E; rewrite E in Hv; congruence).
  split; [|split].
  - intros q. rewrite (get_child _ _ q n _ Hget'), (get_child _ _ q m _ Hget).
    rewrite lookup_app, (lookup_remove_none _ m _ Hnone), Hv.
    cbn [OS.lookup]. now rewrite String.eqb_refl.
  - intros k q Hkm Hkn.
    rewrite (get_child _ _ q k _ Hget'), (get_child _ _ q k _ Hget).
    rewrite lookup_app, (lookup_remove_other _ _ _ Hkm).
    destruct (OS.lookup k es); [reflexivity|]. cbn [OS.lookup].
    destruct (String.eqb_spec n k); [congruence | reflexivity].
  - intros Hnd q. rewrite (get_child _ _ q m _ Hget').
    rewrite lookup_app, (lookup_remove_same _ _ Hnd). cbn [OS.lookup].
    destruct (String.eqb_spec n m); [congruence | reflexivity].
Qed.

Lemma rename_moves_subtree_witness :
  let s' := snd (handle_rename (STORAGE_DIR // "Docs") " Papers "
                   (initial_session fs_docs)) in
  OS.get (tree (fs s')) ["srv"; "file_storage"; "Papers"; "a.txt"]
  = Some (File (bytes "old"))
  /\ OS.get (tree (fs s')) ["srv"; "file_storage"; "a.txt"]
     = Some (File (bytes "new"))
  /\ OS.get (tree (fs s')) ["srv"; "file_storage"; "Docs"; "a.txt"] = None.
Proof.
  cbv zeta.
  destruct (rename_moves_subtree (initial_session fs_docs) _
              (STORAGE_DIR // "Docs") " Papers " ["srv"; "file_storage"] _
              eq_refl eq_refl eq_refl eq_refl eq_refl) as (H1 & H2 & H3).
  split; [|split].
  - exact (H1 ["a.txt"]).
  - apply (H2 "a.txt" []); discriminate.
  - apply (H3 ltac:(repeat constructor; simpl; intuition discriminate)
             ["a.txt"]).
Defined.

(** ** Creating a folder and uploading: what stays *)

Lemma same_kind_refl (v : node) : same_kind v v.
Proof. now destruct v. Qed.

Lemma lookup_alter_first_other (k n : string) f (es : OS.entries_t) :
  k <> n -> OS.lookup k (OS.alter_first n f es) = OS.lookup k es.
Proof.
  intros Hne. induction es as [|[a c] es IH]; [reflexivity|].
  cbn [OS.alter_first OS.lookup].
  destruct (String.eqb_spec a n) as [->|Han]; cbn [OS.lookup].
  - destruct (String.eqb_spec n k); [congruence | reflexivity].
  - now rewrite IH.
Qed.

(** Adding an entry to a directory keeps every node that was there. *)
Lemma add_entry_keeps (cp : list string) (n : string) (w : node)
      (t : node) (q : list string) (v : node) :
  OS.get t q = Some v ->
  exists v',
    OS.get (OS.alter cp (OS.on_entries (OS.add_entry n w)) t) q = Some v'
    /\ same_kind v v'.
Proof.
  revert t q. induction cp as [|a cp IH]; intros t q Hget; cbn [OS.alter].
  - destruct q as [|k q].
    + injection Hget as <-. eexists. split; [reflexivity|]. now destruct t.
    + cbn [OS.get] in *. destruct t as [| es |]; try discriminate.
      cbn [OS.on_entries]. unfold OS.add_entry. rewrite lookup_app.
      destruct (OS.lookup k es); [|discriminate].
      exists v. split; [exact Hget | apply same_kind_refl].
  - destruct t as [| es |];
      try (exists v; split; [exact Hget | apply same_kind_refl]).
    destruct q as [|k q].
    + injection Hget as <-. eexists. split; [reflexivity | exact I].
    + cbn [OS.get] in *. destruct (String.eqb_spec k a) as [->|Hka].
      * rewrite lookup_alter_first.
        destruct (OS.lookup a es) as [c|]; [|discriminate]. cbn [option_map].
        now apply IH.
      * rewrite (lookup_alter_first_other _ _ _ _ Hka).
        destruct (OS.lookup k es); [|discriminate].
        exists v. split; [exact Hget | apply same_kind_refl].
Qed.

(** X13.  Creating a folder destroys nothing, whatever name is submitted
    (valid or not) and however the form ends: every node that was in the
    tree is still at its place, a file with the same content, a directory
    still a directory. *)
Theorem new_folder_keeps_existing (folder_name : string) (s : session)
        (q : list string) (v : node) :
  OS.get (tree (fs s)) q = Some v ->
  exists v',
    OS.get (tree (fs (snd (new_folder_form true folder_name s)))) q = Some v'
    /\ same_kind v v'.
Proof.
  intros Hget.
  assert (Hsame : exists v', OS.get (tree (fs s)) q = Some v' /\ same_kind v v')
    by (exists v; split; [exact Hget | apply same_kind_refl]).
  destruct (PyStr.truthy folder_name) eqn:Ht.
  - rewrite (new_folder_form_run _ _ Ht). cbv zeta.
    destruct (OS.exists_ (fs s) (current_path s // folder_name));
      [exact Hsame|].
    unfold OS.mkdir.
    destruct (OS.locate (fs s) (current_path s // folder_name))
      as [e|[cp|d n]]; try exact Hsame.
    cbn [snd fs tree OS.with_tree]. now apply add_entry_keeps.
  - unfold new_folder_form. rewrite Ht. exact Hsame.
Qed.

Lemma new_folder_keeps_existing_witness :
  exists v',
    OS.get (tree (fs (snd (new_folder_form true "../Docs/x"
                             (initial_session fs_docs)))))
      ["srv"; "file_storage"; "Docs"; "a.txt"] = Some v'
    /\ same_kind (File (bytes "old")) v'.
Proof.
  apply (new_folder_keeps_existing "../Docs/x" (initial_session fs_docs)
           ["srv"; "file_storage"; "Docs"; "a.txt"] (File (bytes "old"))).
  reflexivity.
Defined.

(** The location a path of valid names denotes. *)
Lemma locate_valid (fs : filesystem) (p : Path) (v : node) :
  Forall (fun n => valid_name n = true) (tail p) ->
  OS.get (tree fs) (OS.start fs p ++ tail p) = Some v ->
  OS.locate fs p = inr (OS.Existing (OS.start fs p ++ tail p)).
Proof.
  intros Hv Hget. unfold OS.locate. rewrite (has_nul_valid _ Hv).
  destruct (tail p) as [|a l]; [now rewrite app_nil_r|].
  assert (Hne : a :: l <> []) by discriminate.
  destruct (exists_last Hne) as (ini & n & E). rewrite E in *.
  rewrite removelast_last, last_last.
  apply Forall_app in Hv. destruct Hv as [Hini Hn].
  inversion Hn as [|? ? Hn' _]; subst.
  rewrite app_assoc in Hget. pose proof Hget as Hget'.
  rewrite get_app in Hget'.
  destruct (OS.get (tree fs) (OS.start fs p ++ ini)) as [x|] eqn:Hx;
    [|discriminate].
  rewrite (walk_valid _ _ _ _ Hini Hx), Hx.
  destruct x as [| es |]; cbn [OS.get] in Hget'; try discriminate.
  destruct (valid_name_inv _ Hn') as (_ & _ & Hdd & _).
  apply String.eqb_neq in Hdd. rewrite Hdd.
  destruct (OS.lookup n es); [|discriminate].
  now rewrite <- app_assoc.
Qed.

Lemma locate_below (fs : filesystem) (rel : list string) (v : node) :
  Forall (fun n => valid_name n = true) rel ->
  OS.get (tree fs) (storage_root fs ++ rel) = Some v ->
  OS.locate fs (below_storage rel) = inr (OS.Existing (storage_root fs ++ rel)).
Proof.
  intros Hrel Hget. unfold storage_root in *.
  rewrite <- app_assoc in *.
  apply (locate_valid fs (below_storage rel) v); [|exact Hget].
  cbn [below_storage tail]. apply Forall_app. split; [|exact Hrel].
  repeat constructor.
Qed.








(** ** Deleting *)

Lemma iterdir_below (fs : filesystem) (rel : list string)
      (es : OS.entries_t) :
  Forall (fun n => valid_name n = true) rel ->
  OS.get (tree fs) (storage_root fs ++ rel) = Some (Dir es) ->
  OS.iterdir fs (below_storage rel)
  = inr (map (fun e => below_storage (rel ++ [fst e])) es).
Proof.
  intros Hrel Hget. unfold OS.iterdir.
  rewrite (stat_below_storage _ _ _ Hrel Hget).
  apply (f_equal (@inr exn (list Path))).
  apply map_ext. intros e. unfold below_storage. cbn [root tail].
  now rewrite <- app_assoc.
Qed.

Lemma below_child_listed (rel : list string) (es : OS.entries_t)
      (n : string) (c : node) :
  OS.lookup n es = Some c ->
  In (below_storage (rel ++ [n]))
    (map (fun e => below_storage (rel ++ [fst e])) es).
Proof.
  intros H. apply lookup_In in H.
  exact (in_map (fun e => below_storage (rel ++ [fst e])) _ _ H).
Qed.

Lemma valid_snoc (rel : list string) (n : string) :
  Forall (fun n => valid_name n = true) rel ->
  valid_name n = true ->
  Forall (fun n => valid_name n = true) (rel ++ [n]).
Proof. intros H Hn. apply Forall_app. split; [exact H | now constructor]. Qed.

Lemma get_below_child (fs : filesystem) (rel : list string)
      (es : OS.entries_t) (n : string) :
  OS.get (tree fs) (storage_root fs ++ rel) = Some (Dir es) ->
  OS.get (tree fs) (storage_root fs ++ rel ++ [n]) = OS.lookup n es.
Proof. intros H. rewrite app_assoc. now apply get_snoc. Qed.

Lemma name_below_child (rel : list string) (n : string) :
  PurePath.name (below_storage (rel ++ [n])) = n.
Proof.
  unfold PurePath.name, below_storage. cbn [tail].
  rewrite app_assoc. apply last_last.
Qed.

(** What is left of a directory when one of its entries is taken out. *)
Lemma detach_child_effect (t : node) (cb : list string) (es : OS.entries_t)
      (n : string) :
  OS.get t cb = Some (Dir es) ->
  NoDup (map fst es) ->
  (forall q, OS.get (OS.detach (cb ++ [n]) t) (cb ++ n :: q) = None)
  /\ (forall k q, k <> n ->
        OS.get (OS.detach (cb ++ [n]) t) (cb ++ k :: q)
        = OS.get t (cb ++ k :: q)).
Proof.
  intros Hget Hnd.
  assert (Hget' : OS.get (OS.detach (cb ++ [n]) t) cb
                  = Some (Dir (OS.remove_entry n es)))
    by now rewrite detach_child, get_alter, Hget.
  split.
  - intros q. now rewrite (get_child _ _ q n _ Hget'), lookup_remove_same.
  - intros k q Hk.
    rewrite (get_child _ _ q k _ Hget'), (get_child _ _ q k _ Hget).
    now rewrite lookup_remove_other.
Qed.

(** X15.  Deleting a listed folder removes it with its whole subtree:
    the run reports the deletion and asks for a rerun, nothing is found
    any more at or below the folder's name, and the other entries of the
    current directory, with everything below them, are untouched.  The
    current directory stays where it was. *)
Theorem delete_folder_removes_subtree (s : session) (rel : list string)
        (es sub : OS.entries_t) (n : string) :
  OS.is_dir (fs s) STORAGE_DIR = true ->
  current_path s = below_storage rel ->
  Forall (fun n => valid_name n = true) rel ->
  OS.get (tree (fs s)) (storage_root (fs s) ++ rel) = Some (Dir es) ->
  NoDup (map fst es) ->
  valid_name n = true ->
  OS.lookup n es = Some (Dir sub) ->
  exists t',
    script (DeleteFolder (below_storage (rel ++ [n]))) s
    = (inl Rerun,
       mkSession (current_path s) (mkFS t' (cwd (fs s)))
         (shown s ++ [success_deleted_folder n]))
    /\ (forall q, OS.get t' (storage_root (fs s) ++ rel ++ n :: q) = None)
    /\ (forall k q, k <> n ->
          OS.get t' (storage_root (fs s) ++ rel ++ k :: q)
          = OS.get (tree (fs s)) (storage_root (fs s) ++ rel ++ k :: q)).
Proof.
  intros Hroot Hcur Hrel Hget Hnd Hn Hsub.
  set (f := below_storage (rel ++ [n])).
  set (cb := storage_root (fs s) ++ rel) in *.
  assert (Hgetf : OS.get (tree (fs s)) (storage_root (fs s) ++ rel ++ [n])
                  = Some (Dir sub))
    by now rewrite (get_below_child _ _ _ n Hget).
  pose proof (valid_snoc _ _ Hrel Hn) as Hrel'.
  destruct (detach_child_effect _ cb es n Hget Hnd) as [Hgone Hkept].
  exists (OS.detach (cb ++ [n]) (tree (fs s))).
  split; [|split; intros; unfold cb in *; rewrite app_assoc; auto].
  assert (Hr : PurePath.relative_to (current_path s) STORAGE_DIR
               = Some (mkPath EmptyString rel)) by now rewrite Hcur.
  rewrite (script_listing (DeleteFolder f) _ _ Hroot Hr I).
  rewrite (listing_folder_hit (DeleteFolder f) s
             (mkSession (current_path s)
                (mkFS (OS.detach (cb ++ [n]) (tree (fs s))) (cwd (fs s)))
                (shown s ++ [success_deleted_folder n]))
             (map (fun e => below_storage (rel ++ [fst e])) es) f Rerun);
    try reflexivity.
  - rewrite Hcur. now apply iterdir_below.
  - now apply (below_child_listed rel es n (Dir sub)).
  - unfold OS.is_dir, f. now rewrite (stat_below_storage _ _ _ Hrel' Hgetf).
  - cbn [folder_row]. rewrite path_eqb_refl.
    unfold bind at 1, syscall, OS.rmtree.
    unfold f. rewrite (locate_below _ _ _ Hrel' Hgetf), Hgetf.
    unfold cb. rewrite <- app_assoc.
    destruct (storage_root (fs s) ++ rel ++ [n]) as [|a l] eqn:E.
    { apply app_eq_nil in E. destruct E as [_ E].
      apply app_eq_nil in E. destruct E; discriminate. }
    rewrite <- E. unfold bind, show, st_rerun. cbn [fs shown current_path].
    now rewrite name_below_child.
Qed.

Lemma delete_folder_removes_subtree_witness :
  exists t',
    script (DeleteFolder (below_storage ["Docs"])) (initial_session fs_docs)
    = (inl Rerun,
       mkSession STORAGE_DIR (mkFS t' ["srv"])
         [success_deleted_folder "Docs"])
    /\ OS.get t' ["srv"; "file_storage"; "Docs"; "a.txt"] = None
    /\ OS.get t' ["srv"; "file_storage"; "a.txt"] = Some (File (bytes "new")).
Proof.
  destruct (delete_folder_removes_subtree (initial_session fs_docs) [] _
              [("a.txt", File (bytes "old"))] "Docs"
              eq_refl eq_refl (Forall_nil _) eq_refl)
    as (t' & H1 & H2 & H3); try reflexivity.
  - repeat constructor; simpl; intuition discriminate.
  - exists t'. split; [exact H1|]. split.
    + exact (H2 ["a.txt"]).
    + exact (H3 "a.txt" [] ltac:(discriminate)).
Defined.

(** X16.  Deleting a listed file removes that entry alone: the run
    reports the deletion and asks for a rerun, the file is gone, and the
    other entries of the current directory, with everything below them,
    are untouched. *)
Theorem delete_file_removes_entry (s : session) (rel : list string)
        (es : OS.entries_t) (n : string) (d : list byte) :
  OS.is_dir (fs s) STORAGE_DIR = true ->
  current_path s = below_storage rel ->
  Forall (fun n => valid_name n = true) rel ->
  OS.get (tree (fs s)) (storage_root (fs s) ++ rel) = Some (Dir es) ->
  NoDup (map fst es) ->
  valid_name n = true ->
  OS.lookup n es = Some (File d) ->
  exists t',
    script (DeleteFile (below_storage (rel ++ [n]))) s
    = (inl Rerun,
       mkSession (current_path s) (mkFS t' (cwd (fs s)))
         (shown s ++ [success_deleted n]))
    /\ OS.get t' (storage_root (fs s) ++ rel ++ [n]) = None
    /\ (forall k q, k <> n ->
          OS.get t' (storage_root (fs s) ++ rel ++ k :: q)
          = OS.get (tree (fs s)) (storage_root (fs s) ++ rel ++ k :: q)).
Proof.
  intros Hroot Hcur Hrel Hget Hnd Hn Hfile.
  set (f := below_storage (rel ++ [n])).
  set (cb := storage_root (fs s) ++ rel) in *.
  assert (Hgetf : OS.get (tree (fs s)) (storage_root (fs s) ++ rel ++ [n])
                  = Some (File d))
    by now rewrite (get_below_child _ _ _ n Hget).
  pose proof (valid_snoc _ _ Hrel Hn) as Hrel'.
  destruct (detach_child_effect _ cb es n Hget Hnd) as [Hgone Hkept].
  exists (OS.detach (cb ++ [n]) (tree (fs s))).
  split; [|split; intros; unfold cb in *; rewrite app_assoc; auto].
  assert (Hr : PurePath.relative_to (current_path s) STORAGE_DIR
               = Some (mkPath EmptyString rel)) by now rewrite Hcur.
  assert (Hstat : OS.stat (fs s) f = inr (File d))
    by exact (stat_below_storage _ _ _ Hrel' Hgetf).
  rewrite (script_listing (DeleteFile f) _ _ Hroot Hr I).
  rewrite (listing_file_hit (DeleteFile f) s
             (mkSession (current_path s)
                (mkFS (OS.detach (cb ++ [n]) (tree (fs s))) (cwd (fs s)))
                (shown s ++ [success_deleted n]))
             (map (fun e => below_storage (rel ++ [fst e])) es) f Rerun);
    try reflexivity.
  - rewrite Hcur. now apply iterdir_below.
  - now apply (below_child_listed rel es n (File d)).
  - unfold OS.is_file. now rewrite Hstat.
  - unfold file_row, bind at 1, query. rewrite Hstat.
    unfold bind at 1. cbn [file_row]. rewrite move_form_idle.
    rewrite path_eqb_refl. unfold bind at 1, syscall, OS.unlink.
    unfold f. rewrite (locate_below _ _ _ Hrel' Hgetf), Hgetf.
    unfold cb. rewrite <- app_assoc.
    unfold bind, show, st_rerun. cbn [fs shown current_path].
    now rewrite name_below_child.
Qed.

Lemma delete_file_removes_entry_witness :
  exists t',
    script (DeleteFile (below_storage ["a.txt"])) (initial_session fs_docs)
    = (inl Rerun,
       mkSession STORAGE_DIR (mkFS t' ["srv"]) [success_deleted "a.txt"])
    /\ OS.get t' ["srv"; "file_storage"; "a.txt"] = None
    /\ OS.get t' ["srv"; "file_storage"; "Docs"; "a.txt"]
       = Some (File (bytes "old")).
Proof.
  destruct (delete_file_removes_entry (initial_session fs_docs) [] _
              "a.txt" (bytes "new")
              eq_refl eq_refl (Forall_nil _) eq_refl)
    as (t' & H1 & H2 & H3); try reflexivity.
  - repeat constructor; simpl; intuition discriminate.
  - exists t'. split; [exact H1|]. split; [exact H2|].
    exact (H3 "Docs" ["a.txt"] ltac:(discriminate)).
Defined.

(** ** The storage root at the start of a run *)

Lemma locate_storage_dir (fs : filesystem) (es0 : OS.entries_t) :
  OS.get (tree fs) (cwd fs) = Some (Dir es0) ->
  OS.locate fs STORAGE_DIR =
  inr (match OS.lookup "file_storage" es0 with
       | Some _ => OS.Existing (cwd fs ++ ["file_storage"])
       | None => OS.Missing (cwd fs) "file_storage"
       end).
Proof.
  intros Hget.
  exact (locate_child fs (mkPath EmptyString []) (cwd fs) es0 "file_storage"
           eq_refl Hget eq_refl).
Qed.

(** X17.  The first statement of every run makes sure the storage root
    exists, given that the working directory does.  If the working
    directory has no entry "file_storage", an empty directory of that name
    is created (as its last entry) and is the storage root from then on; if
    the entry is a directory, nothing changes; if it is anything else, the
    run stops at once with [FileExistsError], whatever the event. *)
Theorem bootstrap_storage_root (s : session) (es0 : OS.entries_t) :
  OS.get (tree (fs s)) (cwd (fs s)) = Some (Dir es0) ->
  (OS.lookup "file_storage" es0 = None ->
   let fs' := mkFS (OS.alter (cwd (fs s))
                      (OS.on_entries (OS.add_entry "file_storage" (Dir [])))
                      (tree (fs s))) (cwd (fs s)) in
   mkdir_exist_ok STORAGE_DIR s
   = (inr tt, mkSession (current_path s) fs' (shown s))
   /\ OS.stat fs' STORAGE_DIR = inr (Dir []))
  /\ (forall es, OS.lookup "file_storage" es0 = Some (Dir es) ->
        mkdir_exist_ok STORAGE_DIR s = (inr tt, s))
  /\ (forall v, OS.lookup "file_storage" es0 = Some v ->
        (forall es, v <> Dir es) ->
        forall ev, script ev s = (inl (Raise FileExistsError), s)).
Proof.
  intros Hget. pose proof (locate_storage_dir _ _ Hget) as Hloc.
  split; [|split].
  - intros Hnone. cbv zeta. rewrite Hnone in Hloc. split.
    + unfold mkdir_exist_ok, try_except, syscall, OS.mkdir.
      now rewrite Hloc.
    + apply (stat_below_storage _ []); [constructor|].
      cbn [tree]. unfold storage_root. cbn [cwd]. rewrite app_nil_r.
      change (tail STORAGE_DIR) with ["file_storage"].
      erewrite get_snoc by (rewrite get_alter, Hget; reflexivity).
      unfold OS.add_entry. rewrite lookup_app, Hnone. reflexivity.
  - intros es Hdir. apply mkdir_exist_ok_existing.
    rewrite Hdir in Hloc. unfold OS.is_dir, OS.stat. rewrite Hloc.
    now rewrite (get_snoc _ _ _ _ Hget), Hdir.
  - intros v Hv Hnot ev. rewrite Hv in Hloc.
    unfold script, bind, mkdir_exist_ok, try_except, syscall, OS.mkdir.
    rewrite Hloc. cbn [is_OSError]. unfold bind, read, OS.is_dir, OS.stat.
    rewrite Hloc, (get_snoc _ _ _ _ Hget), Hv.
    destruct v as [d| es |]; try reflexivity. now elim (Hnot es).
Qed.

Lemma bootstrap_storage_root_witness :
  (exists fs',
     mkdir_exist_ok STORAGE_DIR
       (initial_session (mkFS (Dir [("srv", Dir [])]) ["srv"]))
     = (inr tt, mkSession STORAGE_DIR fs' [])
     /\ OS.stat fs' STORAGE_DIR = inr (Dir []))
  /\ mkdir_exist_ok STORAGE_DIR (initial_session fs_docs)
     = (inr tt, initial_session fs_docs)
  /\ script Home
       (initial_session
          (mkFS (Dir [("srv", Dir [("file_storage", File [])])]) ["srv"]))
     = (inl (Raise FileExistsError),
        initial_session
          (mkFS (Dir [("srv", Dir [("file_storage", File [])])]) ["srv"])).
Proof.
  split; [|split].
  - eexists.
    exact (proj1 (bootstrap_storage_root
                    (initial_session (mkFS (Dir [("srv", Dir [])]) ["srv"]))
                    [] eq_refl) eq_refl).
  - exact (proj1 (proj2 (bootstrap_storage_root (initial_session fs_docs)
                           _ eq_refl)) _ eq_refl).
  - apply (proj2 (proj2 (bootstrap_storage_root
             (initial_session
                (mkFS (Dir [("srv", Dir [("file_storage", File [])])])
                   ["srv"])) _ eq_refl)) (File []) eq_refl).
    discriminate.
Defined.

(** ** The listing shows every entry once *)

Lemma filter_partition_perm {A} (P Q : A -> bool) (l : list A) :
  (forall x, P x = true -> Q x = false) ->
  Permutation (filter P l ++ filter Q l) (filter (fun x => P x || Q x) l).
Proof.
  intros H. induction l as [|x l IH]; [constructor|]. cbn [filter].
  destruct (P x) eqn:HP; cbn [orb].
  - rewrite (H x HP). cbn [app]. now constructor.
  - destruct (Q x); [|exact IH].
    apply Permutation_sym. apply Permutation_cons_app. now apply Permutation_sym.
Qed.

(** X18.  The two sequences of the listing together are a rearrangement of
    the enumerated entries that are directories or regular files: each
    such entry is listed once, none is lost or repeated, and their number
    is the number of those entries. *)
Theorem list_dir_lists_each_once (s : session) (folder : Path)
        (items : list Path) :
  OS.iterdir (fs s) folder = inr items ->
  exists folders files,
    list_dir folder s = (inr (folders, files), s)
    /\ Permutation (folders ++ files)
         (filter (fun i => OS.is_dir (fs s) i || OS.is_file (fs s) i) items)
    /\ List.length folders + List.length files <= List.length items
    /\ (NoDup items -> NoDup (folders ++ files)).
Proof.
  intros Hit. do 2 eexists. split; [apply (list_dir_run _ _ _ Hit)|].
  assert (Hperm : Permutation
            (Py.sorted name_key (filter (OS.is_dir (fs s)) items)
             ++ Py.sorted name_key (filter (OS.is_file (fs s)) items))
            (filter (fun i => OS.is_dir (fs s) i || OS.is_file (fs s) i)
               items)).
  { rewrite !sorted_perm. apply filter_partition_perm.
    intros x. apply is_dir_not_is_file. }
  split; [exact Hperm|]. split.
  - rewrite <- length_app, (Permutation_length Hperm). apply filter_length_le.
  - intros Hnd. apply (Permutation_NoDup (Permutation_sym Hperm)).
    now apply NoDup_filter.
Qed.

Lemma list_dir_lists_each_once_witness :
  exists folders files,
    list_dir STORAGE_DIR (initial_session fs_fifo)
    = (inr (folders, files), initial_session fs_fifo)
    /\ List.length folders + List.length files <= 3.
Proof.
  destruct (list_dir_lists_each_once (initial_session fs_fifo) STORAGE_DIR _
              eq_refl) as (folders & files & H1 & _ & H3 & _).
  exists folders, files. split; [exact H1 | exact H3].
Defined.

(** ** Creating a folder and entering it *)


Lemma is_dir_below (fs : filesystem) (rel : list string)
      (es : OS.entries_t) :
  Forall (fun n => valid_name n = true) rel ->
  OS.get (tree fs) (storage_root fs ++ rel) = Some (Dir es) ->
  OS.is_dir fs (below_storage rel) = true.
Proof.
  intros Hrel Hget. unfold OS.is_dir.
  now rewrite (stat_below_storage _ _ _ Hrel Hget).
Qed.




(** ** Moving a file into another folder *)

(** Taking a file out of its directory leaves every directory in place,
    and no name that was free becomes taken. *)
Lemma detach_keeps_free (cb : list string) (m : string) (d : list byte)
      (t : node) (q : list string) (es : OS.entries_t) (k : string) :
  OS.get t (cb ++ [m]) = Some (File d) ->
  OS.get t q = Some (Dir es) ->
  OS.lookup k es = None ->
  exists es',
    OS.get (OS.alter cb (OS.on_entries (OS.remove_entry m)) t) q
    = Some (Dir es')
    /\ OS.lookup k es' = None.
Proof.
  revert t q. induction cb as [|b cb IH]; intros t q Hfile Hget Hk;
    cbn [OS.alter app] in *.
  - cbn [OS.get] in Hfile. destruct t as [| es0 |]; try discriminate.
    cbn [OS.on_entries]. destruct q as [|a q].
    + injection Hget as <-. eexists. split; [reflexivity|].
      now apply lookup_remove_none.
    + cbn [OS.get] in *. destruct (String.eqb_spec a m) as [->|Ham].
      * destruct (OS.lookup m es0) as [c|]; [|discriminate].
        injection Hfile as ->. destruct q; discriminate.
      * rewrite (lookup_remove_other _ _ _ Ham).
        destruct (OS.lookup a es0); [|discriminate]. eauto.
  - cbn [OS.get] in Hfile. destruct t as [| es0 |]; try discriminate.
    destruct q as [|a q].
    + injection Hget as <-. eexists. split; [reflexivity|].
      destruct (String.eqb_spec k b) as [->|Hkb].
      * now rewrite lookup_alter_first, Hk.
      * now rewrite (lookup_alter_first_other _ _ _ _ Hkb).
    + cbn [OS.get] in *. destruct (String.eqb_spec a b) as [->|Hab].
      * rewrite lookup_alter_first.
        destruct (OS.lookup b es0) as [c|]; [|discriminate].
        cbn [option_map]. now apply IH.
      * rewrite (lookup_alter_first_other _ _ _ _ Hab).
        destruct (OS.lookup a es0); [|discriminate]. eauto.
Qed.

(** Adding an entry makes nothing appear except at and below its name. *)
Lemma add_entry_keeps_missing (cd : list string) (n : string) (w : node)
      (t : node) (q : list string) :
  OS.get t q = None ->
  OS.is_prefix (cd ++ [n]) q = false ->
  OS.get (OS.alter cd (OS.on_entries (OS.add_entry n w)) t) q = None.
Proof.
  revert t q. induction cd as [|a cd IH]; intros t q Hget Hpre;
    cbn [OS.alter app] in *.
  - destruct t as [| es |]; try exact Hget. cbn [OS.on_entries].
    destruct q as [|k q]; [discriminate|]. cbn [OS.get OS.is_prefix] in *.
    unfold OS.add_entry. rewrite lookup_app.
    destruct (OS.lookup k es); [exact Hget|]. cbn [OS.lookup].
    destruct (String.eqb n k); [discriminate | reflexivity].
  - destruct t as [| es |]; try exact Hget.
    destruct q as [|k q]; [discriminate|]. cbn [OS.get OS.is_prefix] in *.
    destruct (String.eqb_spec a k) as [->|Hak]; cbn [andb] in Hpre.
    + rewrite lookup_alter_first.
      destruct (OS.lookup k es); [|reflexivity]. cbn [option_map].
      now apply IH.
    + rewrite lookup_alter_first_other by congruence. exact Hget.
Qed.

Lemma is_prefix_true (a l : list string) :
  OS.is_prefix a l = true <-> exists b, l = a ++ b.
Proof.
  split; [apply is_prefix_inv|]. intros [b ->]. apply is_prefix_app.
Qed.

(** A path through a regular file leads nowhere. *)
Lemma get_through_file (t : node) (cs r : list string) (d : list byte)
      (v : node) :
  OS.get t cs = Some (File d) ->
  OS.get t (cs ++ r) = Some v ->
  r = [].
Proof.
  intros Hf. rewrite get_app, Hf. destruct r; [reflexivity | discriminate].
Qed.

Lemma parent_below_child (rel : list string) (n : string) :
  PurePath.parent (below_storage (rel ++ [n])) = below_storage rel.
Proof.
  unfold PurePath.parent, below_storage. cbn [root tail].
  now rewrite app_assoc, removelast_last.
Qed.

(** The option the move form holds for an offered folder. *)
Lemma folder_options_offers (file : Path) (s : session) (r : list string) :
  In (below_storage r)
    (destinations file
       (STORAGE_DIR :: filter (OS.is_dir (fs s))
                         (OS.rglob_all (fs s) STORAGE_DIR))) ->
  exists options,
    folder_options file s = (inr options, s)
    /\ Py.dict_get (mkPath EmptyString r) options = Some (below_storage r).
Proof.
  destruct (all_below_map
              (filter (OS.is_dir (fs s)) (OS.rglob_all (fs s) STORAGE_DIR)))
    as [rels Hrels].
  { intros f Hf. apply filter_In in Hf. now apply (rglob_all_below (fs s)). }
  unfold folder_options, bind. rewrite get_all_folders_run, Hrels.
  change (STORAGE_DIR :: map below_storage rels)
    with (map below_storage ([] :: rels)).
  generalize ([] :: rels). clear Hrels rels. intros rels.
  unfold destinations. rewrite filter_map_comm, options_of_below.
  intros Hin. eexists. split; [reflexivity|].
  apply options_fold_get. left. exists r. repeat split.
  apply in_map_iff in Hin. destruct Hin as (r' & E & Hr').
  apply below_storage_inj in E. now subst.
Qed.

(** [shutil.move] of a regular file into another directory where its name
    is free. *)
Lemma move_into_folder (fs : filesystem) (rel rel' : list string)
      (es es' : OS.entries_t) (n : string) (d : list byte) :
  Forall (fun n => valid_name n = true) rel ->
  Forall (fun n => valid_name n = true) rel' ->
  valid_name n = true ->
  rel' <> rel ->
  OS.get (tree fs) (storage_root fs ++ rel) = Some (Dir es) ->
  OS.lookup n es = Some (File d) ->
  OS.get (tree fs) (storage_root fs ++ rel') = Some (Dir es') ->
  OS.lookup n es' = None ->
  OS.move fs (below_storage (rel ++ [n])) (below_storage rel')
  = inr (mkFS
           (OS.alter (storage_root fs ++ rel')
              (OS.on_entries (OS.add_entry n (File d)))
              (OS.detach ((storage_root fs ++ rel) ++ [n]) (tree fs)))
           (cwd fs)).
Proof.
  intros Hrel Hrel' Hn Hne Hget Hfile Hget' Hfree.
  set (cb := storage_root fs ++ rel) in *.
  set (cd := storage_root fs ++ rel') in *.
  assert (Hgetf : OS.get (tree fs) (storage_root fs ++ rel ++ [n])
                  = Some (File d))
    by (rewrite app_assoc; fold cb; now rewrite (get_snoc _ _ _ _ Hget)).
  pose proof (valid_snoc _ _ Hrel Hn) as Hreln.
  pose proof (locate_below _ _ _ Hrel' Hget') as Hlocd. fold cd in Hlocd.
  pose proof (locate_below _ _ _ Hreln Hgetf) as Hlocf.
  rewrite app_assoc in Hlocf, Hgetf. fold cb in Hlocf, Hgetf.
  unfold OS.move. rewrite (is_dir_below _ _ _ Hrel' Hget'). cbn [andb].
  destruct (OS.samefile fs (below_storage (rel ++ [n])) (below_storage rel'))
    eqn:Hsame.
  { apply samefile_stat in Hsame.
    rewrite (stat_existing _ _ _ _ Hlocf Hgetf),
      (stat_existing _ _ _ _ Hlocd Hget') in Hsame. discriminate. }
  rewrite name_below_child,
    (exists_child _ _ _ _ _ Hlocd Hget' Hn), Hfree.
  unfold OS.rename. rewrite Hlocf, Hgetf.
  rewrite (joinpath_valid_name _ _ Hn),
    (locate_child _ _ _ _ _ Hlocd Hget' Hn), Hfree.
  destruct (OS.is_prefix (cb ++ [n]) (cd ++ [n])) eqn:Hpre; [|reflexivity].
  exfalso. apply is_prefix_inv in Hpre. destruct Hpre as [r Hr].
  destruct (snoc_cases r) as [->|(r0 & x & ->)].
  - rewrite app_nil_r in Hr. apply app_inj_tail in Hr. destruct Hr as [Hr _].
    unfold cb, cd in Hr. apply app_inv_head in Hr. contradiction.
  - rewrite app_assoc in Hr. apply app_inj_tail in Hr. destruct Hr as [Hr _].
    rewrite Hr in Hget'.
    pose proof (get_through_file _ _ _ _ _ Hgetf Hget') as ->.
    rewrite app_nil_r, Hgetf in Hget'. discriminate.
Qed.

(** X20.  Moving a listed file into an offered folder that has no entry of
    its name relocates it with its content and under its name: the run
    reports the move and asks for a rerun, the destination folder then
    holds the file with the same bytes, and, the names of the source
    directory being distinct, nothing is left at the old place.  The
    current directory stays where it was. *)
Theorem move_keeps_content (s : session) (rel rel' : list string)
        (es es' : OS.entries_t) (n : string) (d : list byte) :
  OS.is_dir (fs s) STORAGE_DIR = true ->
  current_path s = below_storage rel ->
  Forall (fun n => valid_name n = true) rel ->
  OS.get (tree (fs s)) (storage_root (fs s) ++ rel) = Some (Dir es) ->
  NoDup (map fst es) ->
  valid_name n = true ->
  OS.lookup n es = Some (File d) ->
  Forall (fun n => valid_name n = true) rel' ->
  rel' <> rel ->
  OS.get (tree (fs s)) (storage_root (fs s) ++ rel') = Some (Dir es') ->
  OS.lookup n es' = None ->
  exists t',
    script (MoveFile (below_storage (rel ++ [n])) (mkPath EmptyString rel')) s
    = (inl Rerun,
       mkSession (current_path s) (mkFS t' (cwd (fs s)))
         (shown s ++ [success_moved n (mkPath EmptyString rel')]))
    /\ OS.get t' (storage_root (fs s) ++ rel' ++ [n]) = Some (File d)
    /\ OS.get t' (storage_root (fs s) ++ rel ++ [n]) = None.
Proof.
  intros Hroot Hcur Hrel Hget Hnd Hn Hfile Hrel' Hne Hget' Hfree.
  set (f := below_storage (rel ++ [n])).
  set (key := mkPath EmptyString rel').
  set (cb := storage_root (fs s) ++ rel) in *.
  set (cd := storage_root (fs s) ++ rel') in *.
  set (t1 := OS.detach (cb ++ [n]) (tree (fs s))).
  set (t' := OS.alter cd (OS.on_entries (OS.add_entry n (File d))) t1).
  assert (Hgetf : OS.get (tree (fs s)) (cb ++ [n]) = Some (File d))
    by now rewrite (get_snoc _ _ _ _ Hget).
  pose proof (valid_snoc _ _ Hrel Hn) as Hreln.
  assert (Hstat : OS.stat (fs s) f = inr (File d)).
  { apply (stat_below_storage _ _ _ Hreln). now rewrite app_assoc. }
  exists t'. split; [|split].
  - assert (Hr : PurePath.relative_to (current_path s) STORAGE_DIR
                 = Some (mkPath EmptyString rel)) by now rewrite Hcur.
    rewrite (script_listing (MoveFile f key) _ _ Hroot Hr I).
    rewrite (listing_file_hit (MoveFile f key) s
               (mkSession (current_path s) (mkFS t' (cwd (fs s)))
                  (shown s ++ [success_moved n key]))
               (map (fun e => below_storage (rel ++ [fst e])) es) f Rerun);
      try reflexivity.
    + rewrite Hcur. now apply iterdir_below.
    + now apply (below_child_listed rel es n (File d)).
    + unfold OS.is_file. now rewrite Hstat.
    + destruct (folder_options_offers f s rel') as (options & Hopt & Hkey).
      { unfold destinations. apply filter_In. split.
        - destruct rel' as [|a l]; [now left|]. right.
          apply (rglob_all_complete _ _ es'); [discriminate | exact Hrel'|].
          exact Hget'.
        - unfold f. rewrite parent_below_child.
          apply negb_true_iff, path_eqb_neq. intros E.
          now apply below_storage_inj in E. }
      unfold file_row, bind at 1, query. rewrite Hstat. unfold bind at 1.
      fold key in Hkey.
      rewrite path_eqb_refl. unfold move_form, bind at 1. rewrite Hopt.
      unfold bind at 1. rewrite Hkey. cbn [of_option].
      unfold ret at 1. unfold bind at 1, syscall.
      unfold f. rewrite (move_into_folder _ _ _ _ _ _ _ Hrel Hrel' Hn Hne
                           Hget Hfile Hget' Hfree).
      fold cb cd t1 t'. unfold bind, show, st_rerun.
      cbn [fs shown current_path]. now rewrite name_below_child.
  - rewrite app_assoc. fold cd.
    destruct (detach_keeps_free cb n d (tree (fs s)) cd es' n
                Hgetf Hget' Hfree) as (es1 & Hget1 & Hfree1).
    assert (Hgetd : OS.get t' cd
                    = Some (Dir (es1 ++ [(n, File d)]))).
    { unfold t', t1. rewrite get_alter, detach_child, Hget1. reflexivity. }
    rewrite (get_snoc _ _ _ _ Hgetd), lookup_app, Hfree1.
    cbn [OS.lookup]. now rewrite String.eqb_refl.
  - rewrite app_assoc. fold cb. unfold t'.
    apply add_entry_keeps_missing.
    + destruct (detach_child_effect _ cb es n Hget Hnd) as [Hgone _].
      exact (Hgone []).
    + destruct (OS.is_prefix (cd ++ [n]) (cb ++ [n])) eqn:Hpre;
        [|reflexivity].
      exfalso. apply is_prefix_inv in Hpre. destruct Hpre as [r Hr].
      destruct (snoc_cases r) as [->|(r0 & x & ->)].
      * rewrite app_nil_r in Hr. apply app_inj_tail in Hr.
        destruct Hr as [Hr _]. unfold cb, cd in Hr.
        apply app_inv_head in Hr. now subst.
      * rewrite app_assoc in Hr. apply app_inj_tail in Hr.
        destruct Hr as [Hr _]. rewrite Hr, get_app in Hget.
        rewrite (get_snoc _ _ _ _ Hget'), Hfree in Hget. discriminate.
Qed.

Lemma move_keeps_content_witness :
  exists t',
    script (MoveFile (below_storage ["r.txt"]) (mkPath EmptyString ["A"; "B"]))
      (initial_session fs_nested)
    = (inl Rerun,
       mkSession STORAGE_DIR (mkFS t' ["srv"])
         [success_moved "r.txt" (mkPath EmptyString ["A"; "B"])])
    /\ OS.get t' ["srv"; "file_storage"; "A"; "B"; "r.txt"]
       = Some (File (bytes "r"))
    /\ OS.get t' ["srv"; "file_storage"; "r.txt"] = None.
Proof.
  apply (move_keeps_content (initial_session fs_nested) [] ["A"; "B"]
           [("A", Dir [("B", Dir [("C", Dir []);
                                  ("n.txt", File (bytes "n"))])]);
            ("r.txt", File (bytes "r"))]
           [("C", Dir []); ("n.txt", File (bytes "n"))]
           "r.txt" (bytes "r")
           eq_refl eq_refl (Forall_nil _) eq_refl);
    try reflexivity; try discriminate.
  - repeat constructor; simpl; intuition discriminate.
  - repeat constructor.
Defined.

(** ** The icon of a file *)

Lemma rfind_dot_none (s : string) :
  PyStr.contains_char "." s = false -> rfind_dot s = None.
Proof.
  induction s as [|c s IH]; [reflexivity|]. cbn [PyStr.contains_char rfind_dot].
  rewrite orb_false_iff. intros [Hc Hs]. now rewrite (IH Hs), Hc.
Qed.

Lemma rfind_dot_last (stem ext : string) :
  PyStr.contains_char "." ext = false ->
  rfind_dot (stem ++ String "." ext)%string = Some (String.length stem).
Proof.
  intros Hext. induction stem as [|c stem IH]; cbn [append rfind_dot].
  - now rewrite (rfind_dot_none _ Hext).
  - now rewrite IH.
Qed.

Lemma string_length_app (a b : string) :
  String.length (a ++ b)%string = String.length a + String.length b.
Proof. induction a as [|c a IH]; cbn; [reflexivity | now rewrite IH]. Qed.

Lemma substring_whole (s : string) : substring 0 (String.length s) s = s.
Proof. induction s as [|c s IH]; cbn; [reflexivity | now rewrite IH]. Qed.

Lemma substring_drop (a b : string) :
  substring (String.length a) (String.length b) (a ++ b)%string = b.
Proof.
  induction a as [|c a IH]; cbn [append String.length substring].
  - apply substring_whole.
  - exact IH.
Qed.

(** The suffix of a name with a non-empty stem and a non-empty last
    extension. *)
Lemma suffix_of_extension (p : Path) (stem ext : string) :
  PurePath.name p = (stem ++ String "." ext)%string ->
  stem <> EmptyString ->
  ext <> EmptyString ->
  PyStr.contains_char "." ext = false ->
  suffix p = String "." ext.
Proof.
  intros Hname Hstem Hext Hdot. unfold suffix.
  rewrite Hname, (rfind_dot_last _ _ Hdot), string_length_app.
  cbn [String.length].
  assert (H1 : (0 <? String.length stem)%nat = true).
  { apply Nat.ltb_lt. destruct stem; [congruence | cbn; lia]. }
  assert (H2 : (String.length stem
                <? String.length stem + S (String.length ext) - 1)%nat = true).
  { apply Nat.ltb_lt. destruct ext; [congruence | cbn; lia]. }
  rewrite H1, H2. cbn [andb].
  replace (String.length stem + S (String.length ext) - String.length stem)
    with (String.length (String "." ext)) by (cbn; lia).
  apply substring_drop.
Qed.

(** X21.  The icon of a file is decided by its last extension, whatever
    the letter case: for a name made of a non-empty stem, a dot and a
    non-empty extension without dot, the icon is the one [icon_map] has
    for the lower-cased extension, and the question mark when it has
    none. *)
Theorem icon_by_last_extension (p : Path) (stem ext : string) :
  PurePath.name p = (stem ++ String "." ext)%string ->
  stem <> EmptyString ->
  ext <> EmptyString ->
  PyStr.contains_char "." ext = false ->
  get_file_icon p =
  match dict_lookup (String "." (PyStr.lower ext)) icon_map with
  | Some i => i
  | None => white_question_mark
  end.
Proof.
  intros Hname Hstem Hext Hdot. unfold get_file_icon.
  now rewrite (suffix_of_extension _ _ _ Hname Hstem Hext Hdot).
Qed.

Lemma icon_by_last_extension_witness :
  get_file_icon (STORAGE_DIR // "Report.final.PDF") = page_facing_up
  /\ get_file_icon (STORAGE_DIR // "notes.md") = white_question_mark.
Proof.
  split.
  - apply (icon_by_last_extension (STORAGE_DIR // "Report.final.PDF")
             "Report.final" "PDF"); [reflexivity | | | reflexivity];
      discriminate.
  - apply (icon_by_last_extension (STORAGE_DIR // "notes.md") "notes" "md");
      [reflexivity | | | reflexivity]; discriminate.
Defined.

(** X22.  A name without extension gets the question mark: a name without
    any dot, a name whose only dot is its first character (a hidden file
    such as ".py"), and a name that ends with its last dot. *)
Theorem icon_without_extension (p : Path) :
  (PyStr.contains_char "." (PurePath.name p) = false ->
   get_file_icon p = white_question_mark)
  /\ (forall rest,
        PurePath.name p = String "." rest ->
        PyStr.contains_char "." rest = false ->
        get_file_icon p = white_question_mark)
  /\ (forall stem,
        PurePath.name p = (stem ++ ".")%string ->
        get_file_icon p = white_question_mark).
Proof.
  split; [|split].
  - intros H. unfold get_file_icon, suffix. now rewrite (rfind_dot_none _ H).
  - intros rest Hname Hrest. unfold get_file_icon, suffix.
    rewrite Hname. cbn [rfind_dot]. now rewrite (rfind_dot_none _ Hrest).
  - intros stem Hname. unfold get_file_icon, suffix.
    rewrite Hname, (rfind_dot_last stem EmptyString eq_refl),
      string_length_app.
    cbn [String.length].
    assert (E : (String.length stem <? String.length stem + 1 - 1)%nat = false)
      by (apply Nat.ltb_ge; lia).
    rewrite E, andb_false_r. reflexivity.
Qed.

Lemma icon_without_extension_witness :
  get_file_icon (STORAGE_DIR // "Makefile") = white_question_mark
  /\ get_file_icon (STORAGE_DIR // ".py") = white_question_mark
  /\ get_file_icon (STORAGE_DIR // "archive.") = white_question_mark.
Proof.
  split; [|split].
  - apply (proj1 (icon_without_extension (STORAGE_DIR // "Makefile"))).
    reflexivity.
  - apply (proj1 (proj2 (icon_without_extension (STORAGE_DIR // ".py")))
             "py"); reflexivity.
  - apply (proj2 (proj2 (icon_without_extension (STORAGE_DIR // "archive.")))
             "archive"). reflexivity.
Defined.

(** ** The size of a file *)

Lemma Qle_bool_false (x y : Q) : Qle_bool x y = false -> (y < x)%Q.
Proof.
  intros H. apply Qnot_le_lt. intros Hle.
  apply Qle_bool_iff in Hle. congruence.
Qed.

(** More fuel than the labels allow changes nothing. *)
Lemma format_bytes_loop_fuel (extra : nat) (size : Q) :
  format_bytes_loop (4 + extra) size 0 = format_bytes_loop 4 size 0.
Proof.
  cbn [format_bytes_loop Nat.add power_labels List.length Nat.sub Nat.ltb
       Nat.leb andb].
  repeat (match goal with
          | |- context [Qle_bool 1024 ?q] => destruct (Qle_bool 1024 q)
          end; cbn [andb]; try reflexivity).
  destruct extra; cbn [format_bytes_loop power_labels List.length Nat.sub
                       Nat.ltb Nat.leb]; [reflexivity|].
  now rewrite andb_false_r.
Qed.

Ltac fb_case lit :=
  split; [reflexivity|];
  split; [lia|];
  split; [change (inject_Z (1024 ^ Z.of_nat _)) with lit; field|];
  split; [intros H; first [assumption | exfalso; lia]
         | intros H;
           first [exfalso; lia
                 | apply Qle_shift_div_l; [reflexivity | lra]]].

(** X23.  For a size below 2^53, [format_bytes] never fails and picks the
    unit by powers of 1024: it returns the size divided by 1024 to the
    power [k] with the [k]-th label of B, KB, MB, GB, TB, where the number
    is below 1024 unless the unit is TB, and at least 1 unless the unit is
    B.  So the unit is the largest one not above the size, capped at TB. *)
Theorem format_bytes_unit (z : Z) :
  (0 <= z < 2 ^ 53)%Z ->
  exists (k : nat) (v : Q),
    format_bytes (Some z)
    = inr (amount v (nth k ["B"; "KB"; "MB"; "GB"; "TB"] EmptyString))
    /\ k <= 4
    /\ (v * inject_Z (1024 ^ Z.of_nat k) == inject_Z z)%Q
    /\ (k < 4 -> (v < 1024)%Q)
    /\ (0 < k -> (1 <= v)%Q).
Proof.
  intros _. unfold format_bytes.
  cbn [format_bytes_loop power_labels List.length Nat.sub Nat.ltb Nat.leb].
  set (q := inject_Z z).
  destruct (Qle_bool 1024 q) eqn:E0; cbn [andb].
  2:{ apply Qle_bool_false in E0. exists 0, q. fb_case 1%Q. }
  apply Qle_bool_iff in E0.
  destruct (Qle_bool 1024 (q / 1024)) eqn:E1; cbn [andb].
  2:{ apply Qle_bool_false in E1. exists 1, (q / 1024)%Q. fb_case 1024%Q. }
  apply Qle_bool_iff in E1.
  destruct (Qle_bool 1024 (q / 1024 / 1024)) eqn:E2; cbn [andb].
  2:{ apply Qle_bool_false in E2. exists 2, (q / 1024 / 1024)%Q.
      fb_case 1048576%Q. }
  apply Qle_bool_iff in E2.
  destruct (Qle_bool 1024 (q / 1024 / 1024 / 1024)) eqn:E3; cbn [andb].
  2:{ apply Qle_bool_false in E3. exists 3, (q / 1024 / 1024 / 1024)%Q.
      fb_case 1073741824%Q. }
  apply Qle_bool_iff in E3.
  exists 4, (q / 1024 / 1024 / 1024 / 1024)%Q. fb_case 1099511627776%Q.
Qed.

Lemma format_bytes_unit_witness :
  exists (k : nat) (v : Q),
    format_bytes (Some 1536%Z)
    = inr (amount v (nth k ["B"; "KB"; "MB"; "GB"; "TB"] EmptyString))
    /\ k <= 4
    /\ (v * inject_Z (1024 ^ Z.of_nat k) == inject_Z 1536)%Q
    /\ (k < 4 -> (v < 1024)%Q)
    /\ (0 < k -> (1 <= v)%Q).
Proof.
  apply (format_bytes_unit 1536%Z). split; [lia | reflexivity].
Defined.

Example format_bytes_examples :
  format_bytes None = inr not_available
  /\ format_bytes (Some 512%Z) = inr (amount (512 # 1) "B")
  /\ format_bytes (Some 1536%Z) = inr (amount ((1536 # 1) / 1024) "KB").
Proof. repeat split. Qed.
